(** * Security-dataset pipelines: fetch, normalise, publish, retain

    A shallow embedding of the three download scripts of the repository

    - [cpes/download_cpes.py]                         (paginated NVD CPE catalogue),
    - [epss/epss_scores_download.py]                  (one dated EPSS file),
    - [cisa_vulnrichment/cisa_vulnrichment_download.py] (git mirror of CVE records),

    and the properties their design document states about them.

    Layout of the development:

    - [Py]         Python values as [json.load] yields them, [==], truthiness;
    - [SafeGet]    the nested helper [safe_get] of [csv_from_vulnrichment];
    - [OS]         the part of the operating system the scripts talk to: a data
                   directory, a log directory, temporary directories, and the
                   trace of effects a run performs on them;
    - [Retention]  the log pruning block that ends each script;
    - [Publish]    the canonical swap and compression block of each script;
    - [CPE], [EPSS], [Vuln]  the three [main] functions. *)

From Stdlib Require Import ZArith QArith Qcanon Lia Bool.
From stdpp Require Import base option list strings gmap sorting pretty.

Set Warnings "-register-all,-clear-no-such-hyp".

Local Open Scope string_scope.
Local Open Scope Z_scope.

(** ** Python values *)

Module Py.

(** The values [json.load] produces.  A JSON object keeps its insertion
    order (Python dictionaries iterate in it), so a dictionary is an
    association list; [json.load] never produces a duplicate key.  A float is
    the rational it denotes; NaN, which is not a JSON number, has no
    representative. *)
Inductive value : Type :=
| VNone
| VBool (b : bool)
| VInt (z : Z)
| VFloat (q : Qc)
| VStr (s : string)
| VList (l : list value)
| VDict (m : list (string * value)).

(** What a variadic [*keys] argument holds on a lookup path: a dictionary key
    or a list index. *)
Inductive key : Type :=
| KStr (s : string)
| KInt (i : Z).

(** The exceptions that the modelled code can raise. *)
Inductive exn : Type :=
| IndexError
| AttributeError
| TypeError
| ValueError
| FileNotFoundError
| FileExistsError
| OSError
| RuntimeError
| RequestException
| HTTPError
| CalledProcessError.

(** Line feed and the [csv] module's line terminator. *)
Definition LF : string := String (Ascii.ascii_of_nat 10) EmptyString.
Definition CRLF : string := String (Ascii.ascii_of_nat 13) LF.

(** Result of evaluating an expression that may raise. *)
Inductive outcome (A : Type) : Type :=
| Ret (a : A)
| Raise (e : exn).
Arguments Ret {A} a.
Arguments Raise {A} e.

Definition isinstance_dict (v : value) : bool :=
  match v with VDict _ => true | _ => false end.

Definition isinstance_list (v : value) : bool :=
  match v with VList _ => true | _ => false end.

(** [bool] is a subclass of [int]; numbers of the three numeric types compare
    by the number they denote. *)
Definition as_number (v : value) : option Qc :=
  match v with
  | VBool b => Some (Q2Qc (inject_Z (if b then 1 else 0)))
  | VInt z => Some (Q2Qc (inject_Z z))
  | VFloat q => Some q
  | _ => None
  end.

(** [d.get(k)] without default, on the association list. *)
Fixpoint assoc (k : string) (m : list (string * value)) : option value :=
  match m with
  | [] => None
  | (k', v) :: m' => if String.eqb k k' then Some v else assoc k m'
  end.

(** [a == b]. *)
Fixpoint py_eq (a b : value) {struct a} : bool :=
  match a, b with
  | VNone, VNone => true
  | VStr s, VStr t => String.eqb s t
  | VList l1, VList l2 =>
      (fix all2 (xs ys : list value) {struct xs} : bool :=
         match xs, ys with
         | [], [] => true
         | x :: xs', y :: ys' => py_eq x y && all2 xs' ys'
         | _, _ => false
         end) l1 l2
  | VDict m1, VDict m2 =>
      Nat.eqb (length m1) (length m2) &&
      (fix each (m : list (string * value)) {struct m} : bool :=
         match m with
         | [] => true
         | (k, v) :: m' =>
             match assoc k m2 with
             | Some w => py_eq v w
             | None => false
             end && each m'
         end) m1
  | _, _ =>
      match as_number a, as_number b with
      | Some p, Some q => bool_decide (p = q)
      | _, _ => false
      end
  end.

(** [bool(v)]: the empty containers, zero, [None] and [False] are falsy. *)
Definition truthy (v : value) : bool :=
  match v with
  | VNone => false
  | VBool b => b
  | VInt z => negb (z =? 0)
  | VFloat q => negb (bool_decide (q = Q2Qc 0))
  | VStr s => negb (String.eqb s "")
  | VList l => negb (Nat.eqb (length l) 0)
  | VDict m => negb (Nat.eqb (length m) 0)
  end.

(** [d.get(key, default)] for a key of either kind.  The keys of a decoded
    JSON object are strings, so an integer key is never present. *)
Definition dict_get (m : list (string * value)) (k : key) (default : value) : value :=
  match k with
  | KStr s => match assoc s m with Some v => v | None => default end
  | KInt _ => default
  end.

(** [v.get(k, d)] as written on a decoded document: only a dictionary has
    the method. *)
Definition py_get (v : value) (k : string) (d : value) : outcome value :=
  match v with
  | VDict m => Ret (match assoc k m with Some w => w | None => d end)
  | _ => Raise AttributeError
  end.

(** [l[i]]: a negative index counts from the end; outside
    [-len(l) .. len(l)-1] the subscript raises [IndexError]. *)
Definition list_getitem (l : list value) (i : Z) : outcome value :=
  let n := Z.of_nat (length l) in
  let j := if i <? 0 then i + n else i in
  if (0 <=? j) && (j <? n)
  then match l !! Z.to_nat j with
       | Some v => Ret v
       | None => Raise IndexError
       end
  else Raise IndexError.

End Py.

(** ** [safe_get] *)

Module SafeGet.
Import Py.

(** One turn of the [for key in keys] loop, up to the assignment of [result]:
    the [if] / [elif] / [else] at lines 66-71. *)
Inductive step : Type :=
| Next (result : value)      (* [result] was reassigned *)
| ReturnDefault              (* the [else] branch returned *)
| Raises (e : exn).          (* the subscript raised *)

Definition descend (default result : value) (k : key) : step :=
  match result with
  | VDict m => Next (dict_get m k default)
  | VList l =>
      match k with
      | KInt i =>
          if Z.of_nat (length l) >? i
          then match list_getitem l i with
               | Ret v => Next v
               | Raise e => Raises e
               end
          else ReturnDefault
      | KStr _ => ReturnDefault
      end
  | _ => ReturnDefault
  end.

(** [safe_get(data, *keys, default=default)]. *)
Fixpoint safe_get (data : value) (keys : list key) (default : value)
  : outcome value :=
  match keys with
  | [] => Ret (match data with VNone => default | _ => data end)
  | k :: keys' =>
      match descend default data k with
      | Next result =>
          if py_eq result default then Ret default
          else safe_get result keys' default
      | ReturnDefault => Ret default
      | Raises e => Raise e
      end
  end.

(** The plain descent that [safe_get] guards: follow the keys through
    dictionaries and lists, with the same lookups as the two assigning
    branches, and stop with [None] where the path cannot be followed. *)
Fixpoint walk (default data : value) (keys : list key) : option value :=
  match keys with
  | [] => Some data
  | k :: keys' =>
      match descend default data k with
      | Next result => walk default result keys'
      | _ => None
      end
  end.

End SafeGet.

(** ** The operating system as the scripts see it *)

Module OS.
Import Py.

(** Each script owns two sibling directories, [data] and [logs], next to
    itself; [os.makedirs(..., exist_ok=True)] makes sure of both, so both are
    always part of the model.  [TmpDir n] is the sub-directory [n] of the
    data directory, as [tempfile.mkdtemp(dir=DATA_DIR)] creates them. *)
Inductive dir : Type :=
| DataDir
| LogDir
| TmpDir (name : string).

Definition path : Type := dir * string.

#[global] Instance dir_eq_dec : EqDecision dir.
Proof. solve_decision. Defined.

(** The files of the two directories and of the temporary directories, by
    name, with their contents. *)
Record fs : Type := {
  data_dir : gmap string string;
  log_dir : gmap string string;
  tmp_dirs : gmap string (gmap string string)
}.

(** The remote resources the scripts request. *)
Inductive url : Type :=
| NvdCpes (results_per_page start_index : Z)
| EpssScores (date : string)
| GitHub.

#[global] Instance url_eq_dec : EqDecision url.
Proof. solve_decision. Defined.

(** What a run does to the world, one atomic step at a time. *)
Inductive event : Type :=
| EvLog (file level msg : string)   (* [log]: one line appended to a log file *)
| EvPrint (line : string)           (* [print] *)
| EvGet (u : url)                   (* [requests.get] *)
| EvHead (u : url)                  (* [requests.head] *)
| EvSleep (seconds : Z)             (* [time.sleep] *)
| EvRun (cmd : list string)         (* [subprocess.run] *)
| EvMkdtemp (name : string)         (* [tempfile.mkdtemp] *)
| EvTruncate (p : path)             (* [open(p, 'w')]: created or emptied *)
| EvAppend (p : path) (s : string)  (* [write] on the file opened at [p] *)
| EvRemove (p : path)               (* [os.remove] *)
| EvRename (src dst : path)         (* [shutil.move] of a file *)
| EvRmtree (name : string).         (* [shutil.rmtree] of a temporary directory *)

#[global] Instance event_eq_dec : EqDecision event.
Proof. solve_decision. Defined.

Definition lookup_file (s : fs) (p : path) : option string :=
  match p.1 with
  | DataDir => data_dir s !! p.2
  | LogDir => log_dir s !! p.2
  | TmpDir n => tmp_dirs s !! n ≫= λ d, d !! p.2
  end.

Definition store_file (s : fs) (p : path) (c : string) : fs :=
  match p.1 with
  | DataDir => {| data_dir := <[p.2 := c]> (data_dir s);
                  log_dir := log_dir s; tmp_dirs := tmp_dirs s |}
  | LogDir => {| data_dir := data_dir s;
                 log_dir := <[p.2 := c]> (log_dir s); tmp_dirs := tmp_dirs s |}
  | TmpDir n =>
      match tmp_dirs s !! n with
      | Some d => {| data_dir := data_dir s; log_dir := log_dir s;
                     tmp_dirs := <[n := <[p.2 := c]> d]> (tmp_dirs s) |}
      | None => s
      end
  end.

Definition delete_file (s : fs) (p : path) : fs :=
  match p.1 with
  | DataDir => {| data_dir := delete p.2 (data_dir s);
                  log_dir := log_dir s; tmp_dirs := tmp_dirs s |}
  | LogDir => {| data_dir := data_dir s;
                 log_dir := delete p.2 (log_dir s); tmp_dirs := tmp_dirs s |}
  | TmpDir n =>
      match tmp_dirs s !! n with
      | Some d => {| data_dir := data_dir s; log_dir := log_dir s;
                     tmp_dirs := <[n := delete p.2 d]> (tmp_dirs s) |}
      | None => s
      end
  end.

Definition contents (s : fs) (p : path) : string :=
  default "" (lookup_file s p).

(** The effect of one step on the files. *)
Definition apply_event (s : fs) (e : event) : fs :=
  match e with
  | EvLog file level msg =>
      store_file s (LogDir, file)
        (contents s (LogDir, file) +:+ level +:+ " " +:+ msg +:+ LF)
  | EvMkdtemp n =>
      {| data_dir := data_dir s; log_dir := log_dir s;
         tmp_dirs := <[n := ∅]> (tmp_dirs s) |}
  | EvTruncate p => store_file s p ""
  | EvAppend p c => store_file s p (contents s p +:+ c)
  | EvRemove p => delete_file s p
  | EvRename src dst =>
      match lookup_file s src with
      | Some c => store_file (delete_file s src) dst c
      | None => s
      end
  | EvRmtree n =>
      {| data_dir := data_dir s; log_dir := log_dir s;
         tmp_dirs := delete n (tmp_dirs s) |}
  | EvPrint _ | EvGet _ | EvHead _ | EvSleep _ | EvRun _ => s
  end.

(** The files after a sequence of steps, and the states passed through. *)
Definition replay (s : fs) (evs : list event) : fs :=
  foldl apply_event s evs.

Fixpoint snapshots (s : fs) (evs : list event) : list (event * fs) :=
  match evs with
  | [] => []
  | e :: evs' => let s' := apply_event s e in (e, s') :: snapshots s' evs'
  end.

(** *** Runs

    A run is a computation over the current files and the history of the
    steps taken so far, each with the files it left; a crash or a kill of the
    process stops the run at one of these.  The computation ends with a
    value, with an exception, or with [sys.exit]. *)
Record state : Type := {
  now : fs;
  past : list (event * fs)
}.

Inductive result (A : Type) : Type :=
| Val (a : A)
| Exc (e : exn)
| SysExit (code : Z).
Arguments Val {A} a.
Arguments Exc {A} e.
Arguments SysExit {A} code.

(** The faults of the machine under the run: [faulty e] tells that the
    file-system step [e] is refused (disk full, permission denied), in which
    case the call raises [OSError] and changes nothing.  Appending to the
    run's log is taken to work. *)
Record oracle : Type := {
  faulty : event → bool;
  (* [tarfile]: the bytes of a gzip-compressed archive with one member,
     given the member's name and contents *)
  archive : string → string → string
}.

Definition M (A : Type) : Type := oracle → state → result A * state.

Definition ret {A} (a : A) : M A := λ _ st, (Val a, st).

Definition bind {A B} (m : M A) (k : A → M B) : M B := λ O st,
  match m O st with
  | (Val a, st') => k a O st'
  | (Exc e, st') => (Exc e, st')
  | (SysExit c, st') => (SysExit c, st')
  end.

Declare Scope run_scope.
Delimit Scope run_scope with run.
Bind Scope run_scope with M.
Notation "x ← m ; k" := (bind m (λ x, k))
  (at level 20, m at level 100, k at level 200, only parsing) : run_scope.
Notation "m ;; k" := (bind m (λ _, k))
  (at level 100, k at level 200, only parsing, right associativity) : run_scope.
Local Open Scope run_scope.

Definition raise {A} (e : exn) : M A := λ _ st, (Exc e, st).

Definition skip : M unit := ret tt.

(** [sys.exit(code)] raises [SystemExit], which no [except Exception]
    clause catches. *)
Definition sys_exit {A} (code : Z) : M A := λ _ st, (SysExit code, st).

(** [try: m  except Exception: ...], with the exception reified. *)
Definition try_catch {A} (m : M A) : M (exn + A) := λ O st,
  match m O st with
  | (Val a, st') => (Val (inr a), st')
  | (Exc e, st') => (Val (inl e), st')
  | (SysExit c, st') => (SysExit c, st')
  end.

Definition lift {A} (o : outcome A) : M A :=
  match o with
  | Ret a => ret a
  | Raise e => raise e
  end.

(** The one way the state changes. *)
Definition emit (e : event) : M unit := λ _ st,
  let s := apply_event (now st) e in
  (Val tt, {| now := s; past := (past st ++ [(e, s)])%list |}).

(** A file-system step that the machine may refuse. *)
Definition sys (e : event) : M unit := λ O st,
  if faulty O e then (Exc OSError, st) else emit e O st.

Definition get_fs : M fs := λ _ st, (Val (now st), st).

Definition get_oracle : M oracle := λ O st, (Val O, st).

(** [os.path.exists]. *)
Definition file_exists (p : path) : M bool :=
  s ← get_fs; ret (bool_decide (is_Some (lookup_file s p))).

(** [open(p).read()]. *)
Definition read_file (p : path) : M string :=
  s ← get_fs;
  match lookup_file s p with
  | Some c => ret c
  | None => raise FileNotFoundError
  end.

(** [open(p, 'w')]; in a directory that does not exist the call raises. *)
Definition open_w (p : path) : M unit :=
  s ← get_fs;
  match p.1 with
  | TmpDir n =>
      if bool_decide (is_Some (tmp_dirs s !! n)) then sys (EvTruncate p)
      else raise FileNotFoundError
  | _ => sys (EvTruncate p)
  end.

Definition write (p : path) (c : string) : M unit := sys (EvAppend p c).

(** [with open(p, 'w') as f: f.write(c)]. *)
Definition write_file (p : path) (c : string) : M unit :=
  open_w p;; write p c.

Definition os_remove (p : path) : M unit :=
  s ← get_fs;
  if bool_decide (is_Some (lookup_file s p)) then sys (EvRemove p)
  else raise FileNotFoundError.

Definition shutil_move (src dst : path) : M unit :=
  s ← get_fs;
  if bool_decide (is_Some (lookup_file s src)) then sys (EvRename src dst)
  else raise FileNotFoundError.

Definition rmtree (n : string) : M unit :=
  s ← get_fs;
  if bool_decide (is_Some (tmp_dirs s !! n)) then sys (EvRmtree n)
  else raise FileNotFoundError.

(** The names [os.listdir] reports, in the order of the directory scan. *)
Definition names {V} (m : gmap string V) : list string := (map_to_list m).*1.

Definition listdir (d : dir) : M (list string) :=
  s ← get_fs;
  match d with
  | DataDir => ret (names (data_dir s) ++ names (tmp_dirs s))%list
  | LogDir => ret (names (log_dir s))
  | TmpDir n =>
      match tmp_dirs s !! n with
      | Some files => ret (names files)
      | None => raise FileNotFoundError
      end
  end.

(** [tempfile.mkdtemp(dir=DATA_DIR)]: random names are drawn until one is
    free in the data directory; the directory is created empty. *)
Fixpoint first_free (s : fs) (candidates : list string) : option string :=
  match candidates with
  | [] => None
  | n :: rest =>
      if bool_decide (is_Some (data_dir s !! n)) ||
         bool_decide (is_Some (tmp_dirs s !! n))
      then first_free s rest
      else Some n
  end.

Definition mkdtemp (candidates : list string) : M string :=
  s ← get_fs;
  match first_free s candidates with
  | Some n => sys (EvMkdtemp n);; ret n
  | None => raise FileExistsError
  end.

Definition sleep (seconds : Z) : M unit := emit (EvSleep seconds).

(** [log(msg, level, log_file)].  The ISO time stamp that starts the line is
    left out of the modelled contents. *)
Definition log (log_file level msg : string) : M unit :=
  emit (EvLog log_file level msg).

Definition info (log_file msg : string) : M unit := log log_file "INFO" msg.

(** [for x in xs: body x]. *)
Fixpoint for_each {A} (xs : list A) (body : A → M unit) : M unit :=
  match xs with
  | [] => skip
  | x :: xs' => body x;; for_each xs' body
  end.

(** How the process ends, and its exit status: an exception that reaches
    the top level prints a traceback and exits with status 1. *)
Inductive ending : Type :=
| Completed
| Exited (code : Z)
| Crashed (e : exn).

Definition exit_status (x : ending) : Z :=
  match x with
  | Completed => 0
  | Exited code => code
  | Crashed _ => 1
  end.

Record run : Type := {
  end_of : ending;
  final : fs;
  history : list (event * fs)
}.

Definition execute (main : M unit) (O : oracle) (s : fs) : run :=
  let '(r, st) := main O {| now := s; past := [] |} in
  {| end_of := match r with
               | Val _ => Completed
               | Exc e => Crashed e
               | SysExit c => Exited c
               end;
     final := now st;
     history := past st |}.

Definition trace (r : run) : list event := (history r).*1.

(** [str.startswith], [str.endswith]. *)
Definition startswith (s t : string) : bool := String.prefix t s.

Definition endswith (s t : string) : bool :=
  String.prefix (String.rev t) (String.rev s).

End OS.

(** ** Log retention *)

Module Retention.
Import Py OS.
Local Open Scope run_scope.

(** [sorted(l)] and [sorted(l, reverse=True)] on names.  Strings compare
    character by character, so the sorted arrangement of a list is unique and
    any sorting algorithm computes it. *)
Definition sorted (l : list string) : list string :=
  merge_sort String.le l.

Definition sorted_reverse (l : list string) : list string :=
  merge_sort (flip String.le) l.

Definition is_log (prefix name : string) : bool :=
  startswith name prefix && endswith name ".log".

(** The block that ends each [main]:
<<
    logs = sorted([f for f in os.listdir(LOG_DIR)
                   if f.startswith(prefix) and f.endswith('.log')], reverse=True)
    for old in logs[keep:]:
        try:
            os.remove(os.path.join(LOG_DIR, old)); removed(old)
        except Exception:
            failed(old)
>>
    [removed] and [failed] are the two log calls of the EPSS script and
    nothing ([pass]) in the other two. *)
Definition prune_logs (prefix : string) (keep : nat)
    (removed failed : string → M unit) : M unit :=
  entries ← listdir LogDir;
  let logs := sorted_reverse (filter (λ f, is_log prefix f) entries) in
  for_each (drop keep logs) (λ old,
    r ← try_catch (os_remove (LogDir, old);; removed old);
    match r with
    | inl _ => failed old
    | inr _ => skip
    end).

Definition silent (_ : string) : M unit := skip.

End Retention.

(** ** Publication of the canonical artifact *)

Module Publish.
Import Py OS.
Local Open Scope run_scope.

(** The canonical swap of the CPE and vulnrichment scripts:
<<
    if os.path.exists(canon_csv):
        os.remove(canon_csv)
    shutil.move(fresh_csv, canon_csv)
>> *)
Definition canonical_swap (fresh canon : string) : M unit :=
  e ← file_exists (DataDir, canon);
  (if e then os_remove (DataDir, canon) else skip);;
  shutil_move (DataDir, fresh) (DataDir, canon).

(** The compression block, the same in the three scripts:
<<
    with tarfile.open(canon_tar_gz, "w:gz") as tar:
        tar.add(canon_csv, arcname=os.path.basename(canon_csv))
>>
    [tarfile.open] in mode ["w:gz"] opens the archive for writing at its
    final path, which empties an archive already there; [tar.add] and the
    close at the end of the [with] block write the member. *)
Definition compress (canon canon_tar_gz : string) : M unit :=
  open_w (DataDir, canon_tar_gz);;
  c ← read_file (DataDir, canon);
  O ← get_oracle;
  write (DataDir, canon_tar_gz) (archive O canon c).

(** <<
    try:
        os.remove(canon_csv); log("Removed uncompressed CSV ...")
    except Exception:
        log("WARNING: Could not remove ...", level='WARNING')
>> *)
Definition remove_uncompressed (log_file canon : string) : M unit :=
  r ← try_catch (os_remove (DataDir, canon);;
                 info log_file ("Removed uncompressed CSV: " +:+ canon));
  match r with
  | inl _ => log log_file "WARNING" ("WARNING: Could not remove " +:+ canon)
  | inr _ => skip
  end.

(** [try: os.remove(DATA_DIR/name)  except Exception: pass]. *)
Definition remove_quietly (name : string) : M unit :=
  try_catch (os_remove (DataDir, name));; skip.

End Publish.

(** ** The paginated pipeline: [cpes/download_cpes.py] *)

Module CPE.
Import Py OS Retention Publish.
Local Open Scope run_scope.

Definition RESULTS_PER_PAGE : Z := 10000.
Definition MAX_RETRIES : Z := 5.
Definition SLEEP_BETWEEN_REQUESTS : Z := 7.

(** What the run does not decide: its argument, the clock, the answers of
    the NVD service, the names [mkdtemp] draws, and the library routines
    whose text output is not modelled. *)
Record env : Type := {
  mode : string;                        (* the positional argument *)
  timestamp : string;                   (* [get_timestamp()] at start *)
  (* the probe request, through [raise_for_status] and [r.json()] *)
  probe : outcome value;
  (* the same for the request of a page at a given attempt (from 0) *)
  page_response : Z → Z → outcome value;
  tmp_candidates : list string;
  py_int : string → option Z;           (* [int(s.strip())] *)
  json_dumps : value → string;          (* [json.dumps] *)
  float_pages : Qc → Qc;                (* [(x + 9999) // 10000] on a float *)
  (* [csv.writer.writerow] on the seven fields drawn from one product; a
     product on which a field lookup raises gives the exception *)
  csv_row : value → outcome string
}.

Definition probe_url : url := NvdCpes 1 0.

Definition page_url (page : Z) : url :=
  NvdCpes RESULTS_PER_PAGE (page * RESULTS_PER_PAGE).

Definition page_file (page : Z) : string :=
  "page_" +:+ pretty page +:+ ".json".

Definition checkpoint_file : string := "checkpoint.txt".

Definition log_name (ts : string) : string :=
  "cpes_download_" +:+ ts +:+ ".log".

Definition csv_header : string :=
  "deprecated,cpeName,cpeNameId,lastModified,created,title,refs" +:+ CRLF.

(** [total_pages = (total_results + RESULTS_PER_PAGE - 1) // RESULTS_PER_PAGE]
    on whatever [meta.get('totalResults', 0)] gave. *)
Definition total_pages_of (E : env) (total_results : value) : outcome value :=
  match total_results with
  | VInt z => Ret (VInt ((z + RESULTS_PER_PAGE - 1) / RESULTS_PER_PAGE))
  | VBool b =>
      Ret (VInt (((if b then 1 else 0) + RESULTS_PER_PAGE - 1) / RESULTS_PER_PAGE))
  | VFloat q => Ret (VFloat (float_pages E q))
  | _ => Raise TypeError
  end.

(** [total_pages > 5]. *)
Definition more_than_five (total_pages : value) : bool :=
  match total_pages with
  | VInt z => 5 <? z
  | VFloat q => bool_decide (Q2Qc (inject_Z 5) < q)%Qc
  | _ => false
  end.

(** [range(start_page, total_pages)]; a float bound raises. *)
Definition page_range (start_page : Z) (total_pages : value) : outcome (list Z) :=
  match total_pages with
  | VInt n => Ret (seqZ start_page (n - start_page))
  | _ => Raise TypeError
  end.

(** [products.extend(page_products)]. *)
Definition extend (products : list value) (page_products : value)
  : outcome (list value) :=
  match page_products with
  | VList l => Ret (products ++ l)%list
  | VDict m => Ret (products ++ (VStr <$> m.*1))%list
  | VStr s =>
      Ret (products ++
           ((λ c, VStr (String c EmptyString)) <$> String.list_ascii_of_string s))%list
  | _ => Raise TypeError
  end.

(** The checkpoint load at lines 87-93. *)
Definition load_checkpoint (E : env) (temp_dir : string) : M Z :=
  e ← file_exists (TmpDir temp_dir, checkpoint_file);
  if e then
    c ← read_file (TmpDir temp_dir, checkpoint_file);
    ret (match py_int E c with Some n => n | None => 0 end)
  else ret 0.

(** Lines 101-111: the attempt up to [products.extend]; the value is the
    extended list. *)
Definition fetch_page (E : env) (log_file temp_dir : string)
    (page attempt : Z) (products : list value) : M (list value) :=
  info log_file ("Downloading page " +:+ pretty (page + 1) +:+
                 " attempt " +:+ pretty (attempt + 1));;
  emit (EvGet (page_url page));;
  data ← lift (page_response E page attempt);
  page_products ← lift (py_get data "products" (VList []));
  (if truthy page_products then skip else raise ValueError);;
  write_file (TmpDir temp_dir, page_file page) (json_dumps E data);;
  lift (extend products page_products).

(** Lines 112-114. *)
Definition save_checkpoint (log_file temp_dir : string) (page : Z) : M unit :=
  info log_file ("Page " +:+ pretty (page + 1) +:+ " downloaded successfully");;
  write_file (TmpDir temp_dir, checkpoint_file) (pretty (page + 1)).

(** The [except Exception] clause, lines 116-125. *)
Definition on_failure (log_file temp_dir : string) (page attempt : Z) : M unit :=
  log log_file "ERROR"
    ("ERROR: Download failed for page " +:+ pretty (page + 1));;
  if attempt <? MAX_RETRIES - 1 then
    let wait := 5 * (attempt + 1) in
    info log_file ("Retrying in " +:+ pretty wait +:+ " seconds...");;
    sleep wait
  else
    log log_file "ERROR"
      ("ERROR: Failed after " +:+ pretty MAX_RETRIES +:+ " attempts");;
    rmtree temp_dir;;
    sys_exit 2.

(** [for attempt in range(MAX_RETRIES): try: ... break  except ...]: the
    value is [products] as the loop leaves it. *)
Fixpoint retry_loop (E : env) (log_file temp_dir : string) (page : Z)
    (attempts : list Z) (products : list value) : M (list value) :=
  match attempts with
  | [] => ret products
  | attempt :: rest =>
      r ← try_catch (fetch_page E log_file temp_dir page attempt products);
      match r with
      | inr products' =>
          r' ← try_catch (save_checkpoint log_file temp_dir page);
          match r' with
          | inr _ => ret products'
          | inl _ =>
              on_failure log_file temp_dir page attempt;;
              retry_loop E log_file temp_dir page rest products'
          end
      | inl _ =>
          on_failure log_file temp_dir page attempt;;
          retry_loop E log_file temp_dir page rest products
      end
  end.

(** [for page in range(start_page, total_pages): ...; time.sleep(7)]. *)
Fixpoint download_pages (E : env) (log_file temp_dir : string)
    (pages : list Z) (products : list value) : M (list value) :=
  match pages with
  | [] => ret products
  | page :: rest =>
      products' ← retry_loop E log_file temp_dir page
                    (seqZ 0 MAX_RETRIES) products;
      sleep SLEEP_BETWEEN_REQUESTS;;
      download_pages E log_file temp_dir rest products'
  end.

(** Step 8, lines 191-197. *)
Definition clean_timestamped : M unit :=
  for_each ["json"; "txt"; "csv"] (λ ext,
    entries ← listdir DataDir;
    for_each entries (λ old,
      if startswith old "cpes_" && endswith old ("." +:+ ext)
      then remove_quietly old
      else skip)).

Definition main (E : env) : M unit :=
  let test_mode := String.eqb (mode E) "test" in
  let ts := timestamp E in
  let log_file := log_name ts in
  info log_file ("Script started at " +:+ ts);;
  info log_file (if test_mode then "Running in TEST mode"
                 else "Running in FULL mode");;
  info log_file ("Log file: " +:+ log_file);;
  let cpes_json := "cpes_" +:+ ts +:+ ".json" in
  let cpes_txt := "cpes_" +:+ ts +:+ ".txt" in
  let cpes_csv := "cpes_" +:+ ts +:+ ".csv" in
  let canon_json := "cpes.json" in
  let canon_txt := "cpes.txt" in
  let canon_csv := "cpes.csv" in
  let canon_tar_gz := "cpes.csv.tar.gz" in
  (* Step 1: total results *)
  info log_file "Fetching initial page to determine total CPE count...";;
  emit (EvGet probe_url);;
  meta ← match probe E with
         | Ret meta => ret meta
         | Raise _ =>
             log log_file "ERROR" "ERROR: Failed to fetch initial page";;
             sys_exit 1
         end;
  total_results ← lift (py_get meta "totalResults" (VInt 0));
  format_ ← lift (py_get meta "format" (VStr ""));
  version ← lift (py_get meta "version" (VStr ""));
  timestamp_meta ← lift (py_get meta "timestamp" (VStr ""));
  (if truthy total_results then skip
   else
     log log_file "ERROR"
       "ERROR: Failed to get total results count from API";;
     sys_exit 1);;
  info log_file "Total CPE entries available";;
  total_pages ← lift (total_pages_of E total_results);
  total_pages ← (if test_mode && more_than_five total_pages
                 then info log_file "TEST MODE: Limiting to 5 pages";;
                      ret (VInt 5)
                 else ret total_pages);
  info log_file "Number of pages to download";;
  (* Step 2: all pages, with retry *)
  temp_dir ← mkdtemp (tmp_candidates E);
  start_page ← load_checkpoint E temp_dir;
  pages ← lift (page_range start_page total_pages);
  products ← download_pages E log_file temp_dir pages [];
  (* JSON and TXT *)
  write_file (DataDir, cpes_json)
    (json_dumps E (VDict [("resultsPerPage", VInt RESULTS_PER_PAGE);
                          ("startIndex", VInt 0);
                          ("totalResults", total_results);
                          ("format", format_);
                          ("version", version);
                          ("timestamp", timestamp_meta);
                          ("products", VList products)]));;
  info log_file ("JSON file saved: " +:+ cpes_json);;
  open_w (DataDir, cpes_txt);;
  for_each products (λ prod,
    write (DataDir, cpes_txt) (json_dumps E prod +:+ LF));;
  info log_file ("TXT file saved: " +:+ cpes_txt);;
  (* Steps 3 and 4: CSV *)
  info log_file "Waiting 10 seconds before CSV conversion...";;
  sleep 10;;
  info log_file "Converting CPE data to CSV format";;
  open_w (DataDir, cpes_csv);;
  write (DataDir, cpes_csv) csv_header;;
  for_each products (λ prod,
    row ← lift (csv_row E prod);
    write (DataDir, cpes_csv) row);;
  info log_file ("CSV file saved: " +:+ cpes_csv);;
  (* Step 5: canonical name *)
  canonical_swap cpes_csv canon_csv;;
  info log_file ("Created canonical file: " +:+ canon_csv);;
  (* Step 6: compression *)
  compress canon_csv canon_tar_gz;;
  info log_file ("Compressed CSV to: " +:+ canon_tar_gz);;
  remove_uncompressed log_file canon_csv;;
  (* Step 7 *)
  for_each [cpes_json; cpes_txt; canon_json; canon_txt] (λ fpath,
    e ← file_exists (DataDir, fpath);
    if e then os_remove (DataDir, fpath) else skip);;
  (* Step 8 *)
  clean_timestamped;;
  (* Step 9: keep the latest 3 logs *)
  prune_logs "cpes_download_" 3 silent silent;;
  rmtree temp_dir;;
  info log_file "Script finished successfully".

End CPE.

(** ** The dated-file pipeline: [epss/epss_scores_download.py] *)

Module EPSS.
Import Py OS Retention Publish.
Local Open Scope run_scope.

(** The answer to the one request: status line, then the body in the chunks
    [iter_content] yields; [broken] tells that the stream fails after them. *)
Record response : Type := {
  status_code : Z;
  body : list string;
  broken : bool
}.

Record env : Type := {
  date_arg : option string;       (* the positional argument, if given *)
  yesterday : string;             (* the default date *)
  timestamp : string;
  reply : outcome response;       (* [requests.get]: an answer, or it raised *)
  (* [gzip.open(.., 'rt')] on the downloaded bytes: the lines it yields, and
     whether the stream then ends well *)
  gunzip : string → list string * bool
}.

Definition log_name (ts : string) : string :=
  "epss_download_" +:+ ts +:+ ".log".

(** [if args.date: ...  else: yesterday]; the empty string is falsy.  The
    date is taken to hold no path separator. *)
Definition date_str (E : env) : string :=
  match date_arg E with
  | Some d => if String.eqb d "" then yesterday E else d
  | None => yesterday E
  end.

Definition out_gz (E : env) : string :=
  "epss_scores-" +:+ date_str E +:+ ".csv.gz".

Definition canon : string := "epss_scores.csv".
Definition canon_tar_gz : string := "epss_scores.csv.tar.gz".

(** The lines of a text, each with its terminator, as iterating over a file
    opened for reading yields them. *)
Fixpoint lines_from (cur s : string) : list string :=
  match s with
  | EmptyString => if String.eqb cur "" then [] else [cur]
  | String c s' =>
      if Ascii.eqb c (Ascii.ascii_of_nat 10)
      then (cur +:+ LF) :: lines_from "" s'
      else lines_from (cur +:+ String c EmptyString) s'
  end.

Definition readlines (s : string) : list string := lines_from "" s.

(** [r.raise_for_status()]. *)
Definition raise_for_status (r : response) : M unit :=
  if (400 <=? status_code r) && (status_code r <? 600)
  then raise HTTPError else skip.

(** The [try] block at lines 59-69. *)
Definition download (E : env) (log_file : string) : M unit :=
  let tmp_gz := out_gz E +:+ ".part" in
  emit (EvGet (EpssScores (date_str E)));;
  r ← lift (reply E);
  (if status_code r =? 404 then
     log log_file "ERROR" "ERROR: HTTP 404 Not Found";;
     sys_exit 1
   else skip);;
  raise_for_status r;;
  open_w (DataDir, tmp_gz);;
  for_each (body r) (λ chunk, write (DataDir, tmp_gz) chunk);;
  (if broken r then raise RequestException else skip);;
  shutil_move (DataDir, tmp_gz) (DataDir, out_gz E);;
  info log_file ("Downloaded and saved to " +:+ out_gz E).

(** Lines 81-85. *)
Definition extract (E : env) (log_file csv_out : string) : M unit :=
  c ← read_file (DataDir, out_gz E);
  open_w (DataDir, csv_out);;
  for_each (gunzip E c).1 (λ line, write (DataDir, csv_out) line);;
  (if (gunzip E c).2 then skip else raise OSError);;
  info log_file ("Extracted to " +:+ csv_out);;
  info log_file "csv file unzipped successfully".

(** Lines 93-97. *)
Definition strip_comments (log_file csv_out : string) : M unit :=
  c ← read_file (DataDir, csv_out);
  let lines := filter (λ line, negb (startswith line "#")) (readlines c) in
  open_w (DataDir, csv_out);;
  write (DataDir, csv_out) (String.concat "" lines);;
  info log_file
    "Removed the commented rows from the csv file that started with #".

Definition main (E : env) : M unit :=
  let log_file := log_name (timestamp E) in
  info log_file "Script started";;
  info log_file ("Date requested: " +:+ date_str E);;
  info log_file ("Log file: " +:+ log_file);;
  let tmp_gz := out_gz E +:+ ".part" in
  info log_file "Target URL";;
  e ← file_exists (DataDir, out_gz E);
  (if e then
     info log_file ("Already downloaded: " +:+ out_gz E);;
     sys_exit 0
   else skip);;
  (* Download file *)
  r ← try_catch (download E log_file);
  match r with
  | inl _ =>
      e ← file_exists (DataDir, tmp_gz);
      (if e then os_remove (DataDir, tmp_gz) else skip);;
      log log_file "ERROR" "ERROR: Download failed";;
      sys_exit 2
  | inr _ => skip
  end;;
  (* Wait and unzip to .csv *)
  info log_file "Waiting 3s before extracting";;
  sleep 3;;
  let csv_out := "epss_scores-" +:+ date_str E +:+ ".csv" in
  r ← try_catch (extract E log_file csv_out);
  match r with
  | inl _ => log log_file "ERROR" "ERROR: Extraction failed";; sys_exit 4
  | inr _ => skip
  end;;
  (* Remove commented rows *)
  sleep 1;;
  r ← try_catch (strip_comments log_file csv_out);
  match r with
  | inl _ =>
      log log_file "ERROR" "ERROR: Failed to remove commented rows";;
      sys_exit 5
  | inr _ => skip
  end;;
  (* Move to canonical name *)
  e ← file_exists (DataDir, canon);
  (if e then
     r ← try_catch (os_remove (DataDir, canon);;
                    info log_file "Removed old epss_scores.csv");
     match r with
     | inl _ =>
         log log_file "WARNING" "WARNING: Failed to remove old epss_scores.csv"
     | inr _ => skip
     end
   else skip);;
  r ← try_catch (shutil_move (DataDir, csv_out) (DataDir, canon);;
                 info log_file ("Created " +:+ canon));
  match r with
  | inl _ =>
      log log_file "ERROR" ("ERROR: Failed to create " +:+ canon);;
      sys_exit 6
  | inr _ => skip
  end;;
  (* Compress the canonical CSV *)
  compress canon canon_tar_gz;;
  info log_file ("Compressed CSV to: " +:+ canon_tar_gz);;
  remove_uncompressed log_file canon;;
  (* Remove all .csv.gz files *)
  entries ← listdir DataDir;
  for_each entries (λ fname,
    if endswith fname ".csv.gz" then
      r ← try_catch (os_remove (DataDir, fname);;
                     info log_file ("Removed gzip file: " +:+ fname));
      match r with
      | inl _ =>
          log log_file "WARNING"
            ("WARNING: Failed to remove gzip file " +:+ fname)
      | inr _ => skip
      end
    else skip);;
  (* Keep the latest 3 logs *)
  prune_logs "epss_download_" 3
    (λ old, info log_file ("Removed old log file: " +:+ old))
    (λ old, log log_file "WARNING"
              ("WARNING: Failed to remove old log file " +:+ old));;
  info log_file "Script finished successfully".

End EPSS.

(** ** The mirrored pipeline:
       [cisa_vulnrichment/cisa_vulnrichment_download.py] *)

Module Vuln.
Import Py OS Retention Publish.
Local Open Scope run_scope.

(** The working copy as the traversal reads it.  A path is the list of names
    below the repository root.  [scandir] gives the entries of a directory
    in the order the operating system reports them, which no rule fixes;
    [record_of] is [parse_cve_json] followed by the CSV writer's encoding of
    the eighteen fields, [None] when the parse reports an error. *)
Record repo : Type := {
  scandir : list string → list string;
  is_dir : list string → bool;
  record_of : list string → option string
}.

Record env : Type := {
  repo_url : string;
  branch : string;
  timestamp : string;
  git_installed : bool;             (* [shutil.which('git')] is not [None] *)
  github_status : outcome Z;        (* [requests.head('https://github.com')] *)
  has_clone : bool;                 (* [repo_dir/.git] is a directory *)
  git_ok : list string → bool;      (* the command exits with status 0 *)
  working_copy : repo               (* the working copy after the sync *)
}.

Definition log_name (ts : string) : string :=
  "vulnrichment_git_download_" +:+ ts +:+ ".log".

Definition repo_dir : string := "vulnrichment_repo".
Definition canon_csv : string := "cisa_vulnrichment.csv".
Definition canon_tar_gz : string := "cisa_vulnrichment.csv.tar.gz".

Definition header : string :=
  "cve_id,cisa_cvss_base_score,cisa_cvss_base_severity," +:+
  "cisa_cvss_vector_string,cisa_cvss_version,cwe_id,cwe_description," +:+
  "ssvc_exploitation,ssvc_automatable,ssvc_impact,kev_entry,kev_date," +:+
  "cna_cvss_base_score,cna_cvss_base_severity,cna_cvss_vector_string," +:+
  "cna_cvss_version,cisa_adp,vulnrichment" +:+ CRLF.

(** [log(..., print_also=True)]. *)
Definition announce (log_file level msg : string) : M unit :=
  log log_file level msg;;
  emit (EvPrint (level +:+ " " +:+ msg)).

(** [subprocess.run(cmd, check=True, capture_output=True)]. *)
Definition run_git (E : env) (cmd : list string) : M unit :=
  emit (EvRun cmd);;
  if git_ok E cmd then skip else raise CalledProcessError.

Definition sync_or_clone_repo (E : env) (log_file : string) : M unit :=
  if has_clone E then
    announce log_file "INFO" "Local repository exists - syncing with origin";;
    r ← try_catch (
          run_git E ["git"; "-C"; repo_dir; "fetch"; "origin"; branch E];;
          run_git E ["git"; "-C"; repo_dir; "reset"; "--hard";
                     "origin/" +:+ branch E];;
          run_git E ["git"; "-C"; repo_dir; "clean"; "-fd"]);
    match r with
    | inl e => announce log_file "ERROR" "ERROR: git sync failed";; raise e
    | inr _ => skip
    end
  else
    announce log_file "INFO"
      "Local repository not found - performing initial clone";;
    r ← try_catch (
          run_git E ["git"; "clone"; "--depth"; "1"; "--branch"; branch E;
                     repo_url E; repo_dir]);
    match r with
    | inl e => announce log_file "ERROR" "ERROR: git clone failed";; raise e
    | inr _ => skip
    end.

(** [subdir.glob('CVE-*.json')] on a name. *)
Definition is_cve_json (name : string) : bool :=
  startswith name "CVE-" && endswith name ".json".

(** The body of the innermost loop, lines 232-264, on the two counters. *)
Definition emit_record (R : repo) (output_csv log_file : string)
    (json_file : list string) (counts : nat * nat) : M (nat * nat) :=
  r ← try_catch (
        match record_of R json_file with
        | None =>
            log log_file "ERROR" "ERROR: Failed to parse";;
            ret (counts.1, S counts.2)
        | Some row =>
            write (DataDir, output_csv) row;;
            (if Nat.eqb (S counts.1 mod 100) 0
             then info log_file "Processed files..." else skip);;
            ret (S counts.1, counts.2)
        end);
  match r with
  | inl _ =>
      log log_file "ERROR" "ERROR: Error processing";;
      ret (counts.1, S counts.2)
  | inr counts' => ret counts'
  end.

(** [for x in xs: acc = body x acc]. *)
Fixpoint fold_m {A B} (xs : list A) (body : A → B → M B) (acc : B) : M B :=
  match xs with
  | [] => ret acc
  | x :: xs' => acc' ← body x acc; fold_m xs' body acc'
  end.

(** Lines 219-265. *)
Definition csv_from_vulnrichment (R : repo) (output_csv log_file : string)
  : M unit :=
  open_w (DataDir, output_csv);;
  write (DataDir, output_csv) header;;
  _ ← fold_m (sorted (scandir R [])) (λ year_dir counts,
        if is_dir R [year_dir] then
          fold_m (sorted (scandir R [year_dir])) (λ subdir counts,
            if is_dir R [year_dir; subdir] then
              let json_files :=
                sorted (filter (λ f, is_cve_json f)
                          (scandir R [year_dir; subdir])) in
              fold_m json_files (λ json_file counts,
                emit_record R output_csv log_file
                  [year_dir; subdir; json_file] counts) counts
            else ret counts) counts
        else ret counts) (0%nat, 0%nat);
  info log_file "CSV generation complete.".

Definition main (E : env) : M unit :=
  let ts := timestamp E in
  let log_file := log_name ts in
  let output_csv := "cisa_vulnrichment_" +:+ ts +:+ ".csv" in
  announce log_file "INFO" "=== CISA VULNRICHMENT GIT SYNC STARTED ===";;
  info log_file ("Repository: " +:+ repo_url E);;
  info log_file ("Branch: " +:+ branch E);;
  info log_file ("Local path: " +:+ repo_dir);;
  info log_file ("Log file: " +:+ log_file);;
  (if git_installed E then skip else raise RuntimeError);;
  emit (EvHead GitHub);;
  (if match github_status E with Ret 200 => true | _ => false end
   then skip
   else
     announce log_file "ERROR" "ERROR: Cannot connect to github.com";;
     sys_exit 1);;
  r ← try_catch (sync_or_clone_repo E log_file);
  match r with
  | inl _ => sys_exit 1
  | inr _ => skip
  end;;
  info log_file "Total CVE JSON files";;
  csv_from_vulnrichment (working_copy E) output_csv log_file;;
  (* Move to canonical name *)
  canonical_swap output_csv canon_csv;;
  announce log_file "INFO" ("Canonical CSV updated: " +:+ canon_csv);;
  (* Compress the canonical CSV *)
  compress canon_csv canon_tar_gz;;
  announce log_file "INFO" ("Compressed CSV to: " +:+ canon_tar_gz);;
  remove_uncompressed log_file canon_csv;;
  (* Clean up old timestamped CSV files *)
  entries ← listdir DataDir;
  for_each entries (λ fname,
    if startswith fname "cisa_vulnrichment_" && endswith fname ".csv"
    then remove_quietly fname
    else skip);;
  (* Keep the latest 5 logs *)
  prune_logs "vulnrichment_git_download_" 5 silent silent;;
  announce log_file "INFO" "=== SCRIPT COMPLETED SUCCESSFULLY ===";;
  emit (EvPrint "All done! Repository synced and CSV updated and compressed.").

End Vuln.

(** ** Vocabulary for reasoning about runs *)

Module Logic.
Import Py OS.

(** The state after one more step. *)
Definition step (st : state) (e : event) : state :=
  {| now := apply_event (now st) e;
     past := (past st ++ [(e, apply_event (now st) e)])%list |}.

(** [st'] is [st] continued by the steps [evs]. *)
Definition extends (st st' : state) (evs : list event) : Prop :=
  past st' = (past st ++ snapshots (now st) evs)%list ∧
  now st' = replay (now st) evs.

(** Every step the computation takes satisfies [φ], from any state and
    under any faults. *)
Definition emits {A} (φ : event → Prop) (m : M A) : Prop :=
  ∀ O st, ∃ evs, extends st (m O st).2 evs ∧ Forall φ evs.

(** [st] is reached from [st0] by steps that satisfy [φ]. *)
Definition reach (φ : event → Prop) (st0 st : state) : Prop :=
  ∃ evs, extends st0 st evs ∧ Forall φ evs.

(** The computation, run from [st], ends in a result and state that
    satisfy [Q]. *)
Definition wp {A} (O : oracle) (m : M A) (Q : result A → state → Prop)
    (st : state) : Prop :=
  Q (m O st).1 (m O st).2.

(** The result is not a value: the computation raised or exited. *)
Definition aborted {A} (r : result A) : Prop :=
  match r with
  | Val _ => False
  | _ => True
  end.

(** The same abnormal result at another type. *)
Definition recast {A B} (r : result A) : result B :=
  match r with
  | Val _ => Exc RuntimeError
  | Exc e => Exc e
  | SysExit c => SysExit c
  end.

Definition initial (s : fs) : state := {| now := s; past := [] |}.

End Logic.

(** ** Vocabulary of the statements *)

Module Spec.
Import Py SafeGet OS Logic Retention.

(** An index that [safe_get]'s range test was written for. *)
Definition index_ok (k : key) : Prop :=
  match k with
  | KInt i => 0 <= i
  | KStr _ => True
  end.

(** The step does not find what the key names: the key is absent from the
    dictionary, the list is too short, or the value is no container the key
    applies to. *)
Definition misses (v : value) (k : key) : Prop :=
  match v, k with
  | VDict m, KStr s => assoc s m = None
  | VDict _, KInt _ => True
  | VList l, KInt i => Z.of_nat (length l) <= i
  | VList _, KStr _ => True
  | _, _ => True
  end.

(** The record of a run from the result and state of [main]. *)
Definition outcome_of (r : result unit) (st : state) : run :=
  {| end_of := match r with
               | Val _ => Completed
               | Exc e => Crashed e
               | SysExit c => Exited c
               end;
     final := now st;
     history := past st |}.

Definition is_request (e : event) : bool :=
  match e with
  | EvGet _ | EvHead _ => true
  | _ => false
  end.

Definition is_sleep (e : event) : bool :=
  match e with
  | EvSleep _ => true
  | _ => false
  end.

(** The step [e] may change the file at [p]. *)
Definition touches (e : event) (p : path) : Prop :=
  match e with
  | EvLog f _ _ => p = (LogDir, f)
  | EvTruncate q | EvAppend q _ | EvRemove q => p = q
  | EvRename src dst => p = src ∨ p = dst
  | EvMkdtemp n | EvRmtree n => p.1 = TmpDir n
  | EvPrint _ | EvGet _ | EvHead _ | EvSleep _ | EvRun _ => False
  end.

(** The directory of [p] is there. *)
Definition dir_ok (s : fs) (d : dir) : Prop :=
  match d with
  | TmpDir n => is_Some (tmp_dirs s !! n)
  | _ => True
  end.

(** The file at [p] holds [c]. *)
Definition holds (p : path) (c : string) (st : state) : Prop :=
  lookup_file (now st) p = Some c.

(** The machine accepts every write to the file at [p]. *)
Definition writable (O : oracle) (p : path) : Prop :=
  faulty O (EvTruncate p) = false ∧ ∀ c, faulty O (EvAppend p c) = false.

(** Two views of one working copy: the same directories, the same files with
    the same records, each directory scanned in some order of its own. *)
Definition same_dataset (R1 R2 : Vuln.repo) : Prop :=
  (∀ p, Vuln.scandir R1 p ≡ₚ Vuln.scandir R2 p) ∧
  (∀ p, Vuln.is_dir R1 p = Vuln.is_dir R2 p) ∧
  (∀ p, Vuln.record_of R1 p = Vuln.record_of R2 p).

(** The files the three nested loops of [csv_from_vulnrichment] visit, in
    the order they visit them. *)
Definition files_of_subdir (R : Vuln.repo) (year_dir subdir : string)
  : list (list string) :=
  (λ f, [year_dir; subdir; f]) <$>
    sorted (filter (λ f, Vuln.is_cve_json f)
              (Vuln.scandir R [year_dir; subdir])).

Definition files_of_year (R : Vuln.repo) (year_dir : string)
  : list (list string) :=
  mjoin ((λ subdir,
            if Vuln.is_dir R [year_dir; subdir]
            then files_of_subdir R year_dir subdir else [])
         <$> sorted (Vuln.scandir R [year_dir])).

Definition json_files (R : Vuln.repo) : list (list string) :=
  mjoin ((λ year_dir,
            if Vuln.is_dir R [year_dir]
            then files_of_year R year_dir else [])
         <$> sorted (Vuln.scandir R [])).

(** The text of the rows of the files [fs], one after the other. *)
Definition rows (R : Vuln.repo) (fs : list (list string)) : string :=
  foldr String.append "" (omap (Vuln.record_of R) fs).

(** The steps the page loop of the CPE script can take for the pages
    [pages]: lines of the run's log, requests for these pages, waits, and
    writes below its own temporary directory, which it removes when it gives
    up. *)
Definition cpe_loop_event (log_file t : string) (pages : Z → Prop)
    (e : event) : Prop :=
  match e with
  | EvLog f _ _ => f = log_file
  | EvGet u => ∃ q, pages q ∧ u = CPE.page_url q
  | EvSleep _ => True
  | EvTruncate p | EvAppend p _ => p.1 = TmpDir t
  | EvRmtree n => n = t
  | _ => False
  end.

(** The checkpoint and the per-page files of the temporary directory [t]. *)
Definition ckpt_path (t : string) : path := (TmpDir t, CPE.checkpoint_file).
Definition page_path (t : string) (k : Z) : path := (TmpDir t, CPE.page_file k).

(** [c] is the payload of page [k]: the document the service delivered for
    it at some attempt, as [json.dump] writes it. *)
Definition payload_of (E : CPE.env) (k : Z) (c : string) : Prop :=
  ∃ a data, CPE.page_response E k a = Ret data ∧ c = CPE.json_dumps E data.

(** Write-ahead ordering in the files [s]: a checkpoint that reads [k+1]
    finds the whole payload of page [k] in that page's file. *)
Definition write_ahead (E : CPE.env) (t : string) (s : fs) : Prop :=
  ∀ k, lookup_file s (ckpt_path t) = Some (pretty (k + 1)) →
       ∃ c, lookup_file s (page_path t k) = Some c ∧ payload_of E k c.

(** The checkpoint, if it records a page, records one before [p]. *)
Definition ckpt_below (t : string) (p : Z) (s : fs) : Prop :=
  ∀ k, lookup_file s (ckpt_path t) = Some (pretty (k + 1)) → k < p.

(** Write-ahead ordering held at every step so far and holds now. *)
Definition always_write_ahead (E : CPE.env) (t : string) (st : state) : Prop :=
  write_ahead E t (now st) ∧ Forall (λ x, write_ahead E t x.2) (past st).

(** The step changes nothing below the temporary directory [t]. *)
Definition foreign (t : string) (e : event) : Prop :=
  ∀ f, ¬ touches e (TmpDir t, f).

(** The file of page [p] holds the payload of the page. *)
Definition page_done (E : CPE.env) (t : string) (p : Z) (st : state) : Prop :=
  ∃ c, holds (page_path t p) c st ∧ payload_of E p c.

(** Steps that change no file outside the log directory. *)
Definition quiet (e : event) : Prop :=
  match e with
  | EvLog _ _ _ | EvGet _ | EvHead _ | EvSleep _ | EvPrint _ | EvRun _ => True
  | _ => False
  end.

(** The reply lets the attempt through: a dictionary whose ['products'] is
    truthy and something [list.extend] accepts. *)
Definition good_reply (o : outcome value) : bool :=
  match o with
  | Ret (VDict m) =>
      match assoc "products" m with
      | Some (VList l) => negb (Nat.eqb (length l) 0)
      | Some (VDict d) => negb (Nat.eqb (length d) 0)
      | Some (VStr s) => negb (String.eqb s "")
      | _ => false
      end
  | _ => false
  end.

(** [total_pages] as [main] computes it from the probe, when it is a number
    of pages that [range] accepts. *)
Definition planned_pages (E : CPE.env) : option Z :=
  match CPE.probe E with
  | Ret meta =>
      match py_get meta "totalResults" (VInt 0) with
      | Ret total_results =>
          if truthy total_results then
            match CPE.total_pages_of E total_results with
            | Ret total_pages =>
                if String.eqb (CPE.mode E) "test" &&
                   CPE.more_than_five total_pages
                then Some 5
                else match total_pages with
                     | VInt n => Some n
                     | _ => None
                     end
            | Raise _ => None
            end
          else None
      | Raise _ => None
      end
  | Raise _ => None
  end.

(** Requests and waits: what the remote service and the clock see. *)
Definition is_traffic (e : event) : bool := is_request e || is_sleep e.

Definition traffic (st : state) : list event :=
  filter is_traffic (past st).*1.

(** The requests and waits of the attempts [attempts] on page [p] when none
    of them succeeds. *)
Fixpoint schedule (p : Z) (attempts : list Z) : list event :=
  match attempts with
  | [] => []
  | a :: rest =>
      EvGet (CPE.page_url p) ::
      (if a <? CPE.MAX_RETRIES - 1
       then EvSleep (5 * (a + 1)) :: schedule p rest
       else [])
  end.

(** The temporary directory [t] is there. *)
Definition dir_exists (t : string) (st : state) : Prop :=
  is_Some (tmp_dirs (now st) !! t).

(** The machine refuses no step. *)
Definition sound (O : oracle) : Prop := ∀ e, faulty O e = false.

(** *** Sample data for the instances *)

(** A machine without faults, and the empty directories. *)
Definition sound_machine : oracle :=
  {| faulty := λ _, false; archive := λ name c, "tgz:" +:+ name +:+ ":" +:+ c |}.

Definition empty_fs : fs := {| data_dir := ∅; log_dir := ∅; tmp_dirs := ∅ |}.

(** Decimal digits to a number, for the sample checkpoint parser. *)
Fixpoint digits (s : string) (acc : Z) : option Z :=
  match s with
  | EmptyString => Some acc
  | String c s' =>
      match Ascii.is_nat c with
      | Some d => digits s' (10 * acc + Z.of_nat d)
      | None => None
      end
  end.

Definition parse_digits (s : string) : option Z :=
  if String.eqb s "" then None else digits s 0.

(** A catalogue of 15000 entries, hence two pages; every request is
    answered, except those of the pages listed in [down].  [mkdtemp] draws
    the name [tmpa] first and [tmpb] next. *)
Definition sample_page (page : Z) : value :=
  VDict [("products", VList [VDict [("cpe", VStr ("cpe-" +:+ pretty page))]])].

Definition sample_cpe (ts : string) (down : list Z) : CPE.env :=
  {| CPE.mode := "";
     CPE.timestamp := ts;
     CPE.probe := Ret (VDict [("totalResults", VInt 15000);
                              ("format", VStr "NVD_CPE");
                              ("version", VStr "2.0")]);
     CPE.page_response := λ page attempt,
       if bool_decide (page ∈ down) then Raise RequestException
       else Ret (sample_page page);
     CPE.tmp_candidates := ["tmpa"; "tmpb"];
     CPE.py_int := parse_digits;
     CPE.json_dumps := λ v,
       match v with
       | VDict m => "{" +:+ String.concat "," m.*1 +:+ "}"
       | _ => "?"
       end;
     CPE.float_pages := λ q, q;
     CPE.csv_row := λ _, Ret ("false,x,y,z,w,t,r" +:+ CRLF) |}.

(** The files a run leaves when the process is killed right after the step
    [e]. *)
Definition killed_after (e : event) (r : run) : option fs :=
  (λ x, x.2.2) <$> list_find (λ x, x.1 = e) (history r).

(** A request for a page of the catalogue (the probe asks for one entry). *)
Definition is_page_request (e : event) : bool :=
  match e with
  | EvGet (NvdCpes rpp _) => rpp =? CPE.RESULTS_PER_PAGE
  | _ => false
  end.

(** A working copy with two year directories, and the same working copy
    with every directory scanned backwards. *)
Definition sample_scan (p : list string) : list string :=
  match p with
  | [] => ["2024"; "2023"; "README.md"]
  | [_] => ["1xxx"; "0xxx"]
  | [_; _] => ["CVE-2"; "CVE-3.json"; "CVE-1.json"; "notes.txt"]
  | _ => []
  end.

Definition sample_repo : Vuln.repo :=
  {| Vuln.scandir := sample_scan;
     Vuln.is_dir := λ p, negb (bool_decide (p = ["README.md"]));
     Vuln.record_of := λ p,
       if bool_decide (p = ["2023"; "0xxx"; "CVE-3.json"]) then None
       else Some (String.concat "/" p +:+ CRLF) |}.

Definition sample_repo_reversed : Vuln.repo :=
  {| Vuln.scandir := λ p, reverse (sample_scan p);
     Vuln.is_dir := Vuln.is_dir sample_repo;
     Vuln.record_of := Vuln.record_of sample_repo |}.

(** *** Log retention *)

(** The step leaves the log directory with the files it has, given that the
    run's own log [l] is among them. *)
Definition keeps_logs (l : string) (e : event) : Prop :=
  match e with
  | EvLog f _ _ => f = l
  | EvTruncate p | EvAppend p _ | EvRemove p => p.1 ≠ LogDir
  | EvRename src dst => src.1 ≠ LogDir ∧ dst.1 ≠ LogDir
  | _ => True
  end.

(** The names in the log directory. *)
Definition log_names (st : state) : gset string := dom (log_dir (now st)).

(** A call-back of the pruning loop: it returns, and at most writes to the
    run's log. *)
Definition logs_only (l : string) (m : M unit) : Prop :=
  ∀ O st, (m O st).1 = Val tt ∧ reach (keeps_logs l) st (m O st).2.

(** What the pruning block leaves of the log directory [before]: all but
    the names past the first [keep] in the falling list of the pipeline's
    logs. *)
Definition retained (prefix : string) (keep : nat)
    (before after : gset string) : Prop :=
  ∃ L, Sorted (flip String.le) L ∧ NoDup L ∧
       (∀ n, n ∈ L ↔ n ∈ before ∧ is_log prefix n = true) ∧
       after = before ∖ list_to_set (drop keep L).

(** The run's log is the latest of the pipeline's logs in [names]. *)
Definition latest (prefix l : string) (names : gset string) : Prop :=
  ∀ n, n ∈ names → is_log prefix n = true → String.le n l.

(** The three pipelines, their entry points and their retention settings. *)
Inductive pipeline : Type := Cpes | Epss | Vulnrichment.

Definition env_of (p : pipeline) : Type :=
  match p with
  | Cpes => CPE.env
  | Epss => EPSS.env
  | Vulnrichment => Vuln.env
  end.

Definition main_of (p : pipeline) : env_of p → M unit :=
  match p with
  | Cpes => CPE.main
  | Epss => EPSS.main
  | Vulnrichment => Vuln.main
  end.

Definition log_prefix (p : pipeline) : string :=
  match p with
  | Cpes => "cpes_download_"
  | Epss => "epss_download_"
  | Vulnrichment => "vulnrichment_git_download_"
  end.

Definition keep (p : pipeline) : nat :=
  match p with
  | Cpes | Epss => 3
  | Vulnrichment => 5
  end.

Definition log_name_of (p : pipeline) : env_of p → string :=
  match p with
  | Cpes => λ E, CPE.log_name (CPE.timestamp E)
  | Epss => λ E, EPSS.log_name (EPSS.timestamp E)
  | Vulnrichment => λ E, Vuln.log_name (Vuln.timestamp E)
  end.

(** The log files of the pipeline in the log directory. *)
Definition logs_of (p : pipeline) (s : fs) : gset string :=
  filter (λ n, is_log (log_prefix p) n = true) (dom (log_dir s)).

(** A run is given its environment and a machine; runs follow one another
    on the files the one before left. *)
Definition job (p : pipeline) : Type := (env_of p * oracle)%type.

Definition run_job {p : pipeline} (j : job p) (s : fs) : run :=
  execute (main_of p j.1) j.2 s.

Fixpoint after_runs {p : pipeline} (jobs : list (job p)) (s : fs) : fs :=
  match jobs with
  | [] => s
  | j :: rest => after_runs rest (final (run_job j s))
  end.

Fixpoint all_complete {p : pipeline} (jobs : list (job p)) (s : fs) : Prop :=
  match jobs with
  | [] => True
  | j :: rest =>
      end_of (run_job j s) = Completed ∧ all_complete rest (final (run_job j s))
  end.

(** No removal in the log directory is refused. *)
Definition removes_logs (O : oracle) : Prop :=
  ∀ n, faulty O (EvRemove (LogDir, n)) = false.

(** Names in the order of time: each is later than the one before. *)
Definition earlier (a b : string) : Prop := String.le a b ∧ a ≠ b.

Definition increasing (names : list string) : Prop := Sorted earlier names.

Definition log_names_of {p : pipeline} (jobs : list (job p)) : list string :=
  (λ j, log_name_of p j.1) <$> jobs.

(** The [k] latest of names given in the order of time. *)
Definition latest_of (k : nat) (names : list string) : list string :=
  take k (reverse names).

(** An EPSS run stamped [ts] whose request is answered with [status]. *)
Definition sample_epss (ts : string) (status : Z) : EPSS.env :=
  {| EPSS.date_arg := Some "2024-05-01";
     EPSS.yesterday := "2024-05-02";
     EPSS.timestamp := ts;
     EPSS.reply := Ret {| EPSS.status_code := status;
                          EPSS.body := ["gz"]; EPSS.broken := false |};
     EPSS.gunzip := λ _, (["#model" +:+ LF; "cve,epss" +:+ LF], true) |}.

(** Four EPSS runs on four days; the service answers the last with
    [last]. *)
Definition sample_jobs (last : Z) : list (job Epss) :=
  [ (sample_epss "2024-05-03_010203" 200, sound_machine);
    (sample_epss "2024-05-04_010203" 200, sound_machine);
    (sample_epss "2024-05-05_010203" 200, sound_machine);
    (sample_epss "2024-05-06_010203" last, sound_machine) ].

(** *** Publication *)

(** The canonical table of a pipeline, its archive, and the table a run
    writes under a name of its own before it takes the canonical name. *)
Definition canon_of (p : pipeline) : string :=
  match p with
  | Cpes => "cpes.csv"
  | Epss => EPSS.canon
  | Vulnrichment => Vuln.canon_csv
  end.

Definition archive_of (p : pipeline) : string :=
  match p with
  | Cpes => "cpes.csv.tar.gz"
  | Epss => EPSS.canon_tar_gz
  | Vulnrichment => Vuln.canon_tar_gz
  end.

Definition fresh_of (p : pipeline) : env_of p → string :=
  match p with
  | Cpes => λ E, "cpes_" +:+ CPE.timestamp E +:+ ".csv"
  | Epss => λ E, "epss_scores-" +:+ EPSS.date_str E +:+ ".csv"
  | Vulnrichment => λ E, "cisa_vulnrichment_" +:+ Vuln.timestamp E +:+ ".csv"
  end.

(** The step that gives the new table the canonical name; the compression
    block follows it. *)
Definition published (p : pipeline) (E : env_of p) : event :=
  EvRename (DataDir, fresh_of p E) (DataDir, canon_of p).

(** The machine refuses the compression: the opening of the archive, or
    every write to it. *)
Definition compression_refused (O : oracle) (p : pipeline) : Prop :=
  faulty O (EvTruncate (DataDir, archive_of p)) = true ∨
  ∀ c, faulty O (EvAppend (DataDir, archive_of p) c) = true.

(** The steps of a run before the canonical name is given: none of them
    renames to [canon], none of them writes, removes or renames [tar]. *)
Definition before_publish (canon tar : string) (e : event) : Prop :=
  match e with
  | EvTruncate q | EvAppend q _ | EvRemove q => q ≠ (DataDir, tar)
  | EvRename src dst =>
      dst ≠ (DataDir, canon) ∧ src ≠ (DataDir, tar) ∧ dst ≠ (DataDir, tar)
  | _ => True
  end.

(** How a run ends whose compression is refused: with [OSError], the
    canonical table in place, and the archive as the run found it if the
    opening was refused, empty if a write was. *)
Definition crashed_in_compression (O : oracle) (p : pipeline) (s : fs)
    (r : result unit) (s' : fs) : Prop :=
  r = Exc OSError ∧
  is_Some (lookup_file s' (DataDir, canon_of p)) ∧
  lookup_file s' (DataDir, archive_of p) =
    if faulty O (EvTruncate (DataDir, archive_of p))
    then lookup_file s (DataDir, archive_of p)
    else Some "".

(** A machine whose disk takes no write to the EPSS archive. *)
Definition archive_write_refused : oracle :=
  {| faulty := λ e,
       match e with
       | EvAppend (DataDir, n) _ => String.eqb n EPSS.canon_tar_gz
       | _ => false
       end;
     archive := archive sound_machine |}.

(** A machine that does not let the EPSS archive be opened for writing. *)
Definition archive_open_refused : oracle :=
  {| faulty := λ e,
       match e with
       | EvTruncate (DataDir, n) => String.eqb n EPSS.canon_tar_gz
       | _ => false
       end;
     archive := archive sound_machine |}.

(** A data directory with the archive an earlier run published. *)
Definition published_fs : fs :=
  {| data_dir := {[ EPSS.canon_tar_gz := "OLD" ]};
     log_dir := ∅; tmp_dirs := ∅ |}.

End Spec.

(** ** The record of one CVE file: the helpers of [csv_from_vulnrichment] *)

Module CveRecord.
Import Py SafeGet OS.

(** What the code takes from the libraries: [str] on a value that is not a
    string, the text of an exception. *)
Record lib : Type := {
  repr : value → string;
  exn_text : exn → string
}.

(** [str(v)]. *)
Definition py_str (L : lib) (v : value) : string :=
  match v with
  | VStr s => s
  | VNone => "None"
  | VBool b => if b then "True" else "False"
  | VInt z => pretty z
  | _ => repr L v
  end.

(** A dictionary the code builds and updates: [d[k] = v] replaces the value
    of a key that is there and appends a new key; [d.get(k, default)]. *)
Definition dict : Type := list (string * value).

Fixpoint dict_set (d : dict) (k : string) (v : value) : dict :=
  match d with
  | [] => [(k, v)]
  | (k', w) :: d' =>
      if String.eqb k k' then (k', v) :: d' else (k', w) :: dict_set d' k v
  end.

Definition get (d : dict) (k : string) (default : value) : value :=
  dict_get d (KStr k) default.

(** Evaluation that may raise, in sequence. *)
Definition and_then {A B} (o : outcome A) (k : A → outcome B) : outcome B :=
  match o with
  | Ret a => k a
  | Raise e => Raise e
  end.

(** [c in key] for a character. *)
Fixpoint has_char (c : Ascii.ascii) (s : string) : bool :=
  match s with
  | EmptyString => false
  | String c' s' => Ascii.eqb c c' || has_char c s'
  end.

Definition underscore : Ascii.ascii := Ascii.ascii_of_nat 95.

(** [key.startswith('cvssV') and '_' in key]. *)
Definition is_cvss_key (key : string) : bool :=
  startswith key "cvssV" && has_char underscore key.

(** [for key in metric.keys(): if ...: return key, metric[key]].  The keys of
    a dictionary are distinct, so the loop over the keys with the subscript
    is the loop over the items. *)
Fixpoint first_cvss (items : dict) : option (string * value) :=
  match items with
  | [] => None
  | (key, v) :: rest =>
      if is_cvss_key key then Some (key, v) else first_cvss rest
  end.

Fixpoint scan_cvss (metrics : list value) : value * value :=
  match metrics with
  | [] => (VNone, VNone)
  | VDict metric :: rest =>
      match first_cvss metric with
      | Some (key, v) => (VStr key, v)
      | None => scan_cvss rest
      end
  | _ :: rest => scan_cvss rest
  end.

(** Lines 76-85. *)
Definition find_cvss_data (metrics_list : value) : value * value :=
  if negb (truthy metrics_list) || negb (isinstance_list metrics_list)
  then (VNone, VNone)
  else match metrics_list with
       | VList l => scan_cvss l
       | _ => (VNone, VNone)
       end.

(** The body of [for key, value in option.items()], lines 103-108. *)
Definition ssvc_item (ssvc_data : dict) (item : string * value) : dict :=
  let '(key, v) := item in
  if String.eqb key "Exploitation" then dict_set ssvc_data "exploitation" v
  else if String.eqb key "Automatable" then dict_set ssvc_data "automatable" v
  else if String.eqb key "Technical Impact" then dict_set ssvc_data "impact" v
  else ssvc_data.

Definition ssvc_option (ssvc_data : dict) (option : value) : dict :=
  match option with
  | VDict items => foldl ssvc_item ssvc_data items
  | _ => ssvc_data
  end.

(** The body of [for metric in metrics_list], lines 92-113. *)
Definition ssvc_metric (ssvc_data : dict) (metric : value) : dict :=
  match metric with
  | VDict m =>
      match get m "other" (VDict []) with
      | VDict other =>
          match get other "content" (VDict []) with
          | VDict content =>
              let ssvc1 :=
                match get content "options" (VList []) with
                | VList options => foldl ssvc_option ssvc_data options
                | _ => ssvc_data
                end in
              let ssvc2 :=
                match assoc "id" content with
                | Some id => dict_set ssvc1 "cve_id" id
                | None => ssvc1
                end in
              if py_eq (get other "type" VNone) (VStr "kev")
              then dict_set (dict_set ssvc2 "kev_entry" (VStr "kev"))
                     "kev_date" (get content "dateAdded" (VStr ""))
              else ssvc2
          | _ => ssvc_data
          end
      | _ => ssvc_data
      end
  | _ => ssvc_data
  end.

(** Lines 87-114. *)
Definition find_ssvc_data (metrics_list : value) : dict :=
  if negb (truthy metrics_list) || negb (isinstance_list metrics_list)
  then []
  else match metrics_list with
       | VList l => foldl ssvc_metric [] l
       | _ => []
       end.

(** [for desc in descriptions], lines 124-129. *)
Fixpoint scan_descriptions (descriptions : list value)
  : option (value * value) :=
  match descriptions with
  | [] => None
  | VDict desc :: rest =>
      let cwe_id := get desc "cweId" (VStr "") in
      let cwe_desc := get desc "description" (VStr "") in
      if truthy cwe_id then Some (cwe_id, cwe_desc)
      else scan_descriptions rest
  | _ :: rest => scan_descriptions rest
  end.

Fixpoint scan_problem_types (problem_types : list value) : value * value :=
  match problem_types with
  | [] => (VStr "", VStr "")
  | VDict problem_type :: rest =>
      match get problem_type "descriptions" (VList []) with
      | VList descriptions =>
          match scan_descriptions descriptions with
          | Some found => found
          | None => scan_problem_types rest
          end
      | _ => scan_problem_types rest
      end
  | _ :: rest => scan_problem_types rest
  end.

(** Lines 116-130. *)
Definition find_cwe_data (problem_types : value) : value * value :=
  if negb (truthy problem_types) || negb (isinstance_list problem_types)
  then (VStr "", VStr "")
  else match problem_types with
       | VList l => scan_problem_types l
       | _ => (VStr "", VStr "")
       end.

(** The columns of the table, lines 199-218. *)
Definition header : list string :=
  [ "cve_id"; "cisa_cvss_base_score"; "cisa_cvss_base_severity";
    "cisa_cvss_vector_string"; "cisa_cvss_version"; "cwe_id";
    "cwe_description"; "ssvc_exploitation"; "ssvc_automatable";
    "ssvc_impact"; "kev_entry"; "kev_date"; "cna_cvss_base_score";
    "cna_cvss_base_severity"; "cna_cvss_vector_string"; "cna_cvss_version";
    "cisa_adp"; "vulnrichment" ].

(** The dictionary of lines 137-156. *)
Definition blank (cve_id : value) : dict :=
  [ ("cve_id", cve_id);
    ("cisa_cvss_base_score", VStr ""); ("cisa_cvss_base_severity", VStr "");
    ("cisa_cvss_vector_string", VStr ""); ("cisa_cvss_version", VStr "");
    ("cwe_id", VStr ""); ("cwe_description", VStr "");
    ("ssvc_exploitation", VStr ""); ("ssvc_automatable", VStr "");
    ("ssvc_impact", VStr ""); ("kev_entry", VStr ""); ("kev_date", VStr "");
    ("cna_cvss_base_score", VStr ""); ("cna_cvss_base_severity", VStr "");
    ("cna_cvss_vector_string", VStr ""); ("cna_cvss_version", VStr "");
    ("cisa_adp", VStr "CISA ADP"); ("vulnrichment", VStr "Vulnrichment") ].

(** The four assignments under [if cvss_data:], lines 166-169 and 186-189,
    on the columns that start with [who]. *)
Definition set_cvss (L : lib) (who : string) (result : dict)
    (cvss_data : value) : outcome dict :=
  and_then (safe_get cvss_data [KStr "baseScore"] (VStr "")) (λ score,
  and_then (safe_get cvss_data [KStr "baseSeverity"] (VStr "")) (λ severity,
  and_then (safe_get cvss_data [KStr "vectorString"] (VStr "")) (λ vector,
  and_then (safe_get cvss_data [KStr "version"] (VStr "")) (λ version,
  Ret (dict_set
        (dict_set
          (dict_set
            (dict_set result (who +:+ "_cvss_base_score")
               (VStr (py_str L score)))
            (who +:+ "_cvss_base_severity") severity)
          (who +:+ "_cvss_vector_string") vector)
        (who +:+ "_cvss_version") version))))).

(** The body of [for adp in adp_list], lines 161-180. *)
Definition adp_step (L : lib) (result : dict) (adp : value) : outcome dict :=
  match adp with
  | VDict a =>
      let metrics := get a "metrics" (VList []) in
      let '(cvss_key, cvss_data) := find_cvss_data metrics in
      and_then (if truthy cvss_data then set_cvss L "cisa" result cvss_data
                else Ret result) (λ result,
      let ssvc_data := find_ssvc_data metrics in
      let result :=
        dict_set result "ssvc_exploitation"
          (get ssvc_data "exploitation" (VStr "")) in
      let result :=
        dict_set result "ssvc_automatable"
          (get ssvc_data "automatable" (VStr "")) in
      let result :=
        dict_set result "ssvc_impact" (get ssvc_data "impact" (VStr "")) in
      let result :=
        dict_set result "kev_entry" (get ssvc_data "kev_entry" (VStr "")) in
      let result :=
        dict_set result "kev_date" (get ssvc_data "kev_date" (VStr "")) in
      let problem_types := get a "problemTypes" (VList []) in
      let '(cwe_id, cwe_desc) := find_cwe_data problem_types in
      Ret (if truthy cwe_id
           then dict_set (dict_set result "cwe_id" cwe_id)
                  "cwe_description" cwe_desc
           else result))
  | _ => Ret result
  end.

Fixpoint adp_loop (L : lib) (result : dict) (adp_list : list value)
  : outcome dict :=
  match adp_list with
  | [] => Ret result
  | adp :: rest => and_then (adp_step L result adp) (λ result,
                   adp_loop L result rest)
  end.

(** Lines 181-194. *)
Definition cna_step (L : lib) (result : dict) (cna : value) : outcome dict :=
  match cna with
  | VDict c =>
      let metrics := get c "metrics" (VList []) in
      let '(cvss_key, cvss_data) := find_cvss_data metrics in
      and_then (if truthy cvss_data then set_cvss L "cna" result cvss_data
                else Ret result) (λ result,
      Ret (if negb (truthy (get result "cwe_id" VNone)) then
             let problem_types := get c "problemTypes" (VList []) in
             let '(cwe_id, cwe_desc) := find_cwe_data problem_types in
             dict_set (dict_set result "cwe_id" cwe_id)
               "cwe_description" cwe_desc
           else result))
  | _ => Ret result
  end.

(** The [try] block of [parse_cve_json] after [json.load], lines 136-195. *)
Definition parse_document (L : lib) (data : value) : outcome dict :=
  and_then (safe_get data [KStr "cveMetadata"; KStr "cveId"] (VStr ""))
    (λ cve_id,
  let result := blank cve_id in
  and_then (safe_get data [KStr "containers"] (VDict [])) (λ containers,
  and_then (safe_get containers [KStr "adp"] (VList [])) (λ adp_list,
  and_then (match adp_list with
            | VList l => adp_loop L result l
            | _ => Ret result
            end) (λ result,
  and_then (safe_get containers [KStr "cna"] (VDict [])) (λ cna,
  cna_step L result cna))))).

(** [parse_cve_json] on what [open] and [json.load] gave for the file: an
    exception, theirs or one of the block, becomes the error dictionary. *)
Definition parse_cve_json (L : lib) (file_path : string)
    (loaded : outcome value) : dict :=
  match and_then loaded (parse_document L) with
  | Ret result => result
  | Raise e => [("error", VStr (exn_text L e)); ("file", VStr file_path)]
  end.

(** Lines 234-257 of the caller: the error test and the eighteen
    subscripts; [None] where a subscript finds no key. *)
Definition row_of (result : dict) : option (list value) :=
  mapM (λ column, assoc column result) header.

Definition is_error (result : dict) : bool :=
  bool_decide (is_Some (assoc "error" result)).

(** The record the table gets for a file: nothing for a file that gave the
    error dictionary or, in the caller, a missing column. *)
Definition record_of_file (L : lib) (encode : list value → string)
    (file_path : string) (loaded : outcome value) : option string :=
  let result := parse_cve_json L file_path loaded in
  if is_error result then None else encode <$> row_of result.


(** The descriptions [find_cwe_data] looks at in a problem type, and the
    test it puts to each. *)
Definition descriptions_of (problem_type : value) : list value :=
  match problem_type with
  | VDict p =>
      match get p "descriptions" (VList []) with
      | VList descriptions => descriptions
      | _ => []
      end
  | _ => []
  end.

Definition names_cwe (desc : value) : bool :=
  match desc with
  | VDict d => truthy (get d "cweId" (VStr ""))
  | _ => false
  end.

(** The CWE of an entry of [adp] or of the [cna] container. *)
Definition cwe_of (container : value) : value * value :=
  match container with
  | VDict c => find_cwe_data (get c "problemTypes" (VList []))
  | _ => (VStr "", VStr "")
  end.

(** The dictionary has the eighteen columns and no error mark. *)
Definition complete (result : dict) : Prop :=
  Forall (λ column, is_Some (assoc column result)) header ∧
  assoc "error" result = None.

(** The columns the loop over [adp] and the [cna] block assign. *)
Definition adp_columns : list string :=
  [ "cisa_cvss_base_score"; "cisa_cvss_base_severity";
    "cisa_cvss_vector_string"; "cisa_cvss_version";
    "ssvc_exploitation"; "ssvc_automatable"; "ssvc_impact";
    "kev_entry"; "kev_date"; "cwe_id"; "cwe_description" ].

Definition cna_columns : list string :=
  [ "cna_cvss_base_score"; "cna_cvss_base_severity";
    "cna_cvss_vector_string"; "cna_cvss_version";
    "cwe_id"; "cwe_description" ].

Definition cvss_columns (who : string) : list string :=
  [ who +:+ "_cvss_base_score"; who +:+ "_cvss_base_severity";
    who +:+ "_cvss_vector_string"; who +:+ "_cvss_version" ].

(** The containers of a document as [parse_cve_json] reads them, lines
    157-158 and 181. *)
Definition containers_of (data : value) : outcome value :=
  safe_get data [KStr "containers"] (VDict []).

Definition adp_of (data : value) : outcome value :=
  and_then (containers_of data) (λ containers,
  safe_get containers [KStr "adp"] (VList [])).

Definition cna_of (data : value) : outcome value :=
  and_then (containers_of data) (λ containers,
  safe_get containers [KStr "cna"] (VDict [])).

(** The SSVC and KEV columns an entry of [adp] gives. *)
Definition ssvc_of (adp : dict) (column : string) : value :=
  let ssvc_data := find_ssvc_data (get adp "metrics" (VList [])) in
  get ssvc_data column (VStr "").

(** The entry of [adp] names no CWE. *)
Definition without_cwe (adp : value) : Prop :=
  truthy (cwe_of adp).1 = false.

(** The KEV columns agree: the mark is ['kev'], or the mark and the date
    are both empty. *)
Definition kev_consistent (result : dict) : Prop :=
  assoc "kev_entry" result = Some (VStr "kev") ∨
  (assoc "kev_entry" result = Some (VStr "") ∧
   assoc "kev_date" result = Some (VStr "")).

(** The same of the dictionary [find_ssvc_data] builds, where an absent key
    stands for the empty string. *)
Definition kev_marked (ssvc_data : dict) : Prop :=
  assoc "kev_entry" ssvc_data = Some (VStr "kev") ∨
  (assoc "kev_entry" ssvc_data = None ∧ assoc "kev_date" ssvc_data = None).

(** [d'] is [d] after assignments to keys among [touched]. *)
Definition assigned (touched : list string) (d d' : dict) : Prop :=
  (∀ k, is_Some (assoc k d) → is_Some (assoc k d')) ∧
  (∀ k, k ∉ touched → assoc k d' = assoc k d).

(** *** Sample data for the instances *)

(** Libraries that print every other value and every exception alike. *)
Definition plain_lib : lib :=
  {| repr := λ _, "<value>"; exn_text := λ _, "<exception>" |}.

(** An entry of [adp] as CISA writes it: the SSVC decision points, a KEV
    mark, a CVSS score and a CWE. *)
Definition cisa_container : dict :=
  [ ("title", VStr "CISA ADP Vulnrichment");
    ("metrics",
     VList
       [ VDict
           [("other",
             VDict
               [ ("type", VStr "ssvc");
                 ("content",
                  VDict
                    [ ("id", VStr "CVE-2024-0001");
                      ("options",
                       VList
                         [ VDict [("Exploitation", VStr "active")];
                           VDict [("Automatable", VStr "yes")];
                           VDict [("Technical Impact", VStr "total")] ]) ]) ])];
         VDict
           [("other",
             VDict
               [ ("type", VStr "kev");
                 ("content", VDict [("dateAdded", VStr "2024-02-01")]) ])];
         VDict
           [("cvssV3_1",
             VDict
               [ ("version", VStr "3.1");
                 ("baseScore", VInt 9);
                 ("baseSeverity", VStr "CRITICAL");
                 ("vectorString", VStr "CVSS:3.1/AV:N") ])] ]);
    ("problemTypes",
     VList
       [ VDict
           [("descriptions",
             VList
               [ VDict
                   [ ("type", VStr "CWE");
                     ("cweId", VStr "CWE-89");
                     ("description", VStr "SQL Injection") ] ])] ]) ].

(** An entry of [adp] without metrics and problem types. *)
Definition program_container : dict :=
  [ ("title", VStr "CVE Program Container");
    ("references", VList []) ].

(** The [cna] container of the sample documents names another CWE. *)
Definition sample_cna : dict :=
  [ ("problemTypes",
     VList
       [ VDict
           [("descriptions",
             VList
               [ VDict
                   [ ("cweId", VStr "CWE-79");
                     ("description", VStr "Cross-site Scripting") ] ])] ]) ].

Definition sample_document (adp : list value) : value :=
  VDict
    [ ("cveMetadata", VDict [("cveId", VStr "CVE-2024-0001")]);
      ("containers",
       VDict [("cna", VDict sample_cna); ("adp", VList adp)]) ].

End CveRecord.

(** ** The row of one product: the CSV step of [cpes/download_cpes.py] *)

Module CpeRow.
Import Py OS CveRecord.

(** [for x in v]: the elements of a list, the keys of a dictionary, the
    characters of a string; nothing else can be iterated. *)
Definition py_iter (v : value) : outcome (list value) :=
  match v with
  | VList l => Ret l
  | VDict m => Ret (VStr <$> m.*1)
  | VStr s =>
      Ret ((λ c, VStr (String c EmptyString)) <$> String.list_ascii_of_string s)
  | _ => Raise TypeError
  end.

(** Lines 160-163: the title of the first entry whose [lang] is ['en']. *)
Fixpoint first_title (titles : list value) : outcome value :=
  match titles with
  | [] => Ret (VStr "")
  | t :: rest =>
      and_then (py_get t "lang" VNone) (λ lang,
      if py_eq lang (VStr "en") then py_get t "title" (VStr "")
      else first_title rest)
  end.

(** [[r.get('ref', '') for r in refs]]. *)
Fixpoint collect_refs (refs : list value) : outcome (list value) :=
  match refs with
  | [] => Ret []
  | r :: rest =>
      and_then (py_get r "ref" (VStr "")) (λ ref,
      and_then (collect_refs rest) (λ others, Ret (ref :: others)))
  end.

(** [sep.join(items)]: every item has to be a string. *)
Fixpoint strings_of (items : list value) : option (list string) :=
  match items with
  | [] => Some []
  | VStr s :: rest => cons s <$> strings_of rest
  | _ :: _ => None
  end.

Definition join (sep : string) (items : list value) : outcome string :=
  match strings_of items with
  | Some l => Ret (String.concat sep l)
  | None => Raise TypeError
  end.

(** Lines 153-165: the seven fields of the row of [prod]. *)
Definition fields (prod : value) : outcome (list value) :=
  and_then (py_get prod "cpe" (VDict [])) (λ cpe,
  and_then (py_get cpe "deprecated" (VBool false)) (λ dep,
  let deprecated := VStr (if truthy dep then "true" else "false") in
  and_then (py_get cpe "cpeName" (VStr "")) (λ cpeName,
  and_then (py_get cpe "cpeNameId" (VStr "")) (λ cpeNameId,
  and_then (py_get cpe "lastModified" (VStr "")) (λ lastModified,
  and_then (py_get cpe "created" (VStr "")) (λ created,
  and_then (py_get cpe "titles" (VList [])) (λ titles,
  and_then (py_iter titles) (λ titles,
  and_then (first_title titles) (λ title,
  and_then (py_get cpe "refs" (VList [])) (λ refs,
  and_then (py_iter refs) (λ refs,
  and_then (collect_refs refs) (λ refs,
  and_then (join " " refs) (λ refs,
  Ret [deprecated; cpeName; cpeNameId; lastModified; created; title;
       VStr refs]))))))))))))).

(** The entry is a dictionary whose [lang] is, or is not, ['en']. *)
Definition titled (english : bool) (t : value) : Prop :=
  match t with
  | VDict d => py_eq (get d "lang" VNone) (VStr "en") = english
  | _ => False
  end.

(** The entry of [refs] is a dictionary whose [ref], if it has one, is a
    string. *)
Definition is_ref (r : value) : Prop :=
  match r with
  | VDict d => ∃ s, get d "ref" (VStr "") = VStr s
  | _ => False
  end.

(** The [ref] of the entry, for such entries. *)
Definition ref_of (r : value) : string :=
  match r with
  | VDict d => match get d "ref" (VStr "") with VStr s => s | _ => "" end
  | _ => ""
  end.

Definition title_of (t : value) : value :=
  match t with
  | VDict d => get d "title" (VStr "")
  | _ => VStr ""
  end.

(** *** Sample data for the instances *)

Definition sample_titles : list value :=
  [ VDict [("title", VStr "Outil Acme"); ("lang", VStr "fr")];
    VDict [("title", VStr "Acme Tool"); ("lang", VStr "en")];
    VDict [("title", VStr "Acme Tool 1.0"); ("lang", VStr "en")] ].

Definition sample_refs : list value :=
  [ VDict [("ref", VStr "https://acme.example/tool"); ("type", VStr "Vendor")];
    VDict [("type", VStr "Advisory")];
    VDict [("ref", VStr "https://acme.example/news")] ].

Definition sample_entry : dict :=
  [ ("deprecated", VBool false);
    ("cpeName", VStr "cpe:2.3:a:acme:tool:1.0:*:*:*:*:*:*:*");
    ("cpeNameId", VStr "0A1B");
    ("lastModified", VStr "2024-05-01T00:00:00.000");
    ("titles", VList sample_titles);
    ("refs", VList sample_refs) ].

Definition sample_product : dict := [("cpe", VDict sample_entry)].

End CpeRow.

(** ** What a run is observed to do *)

Module Behaviour.
Import Py OS Logic Spec.

Definition is_run (e : event) : bool :=
  match e with
  | EvRun _ => true
  | _ => false
  end.

(** The git commands of [sync_or_clone_repo], in the order it runs them:
    the three of a sync when the clone is there, the clone otherwise. *)
Definition sync_commands (E : Vuln.env) : list (list string) :=
  if Vuln.has_clone E then
    [ ["git"; "-C"; Vuln.repo_dir; "fetch"; "origin"; Vuln.branch E];
      ["git"; "-C"; Vuln.repo_dir; "reset"; "--hard";
       "origin/" +:+ Vuln.branch E];
      ["git"; "-C"; Vuln.repo_dir; "clean"; "-fd"] ]
  else
    [ ["git"; "clone"; "--depth"; "1"; "--branch"; Vuln.branch E;
       Vuln.repo_url E; Vuln.repo_dir] ].

(** GitHub answered the probe with status 200. *)
Definition github_up (E : Vuln.env) : bool :=
  match Vuln.github_status E with
  | Ret 200 => true
  | _ => false
  end.

(** [raise_for_status] raises on the answer. *)
Definition is_error_status (r : EPSS.response) : bool :=
  (400 <=? EPSS.status_code r) && (EPSS.status_code r <? 600).

(** The download fails otherwise than by a 404: the request raises, the
    answer has another error status, or the stream breaks off. *)
Definition download_fails (E : EPSS.env) : Prop :=
  match EPSS.reply E with
  | Raise _ => True
  | Ret r =>
      EPSS.status_code r ≠ 404 ∧
      (is_error_status r = true ∨ EPSS.broken r = true)
  end.

(** The requests made up to a state. *)
Definition requests (st : state) : list event :=
  filter is_request (past st).*1.

(** The server answers with the file: a status that is no error, and a
    body that arrives whole; [payload] is the file as downloaded. *)
Definition delivered (E : EPSS.env) (payload : string) : Prop :=
  ∃ r, EPSS.reply E = Ret r ∧
       EPSS.status_code r ≠ 404 ∧ is_error_status r = false ∧
       EPSS.broken r = false ∧
       payload = String.concat "" (EPSS.body r).

(** What a proof keeps of a state: the data directory and the requests
    made so far. *)
Definition seen (st : state) (d : gmap string string) (reqs : list event)
  : Prop :=
  data_dir (now st) = d ∧ requests st = reqs.

(** *** Sample data for the instances *)

(** A run on a machine with git and a clone, against a GitHub that answers;
    every git command succeeds but [failing]. *)
Definition sample_vuln (failing : list string) : Vuln.env :=
  {| Vuln.repo_url := "https://github.com/cisagov/vulnrichment.git";
     Vuln.branch := "develop";
     Vuln.timestamp := "2024-05-03_010203";
     Vuln.git_installed := true;
     Vuln.github_status := Ret 200;
     Vuln.has_clone := true;
     Vuln.git_ok := λ cmd, negb (bool_decide (cmd = failing));
     Vuln.working_copy := sample_repo |}.

Definition git_reset : list string :=
  ["git"; "-C"; Vuln.repo_dir; "reset"; "--hard"; "origin/develop"].

(** An EPSS run whose download breaks off after two chunks, on a data
    directory where an earlier attempt left a partial file. *)
Definition broken_epss : EPSS.env :=
  {| EPSS.date_arg := Some "2024-05-01";
     EPSS.yesterday := "2024-05-02";
     EPSS.timestamp := "2024-05-03_010203";
     EPSS.reply := Ret {| EPSS.status_code := 200;
                          EPSS.body := ["ab"; "cd"]; EPSS.broken := true |};
     EPSS.gunzip := λ _, ([], true) |}.

Definition stale_part_fs : fs :=
  {| data_dir := {[ "epss_scores-2024-05-01.csv.gz.part" := "stale";
                    "notes.txt" := "keep" ]};
     log_dir := ∅; tmp_dirs := ∅ |}.

(** An EPSS run that is served a file [gzip] cannot read to the end. *)
Definition corrupt_epss (ts : string) : EPSS.env :=
  {| EPSS.date_arg := Some "2024-05-01";
     EPSS.yesterday := "2024-05-02";
     EPSS.timestamp := ts;
     EPSS.reply := Ret {| EPSS.status_code := 200;
                          EPSS.body := ["not "; "gzip"]; EPSS.broken := false |};
     EPSS.gunzip := λ _, (["cve,epss" +:+ LF], false) |}.

End Behaviour.

(** * Properties *)

(** ** [safe_get] *)

Section SafeGetFacts.
Import Py SafeGet Spec.

Lemma list_getitem_in_range (l : list value) (i : Z) :
  0 <= i < Z.of_nat (length l) → ∃ v, list_getitem l i = Ret v.
Proof.
  intros [Hlo Hhi]. unfold list_getitem.
  destruct (Z.ltb_spec i 0) as [?|_]; [lia|].
  destruct (Z.leb_spec 0 i) as [_|?]; [|lia].
  destruct (Z.ltb_spec i (Z.of_nat (length l))) as [_|?]; [|lia].
  simpl.
  destruct (lookup_lt_is_Some_2 l (Z.to_nat i)) as [v ->]; [lia|].
  by exists v.
Qed.

Lemma list_getitem_below_range (l : list value) (i : Z) :
  i < - Z.of_nat (length l) → list_getitem l i = Raise IndexError.
Proof.
  intros Hi. unfold list_getitem.
  destruct (Z.ltb_spec i 0) as [_|?]; [|lia].
  destruct (Z.leb_spec 0 (i + Z.of_nat (length l))) as [?|_]; [lia|done].
Qed.

Lemma descend_never_raises (d v : value) (k : key) :
  index_ok k → ∀ e, descend d v k ≠ Raises e.
Proof.
  intros Hk e. destruct v as [|b|z|q|s0|l|m]; simpl; try done.
  destruct k as [s|i]; simpl in *; [done|].
  destruct (Z.gtb_spec (Z.of_nat (length l)) i) as [Hlt|_]; [|done].
  destruct (list_getitem_in_range l i) as [v ->]; [lia|done].
Qed.

Lemma descend_on_miss (d v : value) (k : key) :
  misses v k → descend d v k = ReturnDefault ∨ descend d v k = Next d.
Proof.
  destruct v as [|b|z|q|s0|l|m], k as [s|i]; simpl; try (by left); try (by right).
  - intros Hlen. destruct (Z.gtb_spec (Z.of_nat (length l)) i); [lia|by left].
  - intros ->. by right.
Qed.

(** A path of names and non-negative indices never makes [safe_get] raise. *)
Lemma safe_get_total_on_ok_keys (keys : list key) :
  Forall index_ok keys →
  ∀ data d, ∃ v, safe_get data keys d = Ret v.
Proof.
  induction 1 as [|k keys Hk _ IH]; intros data d; simpl; [by eexists|].
  pose proof (descend_never_raises d data k Hk) as Hne.
  destruct (descend d data k) as [r| |e]; [|by eexists|by destruct (Hne e)].
  destruct (py_eq r d); [by eexists|apply IH].
Qed.

(** Where the descent along [before] arrives at a value that misses the next
    key, the default comes back. *)
Lemma safe_get_default_on_miss (before : list key) :
  ∀ (data v d : value) (k : key) (after : list key),
    py_eq d d = true →
    walk d data before = Some v →
    misses v k →
    safe_get data (before ++ k :: after) d = Ret d.
Proof.
  induction before as [|k0 before IH]; intros data v d k after Hd Hwalk Hmiss;
    simpl in *.
  - injection Hwalk as ->.
    destruct (descend_on_miss d v k Hmiss) as [-> | ->]; [done|by rewrite Hd].
  - destruct (descend d data k0) as [r| |e]; try done.
    destruct (py_eq r d); [done|by eapply IH].
Qed.

(** Below [-len(l)] the range test [len(result) > key] passes and the
    subscript raises. *)
Lemma safe_get_raises_below_range (l : list value) (i : Z)
    (after : list key) (d : value) :
  i < - Z.of_nat (length l) →
  safe_get (VList l) (KInt i :: after) d = Raise IndexError.
Proof.
  intros Hi. simpl.
  destruct (Z.gtb_spec (Z.of_nat (length l)) i) as [_|?]; [|lia].
  by rewrite list_getitem_below_range.
Qed.

(** C3: [safe_get] is claimed never to raise, whatever the keys and indices.
    On the empty list and the index [-1] the test [len(result) > key] holds
    ([0 > -1]) and the subscript [result[key]] raises [IndexError]. *)
Theorem safe_get_negative_index_raises :
  safe_get (VList []) [KInt (-1)] (VStr "") = Raise IndexError.
Proof. reflexivity. Qed.

(** C10: when the descent through a non-empty prefix of the keys yields a
    value equal to the default, [safe_get] returns the default, whatever
    keys remain and whether the value was found in the document or
    substituted for a missing key. *)
Theorem safe_get_stops_at_default (before : list key) :
  ∀ (data v d : value) (after : list key),
    before ≠ [] →
    walk d data before = Some v →
    py_eq v d = true →
    safe_get data (before ++ after) d = Ret d.
Proof.
  induction before as [|k before IH]; intros data v d after Hne Hwalk Heq;
    [done|].
  simpl in *.
  destruct (descend d data k) as [r| |e]; try done.
  destruct before as [|k' before'].
  - simpl in Hwalk. injection Hwalk as ->. by rewrite Heq.
  - destruct (py_eq r d); [done|]. by eapply IH.
Qed.

(** An instance: the field ["containers"] is present and holds the empty
    dictionary, which is also the default; the second key is not applied. *)
Lemma safe_get_stops_at_default_witness :
  safe_get (VDict [("containers", VDict [])])
           ([KStr "containers"] ++ [KStr "adp"]) (VDict []) = Ret (VDict []).
Proof.
  apply (safe_get_stops_at_default [KStr "containers"]
           (VDict [("containers", VDict [])]) (VDict []) (VDict [])
           [KStr "adp"]); [done|reflexivity|reflexivity].
Defined.

End SafeGetFacts.

(** ** Rules for runs *)

Section RunRules.
Import Py OS Logic.
Local Open Scope run_scope.

Lemma replay_app (s : fs) (evs1 evs2 : list event) :
  replay s (evs1 ++ evs2) = replay (replay s evs1) evs2.
Proof. apply foldl_app. Qed.

Lemma snapshots_app (s : fs) (evs1 evs2 : list event) :
  snapshots s (evs1 ++ evs2) =
  (snapshots s evs1 ++ snapshots (replay s evs1) evs2)%list.
Proof.
  revert s. induction evs1 as [|e evs1 IH]; intros s; simpl; [done|].
  by rewrite IH.
Qed.

Lemma snapshots_events (s : fs) (evs : list event) :
  (snapshots s evs).*1 = evs.
Proof.
  revert s. induction evs as [|e evs IH]; intros s; simpl; [done|].
  by rewrite IH.
Qed.

Lemma extends_refl (st : state) : extends st st [].
Proof. split; simpl; [by rewrite app_nil_r|done]. Qed.

Lemma extends_trans (st1 st2 st3 : state) (evs1 evs2 : list event) :
  extends st1 st2 evs1 → extends st2 st3 evs2 →
  extends st1 st3 (evs1 ++ evs2).
Proof.
  intros [Hp1 Hn1] [Hp2 Hn2]. split.
  - rewrite Hp2, Hp1, Hn1, snapshots_app. by rewrite <- app_assoc.
  - by rewrite Hn2, Hn1, replay_app.
Qed.

Lemma extends_step (st : state) (e : event) : extends st (step st e) [e].
Proof. done. Qed.

Lemma reach_refl (φ : event → Prop) (st : state) : reach φ st st.
Proof. exists []. split; [apply extends_refl|constructor]. Qed.

Lemma reach_trans (φ : event → Prop) (st1 st2 st3 : state) :
  reach φ st1 st2 → reach φ st2 st3 → reach φ st1 st3.
Proof.
  intros (evs1 & H1 & F1) (evs2 & H2 & F2). exists (evs1 ++ evs2)%list.
  split; [by eapply extends_trans|by apply Forall_app].
Qed.

Lemma reach_mono (φ ψ : event → Prop) (st1 st2 : state) :
  (∀ e, φ e → ψ e) → reach φ st1 st2 → reach ψ st1 st2.
Proof.
  intros Himp (evs & H & F). exists evs. split; [done|].
  by eapply Forall_impl.
Qed.

(** *** What a computation emits *)

Lemma emits_reach {A} (φ : event → Prop) (m : M A) (O : oracle) (st : state) :
  emits φ m → reach φ st (m O st).2.
Proof. intros H. apply H. Qed.

Lemma emits_mono {A} (φ ψ : event → Prop) (m : M A) :
  (∀ e, φ e → ψ e) → emits φ m → emits ψ m.
Proof.
  intros Himp H O st. destruct (H O st) as (evs & Hx & F).
  exists evs. split; [done|]. by eapply Forall_impl.
Qed.

Lemma emits_ret {A} (φ : event → Prop) (a : A) : emits φ (ret a).
Proof. intros O st. apply reach_refl. Qed.

Lemma emits_skip (φ : event → Prop) : emits φ skip.
Proof. apply emits_ret. Qed.

Lemma emits_raise {A} (φ : event → Prop) (e : exn) : emits φ (@raise A e).
Proof. intros O st. apply reach_refl. Qed.

Lemma emits_sys_exit {A} (φ : event → Prop) (c : Z) : emits φ (@sys_exit A c).
Proof. intros O st. apply reach_refl. Qed.

Lemma emits_lift {A} (φ : event → Prop) (o : outcome A) : emits φ (lift o).
Proof. destruct o; [apply emits_ret|apply emits_raise]. Qed.

Lemma emits_get_fs (φ : event → Prop) : emits φ get_fs.
Proof. intros O st. apply reach_refl. Qed.

Lemma emits_get_oracle (φ : event → Prop) : emits φ get_oracle.
Proof. intros O st. apply reach_refl. Qed.

Lemma emits_emit (φ : event → Prop) (e : event) : φ e → emits φ (emit e).
Proof.
  intros He O st. exists [e]. split; [apply extends_step|by constructor].
Qed.

Lemma emits_sys (φ : event → Prop) (e : event) : φ e → emits φ (sys e).
Proof.
  intros He O st. unfold sys. destruct (faulty O e).
  - apply reach_refl.
  - by apply emits_emit.
Qed.

Lemma emits_bind {A B} (φ : event → Prop) (m : M A) (k : A → M B) :
  emits φ m → (∀ a, emits φ (k a)) → emits φ (bind m k).
Proof.
  intros Hm Hk O st. unfold bind.
  pose proof (Hm O st) as H1. destruct (m O st) as [[a|e|c] st1]; try done.
  eapply reach_trans; [exact H1|]. apply Hk.
Qed.

Lemma emits_try_catch {A} (φ : event → Prop) (m : M A) :
  emits φ m → emits φ (try_catch m).
Proof.
  intros Hm O st. unfold try_catch.
  pose proof (Hm O st) as H1. by destruct (m O st) as [[a|e|c] st1].
Qed.

Lemma emits_for_each {A} (φ : event → Prop) (xs : list A) (body : A → M unit) :
  (∀ x, x ∈ xs → emits φ (body x)) → emits φ (for_each xs body).
Proof.
  induction xs as [|x xs IH]; intros Hbody; simpl; [apply emits_skip|].
  apply emits_bind; [apply Hbody; left|intros _].
  apply IH. intros y Hy. apply Hbody. by right.
Qed.

Lemma emits_fold_m {A B} (φ : event → Prop) (xs : list A)
    (body : A → B → M B) (acc : B) :
  (∀ x b, emits φ (body x b)) → emits φ (Vuln.fold_m xs body acc).
Proof.
  intros Hbody. revert acc.
  induction xs as [|x xs IH]; intros acc; simpl; [apply emits_ret|].
  apply emits_bind; [apply Hbody|done].
Qed.

(** *** Running a computation *)

Lemma wp_ret {A} O (a : A) Q st : Q (Val a) st → wp O (ret a) Q st.
Proof. done. Qed.

Lemma wp_skip O Q st : Q (Val tt) st → wp O skip Q st.
Proof. done. Qed.

Lemma wp_raise {A} O (e : exn) (Q : result A → state → Prop) st :
  Q (Exc e) st → wp O (raise e) Q st.
Proof. done. Qed.

Lemma wp_sys_exit {A} O (c : Z) (Q : result A → state → Prop) st :
  Q (SysExit c) st → wp O (sys_exit c) Q st.
Proof. done. Qed.

Lemma wp_emit O (e : event) Q st : Q (Val tt) (step st e) → wp O (emit e) Q st.
Proof. done. Qed.

Lemma wp_sys O (e : event) Q st :
  (faulty O e = true → Q (Exc OSError) st) →
  (faulty O e = false → Q (Val tt) (step st e)) →
  wp O (sys e) Q st.
Proof.
  intros H1 H2. unfold wp, sys.
  destruct (faulty O e); [by apply H1|by apply H2].
Qed.

Lemma wp_get_fs O Q st : Q (Val (now st)) st → wp O get_fs Q st.
Proof. done. Qed.

Lemma wp_get_oracle O Q st : Q (Val O) st → wp O get_oracle Q st.
Proof. done. Qed.

Lemma wp_bind {A B} O (m : M A) (k : A → M B) Q st :
  wp O m (λ r st',
    match r with
    | Val a => wp O (k a) Q st'
    | Exc e => Q (Exc e) st'
    | SysExit c => Q (SysExit c) st'
    end) st →
  wp O (bind m k) Q st.
Proof. unfold wp, bind. by destruct (m O st) as [[a|e|c] st']. Qed.

Lemma wp_try_catch {A} O (m : M A) Q st :
  wp O m (λ r st',
    match r with
    | Val a => Q (Val (inr a)) st'
    | Exc e => Q (Val (inl e)) st'
    | SysExit c => Q (SysExit c) st'
    end) st →
  wp O (try_catch m) Q st.
Proof. unfold wp, try_catch. by destruct (m O st) as [[a|e|c] st']. Qed.

Lemma wp_file_exists O (p : path) Q st :
  Q (Val (bool_decide (is_Some (lookup_file (now st) p)))) st →
  wp O (file_exists p) Q st.
Proof. done. Qed.

Lemma wp_file_exists_true {B} O (p : path) (k : bool → M B) Q st :
  is_Some (lookup_file (now st) p) →
  wp O (k true) Q st →
  wp O (bind (file_exists p) k) Q st.
Proof.
  intros Hp Hk. apply wp_bind, wp_file_exists.
  by rewrite bool_decide_eq_true_2.
Qed.

Lemma wp_file_exists_false {B} O (p : path) (k : bool → M B) Q st :
  lookup_file (now st) p = None →
  wp O (k false) Q st →
  wp O (bind (file_exists p) k) Q st.
Proof.
  intros Hp Hk. apply wp_bind, wp_file_exists.
  rewrite bool_decide_eq_false_2; [done|].
  rewrite Hp. apply is_Some_None.
Qed.

Lemma wp_mono {A} O (m : M A) (Q Q' : result A → state → Prop) st :
  (∀ r st', Q r st' → Q' r st') → wp O m Q st → wp O m Q' st.
Proof. intros H. apply H. Qed.

(** Past a computation that emits only [φ]-steps: the continuation is met
    in a state reached by [φ]-steps, and so is an abrupt end. *)
Lemma wp_bind_emits {A B} (φ : event → Prop) O (m : M A) (k : A → M B)
    Q st0 st :
  emits φ m →
  reach φ st0 st →
  (∀ (r : result B) st', aborted r → reach φ st0 st' → Q r st') →
  (∀ a st', reach φ st0 st' → wp O (k a) Q st') →
  wp O (bind m k) Q st.
Proof.
  intros Hm Hst Habort Hk. apply wp_bind. unfold wp.
  pose proof (emits_reach φ m O st Hm) as H1.
  assert (reach φ st0 (m O st).2) as H2 by (by eapply reach_trans).
  destruct (m O st) as [[a|e|c] st']; simpl in *.
  - by apply Hk.
  - by apply Habort.
  - by apply Habort.
Qed.

Lemma wp_emits {A} (φ : event → Prop) O (m : M A) Q st0 st :
  emits φ m →
  reach φ st0 st →
  (∀ r st', reach φ st0 st' → Q r st') →
  wp O m Q st.
Proof.
  intros Hm Hst HQ. apply HQ.
  eapply reach_trans; [exact Hst|by apply emits_reach].
Qed.

End RunRules.

(** ** What the primitives and the shared blocks emit *)

Section Emitted.
Import Py OS Logic Retention Publish.
Local Open Scope run_scope.

Context (φ : event → Prop).

Lemma emits_file_exists (p : path) : emits φ (file_exists p).
Proof. apply emits_bind; [apply emits_get_fs|intros; apply emits_ret]. Qed.

Lemma emits_read_file (p : path) : emits φ (read_file p).
Proof.
  apply emits_bind; [apply emits_get_fs|intros s].
  destruct (lookup_file s p); [apply emits_ret|apply emits_raise].
Qed.

Lemma emits_open_w (p : path) : φ (EvTruncate p) → emits φ (open_w p).
Proof.
  intros H. apply emits_bind; [apply emits_get_fs|intros s].
  destruct p as [[| |n] f]; simpl; try by apply emits_sys.
  case_bool_decide; [by apply emits_sys|apply emits_raise].
Qed.

Lemma emits_write (p : path) (c : string) : φ (EvAppend p c) → emits φ (write p c).
Proof. apply emits_sys. Qed.

Lemma emits_write_file (p : path) (c : string) :
  φ (EvTruncate p) → φ (EvAppend p c) → emits φ (write_file p c).
Proof.
  intros H1 H2. apply emits_bind; [by apply emits_open_w|intros _].
  by apply emits_write.
Qed.

Lemma emits_os_remove (p : path) : φ (EvRemove p) → emits φ (os_remove p).
Proof.
  intros H. apply emits_bind; [apply emits_get_fs|intros s].
  case_bool_decide; [by apply emits_sys|apply emits_raise].
Qed.

Lemma emits_shutil_move (src dst : path) :
  φ (EvRename src dst) → emits φ (shutil_move src dst).
Proof.
  intros H. apply emits_bind; [apply emits_get_fs|intros s].
  case_bool_decide; [by apply emits_sys|apply emits_raise].
Qed.

Lemma emits_rmtree (n : string) : φ (EvRmtree n) → emits φ (rmtree n).
Proof.
  intros H. apply emits_bind; [apply emits_get_fs|intros s].
  case_bool_decide; [by apply emits_sys|apply emits_raise].
Qed.

Lemma emits_listdir (d : dir) : emits φ (listdir d).
Proof.
  apply emits_bind; [apply emits_get_fs|intros s].
  destruct d as [| |n]; try apply emits_ret.
  destruct (tmp_dirs s !! n); [apply emits_ret|apply emits_raise].
Qed.

Lemma emits_mkdtemp (candidates : list string) :
  (∀ n, φ (EvMkdtemp n)) → emits φ (mkdtemp candidates).
Proof.
  intros H. apply emits_bind; [apply emits_get_fs|intros s].
  destruct (first_free s candidates) as [n|]; [|apply emits_raise].
  apply emits_bind; [by apply emits_sys|intros _; apply emits_ret].
Qed.

Lemma emits_sleep (n : Z) : φ (EvSleep n) → emits φ (sleep n).
Proof. apply emits_emit. Qed.

Lemma emits_log (f level msg : string) :
  φ (EvLog f level msg) → emits φ (log f level msg).
Proof. apply emits_emit. Qed.

Lemma emits_info (f msg : string) :
  φ (EvLog f "INFO" msg) → emits φ (info f msg).
Proof. apply emits_emit. Qed.

Lemma emits_silent (x : string) : emits φ (silent x).
Proof. apply emits_skip. Qed.

Lemma emits_prune_logs (prefix : string) (keep : nat)
    (removed failed : string → M unit) :
  (∀ n, φ (EvRemove (LogDir, n))) →
  (∀ n, emits φ (removed n)) →
  (∀ n, emits φ (failed n)) →
  emits φ (prune_logs prefix keep removed failed).
Proof.
  intros Hrm Hremoved Hfailed.
  apply emits_bind; [apply emits_listdir|intros entries].
  apply emits_for_each. intros old _.
  apply emits_bind.
  - apply emits_try_catch, emits_bind; [by apply emits_os_remove|done].
  - intros [e|[]]; [done|apply emits_skip].
Qed.

Lemma emits_canonical_swap (fresh canon : string) :
  φ (EvRemove (DataDir, canon)) →
  φ (EvRename (DataDir, fresh) (DataDir, canon)) →
  emits φ (canonical_swap fresh canon).
Proof.
  intros H1 H2. apply emits_bind; [apply emits_file_exists|intros e].
  apply emits_bind; [|intros _; by apply emits_shutil_move].
  destruct e; [by apply emits_os_remove|apply emits_skip].
Qed.

Lemma emits_compress (canon canon_tar_gz : string) :
  φ (EvTruncate (DataDir, canon_tar_gz)) →
  (∀ c, φ (EvAppend (DataDir, canon_tar_gz) c)) →
  emits φ (compress canon canon_tar_gz).
Proof.
  intros H1 H2. apply emits_bind; [by apply emits_open_w|intros _].
  apply emits_bind; [apply emits_read_file|intros c].
  apply emits_bind; [apply emits_get_oracle|intros O].
  by apply emits_write.
Qed.

Lemma emits_remove_uncompressed (log_file canon : string) :
  φ (EvRemove (DataDir, canon)) →
  (∀ level msg, φ (EvLog log_file level msg)) →
  emits φ (remove_uncompressed log_file canon).
Proof.
  intros H1 H2. apply emits_bind.
  - apply emits_try_catch, emits_bind; [by apply emits_os_remove|intros _].
    by apply emits_info.
  - intros [e|[]]; [by apply emits_log|apply emits_skip].
Qed.

Lemma emits_remove_quietly (name : string) :
  φ (EvRemove (DataDir, name)) → emits φ (remove_quietly name).
Proof.
  intros H. apply emits_bind; [|intros _; apply emits_skip].
  by apply emits_try_catch, emits_os_remove.
Qed.

End Emitted.

(** ** Strings *)

Section StringFacts.
Import OS.

Lemma append_cons (x : Ascii.ascii) (a b : string) :
  String x a +:+ b = String x (a +:+ b).
Proof. reflexivity. Qed.

Lemma append_assoc (a b c : string) : (a +:+ b) +:+ c = a +:+ (b +:+ c).
Proof.
  induction a as [|x a IH]; [done|]. rewrite !append_cons. by f_equal.
Qed.

Lemma append_nil_r (a : string) : a +:+ "" = a.
Proof.
  induction a as [|x a IH]; [done|]. rewrite append_cons. by f_equal.
Qed.

Lemma length_append (a b : string) :
  String.length (a +:+ b) = (String.length a + String.length b)%nat.
Proof.
  induction a as [|x a IH]; [done|]. rewrite append_cons. simpl. by rewrite IH.
Qed.

Lemma append_inj_r (a b c : string) : a +:+ c = b +:+ c → a = b.
Proof.
  revert b. induction a as [|x a IH]; intros [|y b] H.
  - done.
  - apply (f_equal String.length) in H.
    rewrite append_cons in H. simpl in H. rewrite !length_append in H.
    simpl in H. lia.
  - apply (f_equal String.length) in H.
    rewrite append_cons in H. simpl in H. rewrite !length_append in H.
    simpl in H. lia.
  - rewrite !append_cons in H. injection H as -> H. f_equal. by apply IH.
Qed.

Lemma prefix_nil (s : string) : String.prefix "" s = true.
Proof. by destruct s. Qed.

Lemma prefix_append (p x : string) : String.prefix p (p +:+ x) = true.
Proof.
  induction p as [|c p IH]; [apply prefix_nil|].
  rewrite append_cons. simpl. by destruct (Ascii.ascii_dec c c).
Qed.

Lemma rev_app_append (a b acc : string) :
  String.rev_app (a +:+ b) acc = String.rev_app b (String.rev_app a acc).
Proof.
  revert acc. induction a as [|x a IH]; intros acc; [done|].
  rewrite append_cons. simpl. apply IH.
Qed.

Lemma rev_app_acc (a acc : string) :
  String.rev_app a acc = String.rev_app a "" +:+ acc.
Proof.
  revert acc. induction a as [|x a IH]; intros acc; [done|].
  simpl. rewrite (IH (String x acc)), (IH (String x "")).
  by rewrite append_assoc.
Qed.

Lemma startswith_append (p x : string) : startswith (p +:+ x) p = true.
Proof. apply prefix_append. Qed.

Lemma endswith_append (x suffix : string) :
  endswith (x +:+ suffix) suffix = true.
Proof.
  unfold endswith, String.rev.
  rewrite rev_app_append, (rev_app_acc suffix (String.rev_app x "")).
  apply prefix_append.
Qed.

Lemma pretty_N_go_nonempty (x : N) (s : string) :
  s ≠ "" → pretty_N_go x s ≠ "".
Proof.
  revert s. induction (N.lt_wf_0 x) as [x _ IH]; intros s Hs.
  assert (x = 0 ∨ 0 < x)%N as [->|Hx] by lia.
  - by rewrite pretty_N_go_0.
  - rewrite pretty_N_go_step by done. apply IH; [by apply N.div_lt|done].
Qed.

Lemma pretty_Z_nonempty (z : Z) : pretty z ≠ "".
Proof.
  destruct z as [|x|x]; unfold pretty, pretty_Z; [done| |done].
  unfold pretty, pretty_positive, pretty, pretty_N.
  case_decide; [done|]. rewrite pretty_N_go_step by lia.
  by apply pretty_N_go_nonempty.
Qed.

Lemma page_file_inj (j k : Z) : CPE.page_file j = CPE.page_file k → j = k.
Proof.
  unfold CPE.page_file. intros H.
  apply (inj (String.append "page_")), append_inj_r in H.
  by apply (inj pretty).
Qed.

Lemma page_file_not_checkpoint (k : Z) : CPE.page_file k ≠ CPE.checkpoint_file.
Proof. unfold CPE.page_file, CPE.checkpoint_file. discriminate. Qed.

End StringFacts.

(** ** Files *)

Section FsFacts.
Import Py OS Logic Spec.

Lemma lookup_store_same (s : fs) (p : path) (c : string) :
  dir_ok s p.1 → lookup_file (store_file s p c) p = Some c.
Proof.
  destruct p as [[| |n] f]; unfold lookup_file, store_file; simpl.
  - intros _. apply lookup_insert_eq.
  - intros _. apply lookup_insert_eq.
  - intros [d Hd]. rewrite Hd. simpl. rewrite lookup_insert_eq. simpl.
    apply lookup_insert_eq.
Qed.

Lemma lookup_store_other (s : fs) (p q : path) (c : string) :
  p ≠ q → lookup_file (store_file s p c) q = lookup_file s q.
Proof.
  destruct p as [[| |n] f], q as [[| |m] g]; unfold lookup_file, store_file;
    simpl; intros Hne; try done.
  - apply lookup_insert_ne. congruence.
  - apply lookup_insert_ne. congruence.
  - by destruct (tmp_dirs s !! n).
  - by destruct (tmp_dirs s !! n).
  - destruct (tmp_dirs s !! n) as [d|] eqn:Hn; [|done]. simpl.
    destruct (decide (n = m)) as [->|Hnm].
    + rewrite lookup_insert_eq, Hn. simpl. apply lookup_insert_ne. congruence.
    + by rewrite lookup_insert_ne.
Qed.

Lemma lookup_delete_same (s : fs) (p : path) :
  lookup_file (delete_file s p) p = None.
Proof.
  destruct p as [[| |n] f]; unfold lookup_file, delete_file; simpl.
  - apply lookup_delete_eq.
  - apply lookup_delete_eq.
  - destruct (tmp_dirs s !! n) as [d|] eqn:Hn; simpl; [|by rewrite Hn].
    rewrite lookup_insert_eq. simpl. apply lookup_delete_eq.
Qed.

Lemma lookup_delete_other (s : fs) (p q : path) :
  p ≠ q → lookup_file (delete_file s p) q = lookup_file s q.
Proof.
  destruct p as [[| |n] f], q as [[| |m] g]; unfold lookup_file, delete_file;
    simpl; intros Hne; try done.
  - apply lookup_delete_ne. congruence.
  - apply lookup_delete_ne. congruence.
  - by destruct (tmp_dirs s !! n).
  - by destruct (tmp_dirs s !! n).
  - destruct (tmp_dirs s !! n) as [d|] eqn:Hn; [|done]. simpl.
    destruct (decide (n = m)) as [->|Hnm].
    + rewrite lookup_insert_eq, Hn. simpl. apply lookup_delete_ne. congruence.
    + by rewrite lookup_insert_ne.
Qed.

(** A step leaves alone the files it does not touch. *)
Lemma apply_event_frame (s : fs) (e : event) (p : path) :
  ¬ touches e p → lookup_file (apply_event s e) p = lookup_file s p.
Proof.
  destruct e as [f level msg|line|u|u|n|cmd|n|q|q c|q|src dst|n]; simpl;
    intros Hp; try done.
  - apply lookup_store_other. congruence.
  - destruct p as [[| |m] g]; unfold lookup_file; simpl in *; try done.
    rewrite lookup_insert_ne; [done|congruence].
  - apply lookup_store_other. congruence.
  - apply lookup_store_other. congruence.
  - apply lookup_delete_other. congruence.
  - destruct (lookup_file s src) as [c|]; [|done].
    rewrite lookup_store_other, lookup_delete_other; [done|..]; intros ->; tauto.
  - destruct p as [[| |m] g]; unfold lookup_file; simpl in *; try done.
    rewrite lookup_delete_ne; [done|congruence].
Qed.

Lemma replay_frame (s : fs) (evs : list event) (p : path) :
  Forall (λ e, ¬ touches e p) evs →
  lookup_file (replay s evs) p = lookup_file s p.
Proof.
  intros H. revert s. induction H as [|e evs He _ IH]; intros s; [done|].
  simpl. unfold replay in IH. by rewrite IH, apply_event_frame.
Qed.

Lemma reach_frame (st0 st : state) (p : path) :
  reach (λ e, ¬ touches e p) st0 st →
  lookup_file (now st) p = lookup_file (now st0) p.
Proof. intros (evs & [_ ->] & H). by apply replay_frame. Qed.

End FsFacts.

(** ** Rules for writes below a temporary directory *)

Section FileRules.
Import Py OS Logic Spec.
Local Open Scope run_scope.

Lemma wp_open_w_tmp O (n f : string) Q st :
  Q (Exc FileNotFoundError) st →
  Q (Exc OSError) st →
  (is_Some (tmp_dirs (now st) !! n) →
   Q (Val tt) (step st (EvTruncate (TmpDir n, f)))) →
  wp O (open_w (TmpDir n, f)) Q st.
Proof.
  intros H1 H2 H3. unfold open_w. apply wp_bind, wp_get_fs.
  cbn [fst]. cbv beta iota. case_bool_decide; [|done].
  apply wp_sys; auto.
Qed.

Lemma wp_write_file_tmp O (n f c : string) Q st :
  Q (Exc FileNotFoundError) st →
  Q (Exc OSError) st →
  (is_Some (tmp_dirs (now st) !! n) →
   Q (Exc OSError) (step st (EvTruncate (TmpDir n, f)))) →
  (is_Some (tmp_dirs (now st) !! n) →
   Q (Val tt) (step (step st (EvTruncate (TmpDir n, f)))
                 (EvAppend (TmpDir n, f) c))) →
  wp O (write_file (TmpDir n, f) c) Q st.
Proof.
  intros H1 H2 H3 H4. unfold write_file.
  apply wp_bind, wp_open_w_tmp; [done..|]. intros Hdir.
  unfold write. apply wp_sys; auto.
Qed.

Lemma dir_ok_store (s : fs) (p : path) (c : string) (d : dir) :
  dir_ok s d → dir_ok (store_file s p c) d.
Proof.
  destruct d as [| |m]; [done..|]. destruct p as [[| |n] f]; try done.
  simpl. unfold store_file; simpl.
  destruct (tmp_dirs s !! n) as [files|] eqn:Hn; [|done]. simpl.
  destruct (decide (n = m)) as [->|Hne].
  - rewrite lookup_insert_eq. by eexists.
  - by rewrite lookup_insert_ne.
Qed.

Lemma holds_written (p : path) (c : string) (st : state) :
  dir_ok (now st) p.1 →
  holds p c (step (step st (EvTruncate p)) (EvAppend p c)).
Proof.
  intros Hdir. unfold holds.
  change (now (step (step st (EvTruncate p)) (EvAppend p c)))
    with (store_file (store_file (now st) p "") p
            (contents (store_file (now st) p "") p +:+ c)).
  unfold contents. rewrite (lookup_store_same (now st) p "" Hdir).
  apply lookup_store_same. by apply dir_ok_store.
Qed.
Lemma seqZ_to_nat (m n : Z) : seqZ m n = seqZ m (Z.of_nat (Z.to_nat n)).
Proof. unfold seqZ. by rewrite Nat2Z.id. Qed.

Lemma reach_nothing (st st' : state) : reach (λ _, False) st st' → st' = st.
Proof.
  intros (evs & [Hpast Hnow] & Hall). destruct Hall as [|e evs []].
  simpl in *. rewrite app_nil_r in Hpast. destruct st, st'; simpl in *.
  congruence.
Qed.

End FileRules.

(** ** The dated-file pipeline *)

Section EpssFacts.
Import Py OS Logic Spec Retention Publish.
Local Open Scope run_scope.

Lemma execute_wp (main : M unit) (O : oracle) (s : fs) (P : run → Prop) :
  wp O main (λ r st, P (outcome_of r st)) (initial s) → P (execute main O s).
Proof.
  unfold wp, execute, initial, outcome_of.
  by destruct (main O {| now := s; past := [] |}) as [r st].
Qed.

(** A line appended to a log leaves the data directory as it is. *)
Lemma data_dir_log (s : fs) (f level msg : string) :
  data_dir (apply_event s (EvLog f level msg)) = data_dir s.
Proof. done. Qed.

Lemma tmp_dirs_log (s : fs) (f level msg : string) :
  tmp_dirs (apply_event s (EvLog f level msg)) = tmp_dirs s.
Proof. done. Qed.

(** C9: when the dated compressed file of the requested date is already in
    the data directory, the EPSS run exits with status 0, and the data
    directory (its files and its sub-directories, the canonical archive
    among them) is the same at every step of the run and at its end. *)
Theorem epss_already_downloaded_is_noop (E : EPSS.env) (O : oracle) (s : fs) :
  is_Some (data_dir s !! EPSS.out_gz E) →
  let r := execute (EPSS.main E) O s in
  end_of r = Exited 0 ∧
  data_dir (final r) = data_dir s ∧
  tmp_dirs (final r) = tmp_dirs s ∧
  Forall (λ x, data_dir x.2 = data_dir s ∧ tmp_dirs x.2 = tmp_dirs s)
         (history r).
Proof.
  intros Hthere. cbv zeta. apply execute_wp.
  unfold EPSS.main, info, log. cbv zeta.
  do 4 (apply wp_bind, wp_emit; cbv beta iota).
  apply wp_file_exists_true; [exact Hthere|].
  apply wp_bind, wp_bind, wp_emit, wp_sys_exit.
  unfold outcome_of, step, initial; simpl.
  repeat split; repeat constructor.
Qed.

Lemma epss_already_downloaded_is_noop_witness :
  let E := {| EPSS.date_arg := Some "2024-05-01";
              EPSS.yesterday := "2024-05-02";
              EPSS.timestamp := "2024-05-03_010203";
              EPSS.reply := Raise RequestException;
              EPSS.gunzip := λ _, ([], true) |} in
  let O := {| faulty := λ _, false; archive := λ _ c, c |} in
  let s := {| data_dir := {[ "epss_scores-2024-05-01.csv.gz" := "gz";
                             "epss_scores.csv.tar.gz" := "old" ]};
              log_dir := ∅; tmp_dirs := ∅ |} in
  end_of (execute (EPSS.main E) O s) = Exited 0 ∧
  data_dir (final (execute (EPSS.main E) O s)) = data_dir s.
Proof.
  intros E O s.
  destruct (epss_already_downloaded_is_noop E O s) as (H1 & H2 & _).
  - exists "gz". vm_compute. reflexivity.
  - split; [exact H1|exact H2].
Defined.

(** C5: when the server answers the request for the dated file with status
    404, the EPSS run exits with status 1; its trace holds the one request
    and no wait, and the data directory is left as it was. *)
Theorem epss_not_found_fails_at_once (E : EPSS.env) (O : oracle) (s : fs)
    (r0 : EPSS.response) :
  data_dir s !! EPSS.out_gz E = None →
  EPSS.reply E = Ret r0 →
  EPSS.status_code r0 = 404 →
  let r := execute (EPSS.main E) O s in
  end_of r = Exited 1 ∧
  exit_status (end_of r) ≠ 0 ∧
  filter is_request (trace r) = [EvGet (EpssScores (EPSS.date_str E))] ∧
  filter is_sleep (trace r) = [] ∧
  data_dir (final r) = data_dir s.
Proof.
  intros Habsent Hreply H404. cbv zeta. apply execute_wp.
  unfold EPSS.main, info, log. cbv zeta.
  do 4 (apply wp_bind, wp_emit; cbv beta iota).
  apply wp_file_exists_false; [exact Habsent|].
  apply wp_bind, wp_skip. apply wp_bind, wp_try_catch.
  unfold EPSS.download. cbv zeta.
  apply wp_bind, wp_emit; cbv beta iota.
  rewrite Hreply. apply wp_bind, wp_ret. rewrite H404. simpl Z.eqb. cbv iota.
  apply wp_bind, wp_bind. unfold log. apply wp_emit, wp_sys_exit.
  unfold outcome_of, trace, step, initial; simpl.
  repeat split; done.
Qed.

Lemma epss_not_found_fails_at_once_witness :
  let E := {| EPSS.date_arg := Some "2024-05-01";
              EPSS.yesterday := "2024-05-02";
              EPSS.timestamp := "2024-05-03_010203";
              EPSS.reply := Ret {| EPSS.status_code := 404;
                                   EPSS.body := []; EPSS.broken := false |};
              EPSS.gunzip := λ _, ([], true) |} in
  let O := {| faulty := λ _, false; archive := λ _ c, c |} in
  let s := {| data_dir := ∅; log_dir := ∅; tmp_dirs := ∅ |} in
  end_of (execute (EPSS.main E) O s) = Exited 1.
Proof.
  intros E O s.
  destruct (epss_not_found_fails_at_once E O s
              {| EPSS.status_code := 404; EPSS.body := [];
                 EPSS.broken := false |}) as (H1 & _); done.
Defined.

End EpssFacts.

(** ** The mirrored pipeline: the order of the table *)

Section VulnOrder.
Import Py OS Logic Spec Retention Publish.
Local Open Scope run_scope.

(** Sorting forgets the order of the scan. *)
Lemma sorted_permutation (l1 l2 : list string) :
  l1 ≡ₚ l2 → sorted l1 = sorted l2.
Proof.
  intros Hperm. unfold sorted.
  apply (Sorted_unique String.le); try apply Sorted_merge_sort; try apply _.
  by rewrite !merge_sort_Permutation.
Qed.

Lemma files_of_subdir_same (R1 R2 : Vuln.repo) (y d : string) :
  same_dataset R1 R2 → files_of_subdir R1 y d = files_of_subdir R2 y d.
Proof.
  intros (Hscan & _ & _). unfold files_of_subdir. f_equal.
  apply sorted_permutation. by rewrite (Hscan [y; d]).
Qed.

Lemma files_of_year_same (R1 R2 : Vuln.repo) (y : string) :
  same_dataset R1 R2 → files_of_year R1 y = files_of_year R2 y.
Proof.
  intros Hsame. pose proof Hsame as (Hscan & Hdir & _). unfold files_of_year.
  rewrite (sorted_permutation _ _ (Hscan [y])). f_equal.
  apply list_fmap_ext. intros _ d _.
  by rewrite Hdir, (files_of_subdir_same R1 R2).
Qed.

Lemma json_files_same (R1 R2 : Vuln.repo) :
  same_dataset R1 R2 → json_files R1 = json_files R2.
Proof.
  intros Hsame. pose proof Hsame as (Hscan & Hdir & _). unfold json_files.
  rewrite (sorted_permutation _ _ (Hscan [])). f_equal.
  apply list_fmap_ext. intros _ y _.
  by rewrite Hdir, (files_of_year_same R1 R2).
Qed.

Lemma rows_same (R1 R2 : Vuln.repo) (fs : list (list string)) :
  same_dataset R1 R2 → rows R1 fs = rows R2 fs.
Proof.
  intros (_ & _ & Hrec). unfold rows. f_equal.
  apply list_omap_ext, Forall_Forall2_diag, Forall_forall.
  intros f _. apply Hrec.
Qed.

Lemma foldr_append (l : list string) (acc : string) :
  foldr String.append acc l = foldr String.append "" l +:+ acc.
Proof.
  induction l as [|a l IH]; simpl; [done|]. by rewrite IH, append_assoc.
Qed.

Lemma rows_nil (R : Vuln.repo) : rows R [] = "".
Proof. done. Qed.

Lemma rows_singleton (R : Vuln.repo) (f : list string) :
  rows R [f] = default "" (Vuln.record_of R f).
Proof.
  unfold rows. csimpl. destruct (Vuln.record_of R f); simpl; [|done].
  apply append_nil_r.
Qed.

Lemma rows_app (R : Vuln.repo) (fs1 fs2 : list (list string)) :
  rows R (fs1 ++ fs2) = rows R fs1 +:+ rows R fs2.
Proof. unfold rows. by rewrite omap_app, foldr_app, foldr_append. Qed.

Lemma fmap_as_join {A B} (f : A → B) (l : list A) :
  f <$> l = mjoin ((λ x, [f x]) <$> l).
Proof. induction l as [|x l IH]; csimpl; [done|by f_equal]. Qed.

Lemma holds_log (p : string) (c f level msg : string) (st : state) :
  holds (DataDir, p) c st → holds (DataDir, p) c (step st (EvLog f level msg)).
Proof. done. Qed.

Lemma holds_append (p : string) (c c' : string) (st : state) :
  holds (DataDir, p) c st →
  holds (DataDir, p) (c +:+ c') (step st (EvAppend (DataDir, p) c')).
Proof.
  unfold holds. intros Hc.
  change (now (step st (EvAppend (DataDir, p) c')))
    with (store_file (now st) (DataDir, p)
            (contents (now st) (DataDir, p) +:+ c')).
  unfold contents. rewrite Hc. by apply lookup_store_same.
Qed.

Lemma holds_truncate (p : string) (st : state) :
  holds (DataDir, p) "" (step st (EvTruncate (DataDir, p))).
Proof. by apply lookup_store_same. Qed.

Context (R : Vuln.repo) (O : oracle) (out log_file : string).
Hypothesis Hwritable : writable O (DataDir, out).

(** One record appended, or none where the parse failed; the loop goes on. *)
Lemma emit_record_appends (f : list string) (counts : nat * nat)
    (c : string) (st : state) :
  holds (DataDir, out) c st →
  wp O (Vuln.emit_record R out log_file f counts)
    (λ r st', (∃ counts', r = Val counts') ∧
              holds (DataDir, out) (c +:+ rows R [f]) st') st.
Proof.
  intros Hc. unfold Vuln.emit_record. rewrite rows_singleton.
  apply wp_bind, wp_try_catch.
  destruct (Vuln.record_of R f) as [row|]; cbv beta iota.
  - apply wp_bind. unfold write. apply wp_sys.
    { intros Hf. destruct Hwritable as [_ Hw]. by rewrite Hw in Hf. }
    intros _. cbv beta iota. apply wp_bind.
    destruct (Nat.eqb _ _).
    + unfold info, log. apply wp_emit. cbv beta iota.
      apply wp_ret. cbv beta iota. apply wp_ret.
      split; [by eexists|]. by apply holds_log, holds_append.
    + apply wp_skip. cbv beta iota. apply wp_ret. cbv beta iota. apply wp_ret.
      split; [by eexists|]. by apply holds_append.
  - apply wp_bind. unfold log. apply wp_emit. cbv beta iota.
    apply wp_ret. cbv beta iota. apply wp_ret.
    split; [by eexists|]. simpl. rewrite append_nil_r. by apply holds_log.
Qed.

(** A loop whose turns append the rows of the files [files x] appends the
    rows of all of them, in the order of the loop. *)
Lemma fold_m_appends {A} (xs : list A) (body : A → nat * nat → M (nat * nat))
    (files : A → list (list string)) :
  (∀ x counts c st,
     holds (DataDir, out) c st →
     wp O (body x counts)
       (λ r st', (∃ counts', r = Val counts') ∧
                 holds (DataDir, out) (c +:+ rows R (files x)) st') st) →
  ∀ counts c st,
    holds (DataDir, out) c st →
    wp O (Vuln.fold_m xs body counts)
      (λ r st', (∃ counts', r = Val counts') ∧
                holds (DataDir, out) (c +:+ rows R (mjoin (files <$> xs))) st')
      st.
Proof.
  intros Hbody. induction xs as [|x xs IH]; intros counts c st Hc; csimpl.
  - apply wp_ret. split; [by eexists|].
    by rewrite rows_nil, append_nil_r.
  - apply wp_bind. eapply wp_mono; [|by apply Hbody].
    intros r st' [[counts' ->] Hc'].
    eapply wp_mono; [|by apply IH].
    intros r' st'' [Hval Hc'']. split; [done|].
    by rewrite rows_app, <- append_assoc.
Qed.

(** The table [csv_from_vulnrichment] leaves in the output file. *)
Lemma csv_from_vulnrichment_writes (st : state) :
  wp O (Vuln.csv_from_vulnrichment R out log_file)
    (λ r st', r = Val tt ∧
              holds (DataDir, out) (Vuln.header +:+ rows R (json_files R)) st')
    st.
Proof.
  destruct Hwritable as [Htrunc Happ].
  unfold Vuln.csv_from_vulnrichment.
  apply wp_bind. unfold open_w. apply wp_bind, wp_get_fs. simpl.
  apply wp_sys; [by rewrite Htrunc|intros _].
  apply wp_bind. unfold write. apply wp_sys; [by rewrite Happ|intros _].
  apply wp_bind.
  assert (holds (DataDir, out) Vuln.header
            (step (step st (EvTruncate (DataDir, out)))
               (EvAppend (DataDir, out) Vuln.header))) as Hstart.
  { apply (holds_append out "" Vuln.header), holds_truncate. }
  eapply wp_mono;
    [|apply (fold_m_appends _ _
               (λ y, if Vuln.is_dir R [y] then files_of_year R y else []));
      [|exact Hstart]].
  - intros r st' [[counts' ->] Hc]. unfold info, log.
    apply wp_emit. split; [done|]. by apply holds_log.
  - intros y counts c st1 Hc. destruct (Vuln.is_dir R [y]).
    + apply (fold_m_appends _ _
               (λ d, if Vuln.is_dir R [y; d]
                     then files_of_subdir R y d else [])); [|done].
      intros d counts1 c1 st2 Hc1. destruct (Vuln.is_dir R [y; d]).
      * unfold files_of_subdir. rewrite fmap_as_join.
        apply (fold_m_appends _ _ (λ f, [[y; d; f]])); [|done].
        intros f counts2 c2 st3 Hc2. by apply emit_record_appends.
      * apply wp_ret. split; [by eexists|].
        by rewrite rows_nil, append_nil_r.
    + apply wp_ret. split; [by eexists|].
      by rewrite rows_nil, append_nil_r.
Qed.

End VulnOrder.

Section VulnReproducible.
Import Py OS Logic Spec Retention Publish.

(** C7: two runs of the table generation over one working copy, each
    scanning the directories in whatever order its operating system reports
    them, leave the same bytes in their output files: the header and then
    the rows of the files in the order of the sorted sub-directories, the
    sorted directories within each, and the sorted file names within each of
    those. *)
Theorem vulnrichment_table_is_reproducible (R1 R2 : Vuln.repo)
    (O1 O2 : oracle) (out1 out2 log1 log2 : string) (st1 st2 : state) :
  same_dataset R1 R2 →
  writable O1 (DataDir, out1) →
  writable O2 (DataDir, out2) →
  let run1 := Vuln.csv_from_vulnrichment R1 out1 log1 O1 st1 in
  let run2 := Vuln.csv_from_vulnrichment R2 out2 log2 O2 st2 in
  run1.1 = Val tt ∧ run2.1 = Val tt ∧
  ∃ table,
    table = Vuln.header +:+ rows R1 (json_files R1) ∧
    lookup_file (now run1.2) (DataDir, out1) = Some table ∧
    lookup_file (now run2.2) (DataDir, out2) = Some table.
Proof.
  intros Hsame Hw1 Hw2. cbv zeta.
  destruct (csv_from_vulnrichment_writes R1 O1 out1 log1 Hw1 st1) as [Hr1 Hc1].
  destruct (csv_from_vulnrichment_writes R2 O2 out2 log2 Hw2 st2) as [Hr2 Hc2].
  split; [done|]. split; [done|].
  eexists. split; [done|]. split; [exact Hc1|].
  rewrite (json_files_same R1 R2 Hsame), (rows_same R1 R2 _ Hsame).
  exact Hc2.
Qed.

Lemma sample_repos_same : same_dataset sample_repo sample_repo_reversed.
Proof.
  split; [|done]. intros p. simpl. by rewrite reverse_Permutation.
Qed.

Lemma vulnrichment_table_is_reproducible_witness :
  ∃ table,
    table = Vuln.header +:+ rows sample_repo (json_files sample_repo) ∧
    lookup_file
      (now (Vuln.csv_from_vulnrichment sample_repo "a.csv" "a.log"
              sound_machine (initial empty_fs)).2) (DataDir, "a.csv")
    = Some table ∧
    lookup_file
      (now (Vuln.csv_from_vulnrichment sample_repo_reversed "b.csv" "b.log"
              sound_machine (initial empty_fs)).2) (DataDir, "b.csv")
    = Some table.
Proof.
  destruct (vulnrichment_table_is_reproducible sample_repo
              sample_repo_reversed sound_machine sound_machine
              "a.csv" "b.csv" "a.log" "b.log"
              (initial empty_fs) (initial empty_fs))
    as (_ & _ & H).
  - exact sample_repos_same.
  - split; [reflexivity|intros c; reflexivity].
  - split; [reflexivity|intros c; reflexivity].
  - exact H.
Defined.

End VulnReproducible.

(** ** The paginated pipeline: the page loop *)

(** Decompose a computation into the primitives it is made of; [tac] proves
    that a step is one of those allowed. *)
Ltac emits_with tac :=
  repeat first
    [ progress intros
    | solve [tac]
    | apply emits_ret | apply emits_skip | apply emits_raise
    | apply emits_sys_exit | apply emits_lift
    | apply emits_get_fs | apply emits_get_oracle
    | apply emits_bind | apply emits_try_catch | apply emits_for_each
    | apply emits_emit | apply emits_sys
    | match goal with
      | |- Logic.emits _ (match ?x with _ => _ end) => destruct x
      | |- Logic.emits _ (if ?b then _ else _) => destruct b
      end ].

(** Walk down a chain of [bind]s whose links emit only [φ]-steps, up to
    the first link that does not. *)
Ltac walk_with tac :=
  repeat lazymatch goal with
  | Hreach : Logic.reach ?φ ?st0 ?st,
    Habort : (∀ r st', Logic.aborted r → Logic.reach ?φ ?st0 st' → _)
    |- Logic.wp ?O (OS.bind ?m ?k) ?Q ?st =>
      apply (wp_bind_emits φ O m k Q st0 st);
      [ solve [emits_with tac]
      | exact Hreach
      | exact Habort
      | clear Hreach; intros ? ? Hreach; cbv beta ]
  end.

Section CpeLoop.
Import Py OS Logic Spec Retention Publish.
Local Open Scope run_scope.

Context (E : CPE.env) (log_file t : string).

Lemma emits_load_checkpoint (φ : event → Prop) :
  emits φ (CPE.load_checkpoint E t).
Proof. unfold CPE.load_checkpoint. emits_with fail. Qed.

Lemma emits_fetch_page (page attempt : Z) (products : list value) :
  emits (cpe_loop_event log_file t (eq page))
    (CPE.fetch_page E log_file t page attempt products).
Proof. unfold CPE.fetch_page. emits_with ltac:(simpl; eauto). Qed.

Lemma emits_save_checkpoint (page : Z) :
  emits (cpe_loop_event log_file t (eq page))
    (CPE.save_checkpoint log_file t page).
Proof. unfold CPE.save_checkpoint. emits_with ltac:(simpl; done). Qed.

Lemma emits_on_failure (page attempt : Z) :
  emits (cpe_loop_event log_file t (eq page))
    (CPE.on_failure log_file t page attempt).
Proof. unfold CPE.on_failure. emits_with ltac:(simpl; done). Qed.

Lemma emits_retry_loop (page : Z) (attempts : list Z) (products : list value) :
  emits (cpe_loop_event log_file t (eq page))
    (CPE.retry_loop E log_file t page attempts products).
Proof.
  revert products. induction attempts as [|a attempts IH]; intros products;
    cbn [CPE.retry_loop]; [apply emits_ret|].
  emits_with ltac:(first [ apply emits_fetch_page
                         | apply emits_save_checkpoint
                         | apply emits_on_failure
                         | apply IH ]).
Qed.

Lemma cpe_loop_event_mono (P Q : Z → Prop) (e : event) :
  (∀ q, P q → Q q) → cpe_loop_event log_file t P e →
  cpe_loop_event log_file t Q e.
Proof.
  intros HPQ. destruct e; simpl; try done.
  intros (q & Hq & ->). exists q. auto.
Qed.

Lemma emits_download_pages (pages : list Z) (products : list value) :
  emits (cpe_loop_event log_file t (λ q, q ∈ pages))
    (CPE.download_pages E log_file t pages products).
Proof.
  revert products. induction pages as [|page pages IH]; intros products;
    cbn [CPE.download_pages]; [apply emits_ret|].
  apply emits_bind.
  { eapply emits_mono; [|apply emits_retry_loop].
    intros e. apply cpe_loop_event_mono. intros q <-. left. }
  intros products'. apply emits_bind; [by apply emits_emit|intros _].
  eapply emits_mono; [|apply IH].
  intros e. apply cpe_loop_event_mono. intros q Hq. by right.
Qed.

End CpeLoop.

Section CpeWhole.
Import Py OS Logic Spec Retention Publish.
Local Open Scope run_scope.

Lemma emits_clean_timestamped (φ : event → Prop) :
  (∀ n, φ (EvRemove (DataDir, n))) → emits φ CPE.clean_timestamped.
Proof. intros H. unfold CPE.clean_timestamped. emits_with ltac:(apply H). Qed.

Lemma emits_cpe_main_any (E : CPE.env) : emits (λ _, True) (CPE.main E).
Proof.
  unfold CPE.main. cbv zeta.
  emits_with ltac:(first
    [ done
    | apply emits_load_checkpoint
    | apply emits_clean_timestamped; done
    | apply emits_prune_logs; [done|apply emits_silent..]
    | eapply emits_mono; [|apply emits_download_pages]; done ]).
Qed.

End CpeWhole.

(** ** The paginated pipeline: write-ahead ordering of the checkpoint *)

Section CpeWriteAhead.
Import Py OS Logic Spec Retention Publish.
Local Open Scope run_scope.

Context (E : CPE.env) (O : oracle) (log_file t : string).

Local Abbreviation good := (always_write_ahead E t).
Local Abbreviation below p st := (ckpt_below t p (now st)).
Local Abbreviation page_done p st := (Spec.page_done E t p st).

Lemma lookup_store_cases (s : fs) (p : path) (c : string) :
  lookup_file (store_file s p c) p = Some c ∨
  lookup_file (store_file s p c) p = None.
Proof.
  destruct p as [[| |n] f].
  - left. by apply lookup_store_same.
  - left. by apply lookup_store_same.
  - destruct (tmp_dirs s !! n) as [d|] eqn:Hn.
    + left. apply lookup_store_same. by exists d.
    + right. unfold lookup_file, store_file; simpl. rewrite Hn. simpl.
      by rewrite Hn.
Qed.

Lemma write_ahead_frame (s : fs) (e : event) :
  write_ahead E t s →
  ¬ touches e (ckpt_path t) →
  (∀ k, lookup_file s (ckpt_path t) = Some (pretty (k + 1)) →
        ¬ touches e (page_path t k)) →
  write_ahead E t (apply_event s e).
Proof.
  intros Hwa Hc Hp k Hk. rewrite apply_event_frame in Hk by done.
  destruct (Hwa k Hk) as (c & Hl & Hpay). exists c. split; [|done].
  rewrite apply_event_frame; [done|by apply Hp].
Qed.

Lemma write_ahead_foreign (s : fs) (e : event) :
  foreign t e → write_ahead E t s → write_ahead E t (apply_event s e).
Proof. intros He Hwa. apply write_ahead_frame; [done|apply He|intros; apply He]. Qed.

Lemma below_frame (p : Z) (s : fs) (e : event) :
  ¬ touches e (ckpt_path t) →
  ckpt_below t p s → ckpt_below t p (apply_event s e).
Proof. intros He Hb k Hk. rewrite apply_event_frame in Hk by done. auto. Qed.

Lemma write_ahead_vacuous (s : fs) :
  lookup_file s (ckpt_path t) = None ∨ lookup_file s (ckpt_path t) = Some "" →
  write_ahead E t s ∧ ∀ p, ckpt_below t p s.
Proof.
  intros H. split; [intros k Hk|intros p k Hk]; destruct H as [H|H];
    rewrite H in Hk; try done; injection Hk as Hk; symmetry in Hk;
    by destruct (pretty_Z_nonempty (k + 1)).
Qed.

Lemma good_step (st : state) (e : event) :
  good st → write_ahead E t (apply_event (now st) e) → good (step st e).
Proof.
  intros [Hnow Hpast] H. split; [done|]. simpl.
  apply Forall_app. split; [done|]. by constructor.
Qed.

Lemma good_step_foreign (st : state) (e : event) :
  foreign t e → good st → good (step st e).
Proof.
  intros He Hg. apply good_step; [done|].
  apply write_ahead_foreign; [done|apply Hg].
Qed.

Lemma below_step_foreign (p : Z) (st : state) (e : event) :
  foreign t e → below p st → below p (step st e).
Proof. intros He. apply below_frame, He. Qed.

Lemma foreign_log (f level msg : string) : foreign t (EvLog f level msg).
Proof. intros g [=]. Qed.

Lemma foreign_get (u : url) : foreign t (EvGet u).
Proof. intros g []. Qed.

Lemma foreign_sleep (n : Z) : foreign t (EvSleep n).
Proof. intros g []. Qed.

(** Steps that do not touch the directory keep the invariant along a whole
    stretch of the run, and so does the removal of the directory. *)
Lemma write_ahead_rmtree (s : fs) :
  write_ahead E t (apply_event s (EvRmtree t)) ∧
  ∀ f, lookup_file (apply_event s (EvRmtree t)) (TmpDir t, f) = None.
Proof.
  assert (∀ f, lookup_file (apply_event s (EvRmtree t)) (TmpDir t, f) = None)
    as Hnone.
  { intros f. unfold lookup_file; simpl. by rewrite lookup_delete_eq. }
  split; [|done]. apply write_ahead_vacuous. left. apply Hnone.
Qed.

Lemma good_reach (st st' : state) :
  reach (λ e, foreign t e ∨ e = EvRmtree t) st st' → good st → good st'.
Proof.
  intros (evs & [Hpast Hnow] & Hall) [Hwa Hold].
  assert (write_ahead E t (replay (now st) evs) ∧
          Forall (λ x, write_ahead E t x.2) (snapshots (now st) evs)) as [H1 H2].
  { clear Hpast Hnow Hold. revert Hwa. generalize (now st) as s.
    induction Hall as [|e evs He _ IH]; intros s Hwa; [by split|].
    assert (write_ahead E t (apply_event s e)) as Hwa'.
    { destruct He as [He| ->]; [by apply write_ahead_foreign|].
      apply write_ahead_rmtree. }
    destruct (IH _ Hwa') as [H1 H2]. split; [done|]. by constructor. }
  split; [by rewrite Hnow|]. rewrite Hpast. by apply Forall_app.
Qed.

Lemma page_done_frame (p : Z) (st : state) (e : event) :
  ¬ touches e (page_path t p) → page_done p st → page_done p (step st e).
Proof.
  intros He (c & Hc & Hpay). exists c. split; [|done].
  unfold holds. simpl. by rewrite apply_event_frame.
Qed.

Lemma ckpt_ne_page (p : Z) : ckpt_path t ≠ page_path t p.
Proof.
  unfold ckpt_path, page_path. intros H.
  apply (f_equal snd) in H. simpl in H. symmetry in H.
  by destruct (page_file_not_checkpoint p).
Qed.

Lemma page_path_inj (j k : Z) : page_path t j = page_path t k → j = k.
Proof.
  unfold page_path. intros H. apply (f_equal snd) in H. simpl in H.
  by apply page_file_inj.
Qed.

Lemma good_truncate_page (p : Z) (st : state) :
  good st → below p st → good (step st (EvTruncate (page_path t p))).
Proof.
  intros Hg Hb. apply good_step; [done|].
  apply write_ahead_frame; [apply Hg| |].
  - apply ckpt_ne_page.
  - intros k Hk H. apply page_path_inj in H. specialize (Hb k Hk). lia.
Qed.

Lemma good_append_page (p : Z) (c : string) (st : state) :
  good st → below p st → good (step st (EvAppend (page_path t p) c)).
Proof.
  intros Hg Hb. apply good_step; [done|].
  apply write_ahead_frame; [apply Hg| |].
  - apply ckpt_ne_page.
  - intros k Hk H. apply page_path_inj in H. specialize (Hb k Hk). lia.
Qed.

Lemma below_page_event (p : Z) (st : state) (e : event) :
  (e = EvTruncate (page_path t p) ∨ ∃ c, e = EvAppend (page_path t p) c) →
  below p st → below p (step st e).
Proof.
  intros He. apply below_frame.
  destruct He as [->|[c ->]]; apply ckpt_ne_page.
Qed.

Lemma wp_fetch_page (p a : Z) (products : list value) (st : state) :
  good st → below p st →
  wp O (CPE.fetch_page E log_file t p a products)
    (λ r st', good st' ∧ below p st' ∧
              ∀ x, r = Val x → page_done p st') st.
Proof.
  intros Hg Hb. unfold CPE.fetch_page, info, log.
  apply wp_bind, wp_emit. cbv beta iota.
  apply wp_bind, wp_emit. cbv beta iota.
  set (st2 := step (step st _) _).
  assert (good st2 ∧ below p st2) as [Hg2 Hb2].
  { split.
    - apply good_step_foreign; [apply foreign_get|].
      apply good_step_foreign; [apply foreign_log|done].
    - apply below_step_foreign; [apply foreign_get|].
      apply below_step_foreign; [apply foreign_log|done]. }
  clearbody st2. clear Hg Hb.
  apply wp_bind.
  destruct (CPE.page_response E p a) as [data|e] eqn:Hresp; [|done].
  apply wp_ret. cbv beta iota. apply wp_bind.
  destruct (py_get data "products" (VList [])) as [pp|e]; [|done].
  apply wp_ret. cbv beta iota. apply wp_bind.
  destruct (truthy pp); [|done].
  apply wp_skip. cbv beta iota.
  apply wp_bind, wp_write_file_tmp; [done|done|..].
  { intros _. split; [by apply good_truncate_page|].
    split; [apply below_page_event; eauto|done]. }
  intros Hdir.
  set (st3 := step st2 _). set (st4 := step st3 _).
  assert (good st4 ∧ below p st4 ∧ page_done p st4) as (Hg4 & Hb4 & Hd4).
  { split; [|split].
    - apply good_append_page; [by apply good_truncate_page|].
      apply below_page_event; eauto.
    - apply below_page_event; [eauto|]. apply below_page_event; eauto.
    - exists (CPE.json_dumps E data). split; [|by exists a, data].
      by apply holds_written. }
  destruct (CPE.extend products pp); done.
Qed.

Lemma wp_save_checkpoint (p : Z) (st : state) :
  good st → below p st → page_done p st →
  wp O (CPE.save_checkpoint log_file t p)
    (λ r st', good st' ∧
              match r with
              | Val _ => below (p + 1) st'
              | _ => below p st'
              end) st.
Proof.
  intros Hg Hb Hd. unfold CPE.save_checkpoint, info, log.
  apply wp_bind, wp_emit. cbv beta iota.
  set (st1 := step st _).
  assert (good st1 ∧ below p st1 ∧ page_done p st1) as (Hg1 & Hb1 & Hd1).
  { split; [|split].
    - apply good_step_foreign; [apply foreign_log|done].
    - apply below_step_foreign; [apply foreign_log|done].
    - apply page_done_frame; [apply foreign_log|done]. }
  clearbody st1. clear Hg Hb Hd.
  assert (∀ st', now st' = store_file (now st1) (ckpt_path t) "" →
                 write_ahead E t (now st') ∧ ∀ q, ckpt_below t q (now st'))
    as Htrunc.
  { intros st' ->. apply write_ahead_vacuous.
    destruct (lookup_store_cases (now st1) (ckpt_path t) "") as [->| ->]; auto. }
  apply wp_write_file_tmp; [done|done|..].
  - intros _. destruct (Htrunc (step st1 (EvTruncate (ckpt_path t))) eq_refl)
      as [Hwa Hbelow].
    split; [by apply good_step|apply Hbelow].
  - intros Hdir.
    destruct (Htrunc (step st1 (EvTruncate (ckpt_path t))) eq_refl)
      as [Hwa Hbelow].
    set (st2 := step st1 _). set (st3 := step st2 _).
    assert (holds (ckpt_path t) (pretty (p + 1)) st3) as Hck
      by (by apply holds_written).
    assert (page_done p st3) as Hd3.
    { apply page_done_frame; [intros H; by destruct (ckpt_ne_page p)|].
      apply page_done_frame; [intros H; by destruct (ckpt_ne_page p)|done]. }
    assert (write_ahead E t (now st3)) as Hwa3.
    { intros k Hk. unfold holds in Hck. rewrite Hck in Hk.
      injection Hk as Hk. apply (inj pretty) in Hk.
      assert (k = p) as -> by lia. exact Hd3. }
    split.
    + apply good_step; [by apply good_step|done].
    + intros k Hk. unfold holds in Hck. rewrite Hck in Hk.
      injection Hk as Hk. apply (inj pretty) in Hk. lia.
Qed.

Lemma wp_on_failure (p a : Z) (st : state) :
  good st → below p st →
  wp O (CPE.on_failure log_file t p a)
    (λ r st', good st' ∧ ∀ x, r = Val x → below p st') st.
Proof.
  intros Hg Hb. unfold CPE.on_failure, info, log.
  apply wp_bind, wp_emit. cbv beta iota.
  set (st1 := step st _).
  assert (good st1 ∧ below p st1) as [Hg1 Hb1].
  { split.
    - apply good_step_foreign; [apply foreign_log|done].
    - apply below_step_foreign; [apply foreign_log|done]. }
  clearbody st1. clear Hg Hb.
  destruct (a <? CPE.MAX_RETRIES - 1).
  - apply wp_bind, wp_emit. cbv beta iota. unfold sleep. apply wp_emit.
    split.
    + apply good_step_foreign; [apply foreign_sleep|].
      apply good_step_foreign; [apply foreign_log|done].
    + intros _ _. apply below_step_foreign; [apply foreign_sleep|].
      apply below_step_foreign; [apply foreign_log|done].
  - apply wp_bind, wp_emit. cbv beta iota.
    assert (good (step st1 (EvLog log_file "ERROR"
              ("ERROR: Failed after " +:+ pretty CPE.MAX_RETRIES +:+
               " attempts")))) as Hg2
      by (apply good_step_foreign; [apply foreign_log|done]).
    apply wp_bind. unfold rmtree. apply wp_bind, wp_get_fs. cbv beta iota.
    case_bool_decide; [|done].
    apply wp_sys; [done|intros _]. cbv beta iota. apply wp_sys_exit.
    split; [|done]. apply good_step; [done|]. apply write_ahead_rmtree.
Qed.

Lemma below_weaken (p q : Z) (s : fs) :
  p ≤ q → ckpt_below t p s → ckpt_below t q s.
Proof. intros Hpq Hb k Hk. specialize (Hb k Hk). lia. Qed.

Lemma wp_retry_loop (p : Z) (attempts : list Z) (products : list value)
    (st : state) :
  good st → below p st →
  wp O (CPE.retry_loop E log_file t p attempts products)
    (λ r st', good st' ∧ ∀ x, r = Val x → below (p + 1) st') st.
Proof.
  revert products st.
  induction attempts as [|a attempts IH]; intros products st Hg Hb;
    cbn [CPE.retry_loop].
  { apply wp_ret. split; [done|]. intros _ _.
    eapply below_weaken; [|done]. lia. }
  apply wp_bind, wp_try_catch.
  eapply wp_mono; [|by apply wp_fetch_page].
  intros r st1 (Hg1 & Hb1 & Hd1). destruct r as [products'|e|c]; [| |done].
  - apply wp_bind, wp_try_catch.
    eapply wp_mono; [|apply wp_save_checkpoint; eauto].
    intros r st2 [Hg2 Hb2]. destruct r as [[]|e|c]; [| |done].
    + apply wp_ret. split; [done|]. by intros.
    + apply wp_bind. eapply wp_mono; [|by apply wp_on_failure].
      intros r st3 [Hg3 Hb3]. destruct r as [[]|e'|c]; [|done..].
      apply IH; eauto.
  - apply wp_bind. eapply wp_mono; [|by apply wp_on_failure].
    intros r st3 [Hg3 Hb3]. destruct r as [[]|e'|c]; [|done..].
    apply IH; eauto.
Qed.

Lemma wp_download_pages (len : nat) :
  ∀ (p : Z) (products : list value) (st : state),
    good st → below p st →
    wp O (CPE.download_pages E log_file t (seqZ p (Z.of_nat len)) products)
      (λ r st', good st') st.
Proof.
  induction len as [|len IH]; intros p products st Hg Hb.
  { by apply wp_ret. }
  rewrite seqZ_cons by lia. cbn [CPE.download_pages].
  apply wp_bind. eapply wp_mono; [|by apply wp_retry_loop].
  intros r st1 [Hg1 Hb1]. destruct r as [products'|e|c]; [|done..].
  apply wp_bind. unfold sleep. apply wp_emit. cbv beta iota.
  replace (Z.pred (Z.of_nat (S len))) with (Z.of_nat len) by lia.
  apply IH.
  - apply good_step_foreign; [apply foreign_sleep|done].
  - apply below_step_foreign; [apply foreign_sleep|]. eauto.
Qed.

Lemma quiet_apply (s : fs) (e : event) :
  quiet e →
  data_dir (apply_event s e) = data_dir s ∧
  tmp_dirs (apply_event s e) = tmp_dirs s.
Proof. by destruct e. Qed.

Lemma quiet_reach (st0 st : state) :
  reach quiet st0 st →
  data_dir (now st) = data_dir (now st0) ∧
  tmp_dirs (now st) = tmp_dirs (now st0).
Proof.
  intros (evs & [_ Hnow] & Hall). rewrite Hnow. clear Hnow.
  generalize (now st0) as s.
  induction Hall as [|e evs He _ IH]; intros s; [done|].
  change (replay s (e :: evs)) with (replay (apply_event s e) evs).
  destruct (IH (apply_event s e)) as [H1 H2].
  destruct (quiet_apply s e He) as [H3 H4]. split; congruence.
Qed.

Lemma quiet_foreign (e : event) : quiet e → foreign t e.
Proof. destruct e; try done; intros _ f; simpl; try tauto; discriminate. Qed.

Lemma first_free_ext (s s' : fs) (cands : list string) :
  data_dir s' = data_dir s → tmp_dirs s' = tmp_dirs s →
  first_free s' cands = first_free s cands.
Proof.
  intros Hd Ht. induction cands as [|n cands IH]; simpl; [done|].
  by rewrite Hd, Ht, IH.
Qed.

Lemma first_free_fresh (s : fs) (cands : list string) (n : string) :
  first_free s cands = Some n →
  data_dir s !! n = None ∧ tmp_dirs s !! n = None.
Proof.
  induction cands as [|m cands IH]; simpl; [done|].
  destruct (data_dir s !! m) eqn:Hd, (tmp_dirs s !! m) eqn:Ht; simpl;
    rewrite ?bool_decide_eq_true_2, ?bool_decide_eq_false_2
      by (rewrite <- ?not_eq_None_Some; auto using is_Some_None);
    simpl; try done.
  all: try (rewrite bool_decide_eq_true_2 by eauto; simpl; done).
  intros [= <-]. done.
Qed.

End CpeWriteAhead.

Section CpeCheckpoint.
Import Py OS Logic Spec Retention Publish.
Local Open Scope run_scope.

Context (E : CPE.env) (O : oracle).

(** C6: at every step of a run of the CPE script, and when it starts, a
    checkpoint in the run's temporary directory that reads [k+1] finds the
    whole payload of page [k] in the file of that page: the checkpoint is
    written after the page file, never before. *)
Theorem cpe_checkpoint_is_write_ahead (s : fs) (t : string) :
  first_free s (CPE.tmp_candidates E) = Some t →
  write_ahead E t s ∧
  Forall (λ x, write_ahead E t x.2) (history (execute (CPE.main E) O s)).
Proof.
  intros Hfree.
  destruct (first_free_fresh _ _ _ Hfree) as [_ Hnone].
  assert (always_write_ahead E t (initial s)) as Hg0.
  { split; [|constructor]. apply write_ahead_vacuous. left.
    unfold lookup_file; simpl. by rewrite Hnone. }
  split; [apply Hg0|].
  apply execute_wp.
  change (wp O (CPE.main E) (λ r st, Forall (λ x, write_ahead E t x.2) (past st))
            (initial s)).
  assert (∀ (r : result unit) st',
            aborted r → reach (quiet) (initial s) st' →
            Forall (λ x, write_ahead E t x.2) (past st')) as Habort.
  { intros r st' _ Hreach. eapply (good_reach E t); [|exact Hg0].
    eapply reach_mono; [|exact Hreach]. intros e He. left.
    by apply quiet_foreign. }
  pose proof (reach_refl quiet (initial s)) as Hreach.
  unfold CPE.main. cbv zeta.
  walk_with ltac:(simpl; done).
  lazymatch type of Hreach with reach _ _ ?st => rename st into st_tmp end.
  lazymatch goal with v : value |- _ => rename v into total_pages end.
  destruct (quiet_reach _ _ Hreach) as [Hdata Htmp].
  assert (always_write_ahead E t st_tmp) as Hg.
  { eapply (good_reach E t); [|exact Hg0].
    eapply reach_mono; [|exact Hreach]. intros e He. left.
    by apply quiet_foreign. }
  clear Hreach Habort.
  apply wp_bind. unfold mkdtemp. apply wp_bind, wp_get_fs. cbv beta iota.
  rewrite (first_free_ext s (now st_tmp)) by done. rewrite Hfree.
  apply wp_bind, wp_sys; [intros _; apply Hg|intros _]. cbv beta iota.
  apply wp_ret. cbv beta iota.
  set (st1 := step st_tmp (EvMkdtemp t)).
  assert (∀ f, lookup_file (now st1) (TmpDir t, f) = None) as Hempty.
  { intros f. unfold lookup_file; simpl. by rewrite lookup_insert_eq. }
  assert (always_write_ahead E t st1 ∧ ∀ p, ckpt_below t p (now st1))
    as [Hg1 Hb1].
  { destruct (write_ahead_vacuous E t (now st1)) as [Hwa Hb];
      [left; apply Hempty|].
    split; [|done]. by apply good_step. }
  clearbody st1. clear Hempty Hg Hdata Htmp.
  apply wp_bind.
  apply (wp_emits (λ _, False) O _ _ st1 st1);
    [apply emits_load_checkpoint|apply reach_refl|].
  intros r st2 Hst2. apply reach_nothing in Hst2 as ->.
  destruct r as [start_page|e|c]; [|apply Hg1..].
  apply wp_bind.
  destruct (CPE.page_range start_page total_pages) as [pages|e] eqn:Hrange;
    [|apply Hg1].
  apply wp_ret. cbv beta iota.
  destruct total_pages as [| | n | | | |]; try done. injection Hrange as <-.
  rewrite seqZ_to_nat.
  apply wp_bind. eapply wp_mono;
    [|apply (wp_download_pages E O); [exact Hg1|apply Hb1]].
  intros r st3 Hg3. destruct r as [products|e|c]; [|apply Hg3..].
  apply (wp_emits (λ e, foreign t e ∨ e = EvRmtree t) O _ _ st3 st3);
    [|apply reach_refl|].
  2: { intros r st4 Hst4. by apply (good_reach E t st3 st4). }
  emits_with ltac:(first
    [ by right
    | left; intros f; simpl; intuition discriminate ]).
Qed.

End CpeCheckpoint.

(** ** The paginated pipeline: what a rerun does *)

Section CpeResume.
Import Py OS Logic Spec Retention Publish.
Local Open Scope run_scope.

Lemma cpe_checkpoint_is_write_ahead_witness :
  Forall (λ x, write_ahead (sample_cpe "2024-05-03_010203" []) "tmpa" x.2)
    (history (execute (CPE.main (sample_cpe "2024-05-03_010203" []))
                sound_machine empty_fs)).
Proof.
  apply (cpe_checkpoint_is_write_ahead (sample_cpe "2024-05-03_010203" [])
           sound_machine empty_fs "tmpa").
  reflexivity.
Defined.

(** The directory [mkdtemp] returns is new and empty, so the checkpoint
    file that [main] looks for in it is never there: whatever earlier runs
    left behind, the page loop starts at page 0. *)
Lemma cpe_start_page_is_zero (E : CPE.env) (O : oracle) (st st' : state)
    (start_page : Z) :
  bind (mkdtemp (CPE.tmp_candidates E)) (CPE.load_checkpoint E) O st
    = (Val start_page, st') →
  start_page = 0.
Proof.
  unfold bind at 1. unfold mkdtemp at 1. unfold bind at 1, get_fs at 1.
  destruct (first_free (now st) (CPE.tmp_candidates E)) as [n|]; [|done].
  unfold bind at 1, sys. destruct (faulty O (EvMkdtemp n)); [done|].
  unfold emit, ret. cbv beta iota.
  unfold CPE.load_checkpoint, file_exists, bind, get_fs, ret.
  cbv beta iota. cbn [now].
  rewrite bool_decide_eq_false_2.
  - by intros [= <- _].
  - unfold lookup_file; simpl. rewrite lookup_insert_eq. simpl.
    rewrite lookup_empty. apply is_Some_None.
Qed.

(** C1: a run is killed right after its checkpoint was written to say that
    page 0 is complete; the files it leaves hold that checkpoint and the
    page.  The next run does not resume at page 1: it creates a directory of
    its own, finds no checkpoint there, and requests page 0 again. *)
Theorem cpe_rerun_refetches_completed_pages :
  let first := execute (CPE.main (sample_cpe "2024-05-03_010203" []))
                 sound_machine empty_fs in
  ∃ left_behind,
    killed_after (EvAppend (TmpDir "tmpa", "checkpoint.txt") "1") first
      = Some left_behind ∧
    lookup_file left_behind (TmpDir "tmpa", "checkpoint.txt") = Some "1" ∧
    lookup_file left_behind (TmpDir "tmpa", "page_0.json")
      = Some "{products}" ∧
    filter is_page_request
      (trace (execute (CPE.main (sample_cpe "2024-05-03_020304" []))
                sound_machine left_behind))
      = [EvGet (CPE.page_url 0); EvGet (CPE.page_url 1)].
Proof.
  cbv zeta. eexists. split; [vm_compute; reflexivity|].
  split; [vm_compute; reflexivity|].
  split; vm_compute; reflexivity.
Qed.

End CpeResume.

(** ** The paginated pipeline: bounded retry with growing waits *)

Section CpeRetry.
Import Py OS Logic Spec Retention Publish.
Local Open Scope run_scope.

Context (E : CPE.env) (O : oracle) (log_file t : string).
Hypothesis Hsound : sound O.

Lemma traffic_step (st : state) (e : event) :
  traffic (step st e) = (traffic st ++ if is_traffic e then [e] else [])%list.
Proof.
  unfold traffic. simpl. rewrite fmap_app, filter_app. simpl.
  rewrite filter_cons. by destruct (is_traffic e).
Qed.

Lemma dir_exists_quiet (st : state) (e : event) :
  quiet e → dir_exists t st → dir_exists t (step st e).
Proof.
  unfold dir_exists. intros He. simpl.
  by destruct (quiet_apply (now st) e He) as [_ ->].
Qed.

Lemma dir_exists_write (st : state) (e : event) (p : path) :
  (e = EvTruncate p ∨ ∃ c, e = EvAppend p c) →
  dir_exists t st → dir_exists t (step st e).
Proof.
  unfold dir_exists. intros [->|[c ->]] Hd; simpl;
    by apply (dir_ok_store _ p _ (TmpDir t)).
Qed.

Lemma traffic_reach (φ : event → Prop) (st st' : state) :
  reach φ st st' →
  ∃ evs, Forall φ evs ∧ traffic st' = (traffic st ++ evs)%list.
Proof.
  intros (evs & [Hpast _] & Hall). exists (filter is_traffic evs). split.
  - rewrite Forall_forall in Hall. apply Forall_forall.
    intros x [_ Hx]%list_elem_of_filter. by apply Hall.
  - unfold traffic. by rewrite Hpast, fmap_app, filter_app, snapshots_events.
Qed.

Lemma wp_and_reach {A} (φ : event → Prop) (m : M A) Q st :
  emits φ m → wp O m Q st → wp O m (λ r st', Q r st' ∧ reach φ st st') st.
Proof. intros Hm HQ. split; [done|]. by apply emits_reach. Qed.

Lemma sys_sound (e : event) Q st :
  Q (Val tt) (step st e) → wp O (sys e) Q st.
Proof. intros H. apply wp_sys; [by rewrite Hsound|done]. Qed.

Lemma write_file_sound (p : path) (c : string) Q st :
  dir_ok (now st) p.1 →
  Q (Val tt) (step (step st (EvTruncate p)) (EvAppend p c)) →
  wp O (write_file p c) Q st.
Proof.
  intros Hdir HQ. unfold write_file, open_w, write.
  apply wp_bind, wp_bind, wp_get_fs. cbv beta iota.
  destruct p as [[| |n] f]; cbn [fst]; cbv beta iota.
  - apply sys_sound. cbv beta iota. by apply sys_sound.
  - apply sys_sound. cbv beta iota. by apply sys_sound.
  - rewrite bool_decide_eq_true_2 by exact Hdir.
    apply sys_sound. cbv beta iota. by apply sys_sound.
Qed.

Lemma wp_failed_attempt (p a : Z) (products : list value) (st : state) :
  good_reply (CPE.page_response E p a) = false →
  dir_exists t st →
  wp O (try_catch (CPE.fetch_page E log_file t p a products))
    (λ r st', (∃ e, r = Val (inl e)) ∧
              traffic st' = (traffic st ++ [EvGet (CPE.page_url p)])%list ∧
              dir_exists t st') st.
Proof.
  intros Hbad Hdir. unfold CPE.fetch_page, info, log.
  apply wp_try_catch.
  apply wp_bind, wp_emit. cbv beta iota.
  apply wp_bind, wp_emit. cbv beta iota.
  set (st2 := step (step st _) _).
  assert (traffic st2 = (traffic st ++ [EvGet (CPE.page_url p)])%list
          ∧ dir_exists t st2) as [Htr Hdir2].
  { split.
    - unfold st2. rewrite !traffic_step. simpl. by rewrite app_nil_r.
    - by repeat apply dir_exists_quiet. }
  clearbody st2.
  apply wp_bind.
  destruct (CPE.page_response E p a) as [data|e];
    [|apply wp_raise; eauto].
  apply wp_ret. cbv beta iota. apply wp_bind.
  destruct data as [|b|z|q|s0|l|m]; try (apply wp_raise; eauto).
  simpl in Hbad. cbn [py_get lift].
  apply wp_ret. cbv beta iota. apply wp_bind.
  destruct (assoc "products" m) as [pp|]; [|apply wp_raise; eauto].
  destruct (truthy pp) eqn:Htruthy; [|apply wp_raise; eauto].
  apply wp_skip. cbv beta iota. apply wp_bind.
  apply write_file_sound; [exact Hdir2|]. cbv beta iota.
  assert (CPE.extend products pp = Raise TypeError) as ->.
  { destruct pp as [|b|z|q|s0|l|d]; try done; simpl in *; congruence. }
  apply wp_raise.
  split; [by eauto|]. split.
  - rewrite !traffic_step. simpl. by rewrite !app_nil_r.
  - eapply dir_exists_write; [eauto|]. eapply dir_exists_write; eauto.
Qed.

Lemma wp_good_attempt (p a : Z) (products : list value) (st : state) :
  good_reply (CPE.page_response E p a) = true →
  dir_exists t st →
  wp O (try_catch (CPE.fetch_page E log_file t p a products))
    (λ r st', (∃ x, r = Val (inr x)) ∧ dir_exists t st') st.
Proof.
  intros Hgood Hdir. unfold CPE.fetch_page, info, log.
  apply wp_try_catch.
  apply wp_bind, wp_emit. cbv beta iota.
  apply wp_bind, wp_emit. cbv beta iota.
  set (st2 := step (step st _) _).
  assert (dir_exists t st2) as Hdir2 by (by repeat apply dir_exists_quiet).
  clearbody st2.
  apply wp_bind.
  destruct (CPE.page_response E p a) as [data|e]; [|done].
  destruct data as [|b|z|q|s0|l|m]; try done.
  apply wp_ret. cbv beta iota. apply wp_bind.
  simpl in Hgood. cbn [py_get lift].
  apply wp_ret. cbv beta iota. apply wp_bind.
  destruct (assoc "products" m) as [pp|]; [|done].
  assert (truthy pp = true ∧ ∃ x, CPE.extend products pp = Ret x)
    as [-> [x ->]].
  { destruct pp as [|b|z|q|s0|l|d]; try done; simpl; eauto. }
  apply wp_skip. cbv beta iota. apply wp_bind.
  apply write_file_sound; [exact Hdir2|]. cbv beta iota.
  apply wp_ret.
  split; [by eauto|].
  eapply dir_exists_write; [eauto|]. eapply dir_exists_write; eauto.
Qed.

Lemma wp_save_sound (p : Z) (st : state) :
  dir_exists t st →
  wp O (try_catch (CPE.save_checkpoint log_file t p))
    (λ r st', r = Val (inr tt) ∧ traffic st' = traffic st ∧
              dir_exists t st') st.
Proof.
  intros Hdir. unfold CPE.save_checkpoint, info, log.
  apply wp_try_catch, wp_bind, wp_emit. cbv beta iota.
  apply write_file_sound; [by apply dir_exists_quiet|].
  split; [done|]. split.
  - rewrite !traffic_step. simpl. by rewrite !app_nil_r.
  - eapply dir_exists_write; [eauto|]. eapply dir_exists_write; [eauto|].
    by apply dir_exists_quiet.
Qed.

Lemma wp_on_failure_retry (p a : Z) (st : state) :
  a < CPE.MAX_RETRIES - 1 →
  dir_exists t st →
  wp O (CPE.on_failure log_file t p a)
    (λ r st', r = Val tt ∧
              traffic st' = (traffic st ++ [EvSleep (5 * (a + 1))])%list ∧
              dir_exists t st') st.
Proof.
  intros Ha Hdir. unfold CPE.on_failure, info, log, sleep.
  apply wp_bind, wp_emit. cbv beta iota.
  destruct (Z.ltb_spec a (CPE.MAX_RETRIES - 1)) as [_|?]; [|lia].
  apply wp_bind, wp_emit. cbv beta iota. apply wp_emit.
  split; [done|]. split.
  - rewrite !traffic_step. simpl. by rewrite !app_nil_r.
  - by repeat apply dir_exists_quiet.
Qed.

Lemma wp_on_failure_abort (p a : Z) (st : state) :
  CPE.MAX_RETRIES - 1 ≤ a →
  dir_exists t st →
  wp O (CPE.on_failure log_file t p a)
    (λ r st', r = SysExit 2 ∧ traffic st' = traffic st) st.
Proof.
  intros Ha Hdir. unfold CPE.on_failure, info, log, sleep.
  apply wp_bind, wp_emit. cbv beta iota.
  destruct (Z.ltb_spec a (CPE.MAX_RETRIES - 1)) as [?|_]; [lia|].
  apply wp_bind, wp_emit. cbv beta iota.
  apply wp_bind. unfold rmtree. apply wp_bind, wp_get_fs. cbv beta iota.
  rewrite bool_decide_eq_true_2 by (by repeat apply dir_exists_quiet).
  apply sys_sound. cbv beta iota. apply wp_sys_exit.
  split; [done|]. rewrite !traffic_step. simpl. by rewrite !app_nil_r.
Qed.

(** Every attempt fails: the waits grow by five seconds per attempt, and
    after the last attempt the run exits with status 2. *)
Lemma wp_retry_loop_exhausted (k : nat) :
  ∀ (p a : Z) (products : list value) (st : state),
    0 ≤ a → a + Z.of_nat (S k) = CPE.MAX_RETRIES →
    (∀ b, a ≤ b < CPE.MAX_RETRIES →
          good_reply (CPE.page_response E p b) = false) →
    dir_exists t st →
    wp O (CPE.retry_loop E log_file t p (seqZ a (Z.of_nat (S k))) products)
      (λ r st', r = SysExit 2 ∧
                traffic st' =
                  (traffic st ++ schedule p (seqZ a (Z.of_nat (S k))))%list)
      st.
Proof.
  induction k as [|k IH]; intros p a products st Ha Hlen Hbad Hdir;
    rewrite seqZ_cons by lia; cbn [CPE.retry_loop schedule]; apply wp_bind.
  - eapply wp_mono; [|apply wp_failed_attempt; [apply Hbad; lia|done]].
    intros r st1 ([e ->] & Htr1 & Hdir1).
    apply wp_bind. eapply wp_mono; [|apply wp_on_failure_abort; [lia|done]].
    intros r st2 [-> Htr2].
    split; [done|]. rewrite Htr2, Htr1.
    destruct (Z.ltb_spec a (CPE.MAX_RETRIES - 1)); [lia|done].
  - eapply wp_mono; [|apply wp_failed_attempt; [apply Hbad; lia|done]].
    intros r st1 ([e ->] & Htr1 & Hdir1).
    apply wp_bind. eapply wp_mono; [|apply wp_on_failure_retry; [lia|done]].
    intros r st2 (-> & Htr2 & Hdir2).
    replace (Z.pred (Z.of_nat (S (S k)))) with (Z.of_nat (S k)) by lia.
    eapply wp_mono; [|apply (IH p (Z.succ a)); [lia|lia| |done]].
    + intros r st3 [-> Htr3]. split; [done|].
      rewrite Htr3, Htr2, Htr1.
      destruct (Z.ltb_spec a (CPE.MAX_RETRIES - 1)); [|lia].
      by rewrite <- !app_assoc.
    + intros b Hb. apply Hbad. lia.
Qed.

(** Some attempt succeeds: the loop goes on to the next page. *)
Lemma wp_retry_loop_succeeds (k : nat) :
  ∀ (p a : Z) (products : list value) (st : state),
    0 ≤ a → a + Z.of_nat k = CPE.MAX_RETRIES →
    (∃ b, a ≤ b < CPE.MAX_RETRIES ∧
          good_reply (CPE.page_response E p b) = true) →
    dir_exists t st →
    wp O (CPE.retry_loop E log_file t p (seqZ a (Z.of_nat k)) products)
      (λ r st', (∃ x, r = Val x) ∧ dir_exists t st') st.
Proof.
  induction k as [|k IH]; intros p a products st Ha Hlen (b & Hb & Hgood) Hdir.
  { lia. }
  rewrite seqZ_cons by lia; cbn [CPE.retry_loop]; apply wp_bind.
  destruct (good_reply (CPE.page_response E p a)) eqn:Hhere.
  - eapply wp_mono; [|by apply wp_good_attempt].
    intros r st1 ([x ->] & Hdir1).
    apply wp_bind. eapply wp_mono; [|by apply wp_save_sound].
    intros r st2 (-> & _ & Hdir2). apply wp_ret. eauto.
  - assert (a ≠ b) by congruence.
    eapply wp_mono; [|by apply wp_failed_attempt].
    intros r st1 ([e ->] & _ & Hdir1).
    apply wp_bind. eapply wp_mono; [|apply wp_on_failure_retry; [lia|done]].
    intros r st2 (-> & _ & Hdir2).
    replace (Z.pred (Z.of_nat (S k))) with (Z.of_nat k) by lia.
    apply IH; [lia|lia| |done]. exists b. split; [lia|done].
Qed.

Lemma page_url_inj (p q : Z) : CPE.page_url p = CPE.page_url q → p = q.
Proof. unfold CPE.page_url, CPE.RESULTS_PER_PAGE. intros [=]. lia. Qed.

(** The page loop from page [q], when page [p] is the first whose attempts
    all fail. *)
Lemma wp_download_pages_exhausted (len : nat) :
  ∀ (p q : Z) (products : list value) (st : state),
    q ≤ p < q + Z.of_nat len →
    (∀ q', q ≤ q' < p →
       ∃ b, 0 ≤ b < CPE.MAX_RETRIES ∧
            good_reply (CPE.page_response E q' b) = true) →
    (∀ b, 0 ≤ b < CPE.MAX_RETRIES →
          good_reply (CPE.page_response E p b) = false) →
    dir_exists t st →
    wp O (CPE.download_pages E log_file t (seqZ q (Z.of_nat len)) products)
      (λ r st', r = SysExit 2 ∧
                ∃ before,
                  Forall (λ e, e ≠ EvGet (CPE.page_url p)) before ∧
                  traffic st' =
                    (traffic st ++ before ++
                     schedule p (seqZ 0 CPE.MAX_RETRIES))%list) st.
Proof.
  induction len as [|len IH]; intros p q products st Hp Hgood Hbad Hdir;
    [lia|].
  rewrite seqZ_cons by lia. cbn [CPE.download_pages]. apply wp_bind.
  destruct (decide (q = p)) as [->|Hne].
  - eapply wp_mono;
      [|apply (wp_retry_loop_exhausted 4 p 0); [done|done| |done]].
    + intros r st1 [-> Htr]. split; [done|]. exists []. split; [done|].
      by rewrite Htr.
    + intros b Hb. apply Hbad. lia.
  - eapply wp_mono;
      [|apply (wp_and_reach (cpe_loop_event log_file t (eq q)));
        [apply emits_retry_loop
        |apply (wp_retry_loop_succeeds 5 q 0); [done|done| |done]]].
    2: { destruct (Hgood q) as (b & Hb & Hgoodb); [lia|]. by exists b. }
    intros r st1 [([x ->] & Hdir1) Hreach].
    apply traffic_reach in Hreach as (evs & Hevs & Htr1).
    apply wp_bind. unfold sleep. apply wp_emit. cbv beta iota.
    replace (Z.pred (Z.of_nat (S len))) with (Z.of_nat len) by lia.
    eapply wp_mono; [|apply (IH p (Z.succ q)); [lia| |done|]].
    + intros r st2 (-> & before & Hbefore & Htr2). split; [done|].
      exists (evs ++ EvSleep CPE.SLEEP_BETWEEN_REQUESTS :: before)%list.
      split.
      * apply Forall_app. split.
        -- eapply Forall_impl; [exact Hevs|]. intros e He ->.
           destruct He as (q' & <- & Hurl). by apply page_url_inj in Hurl.
        -- by constructor.
      * rewrite Htr2, traffic_step, Htr1. simpl.
        by rewrite <- !app_assoc.
    + intros q' Hq'. apply Hgood. lia.
    + by apply dir_exists_quiet.
Qed.

End CpeRetry.

Section CpeRetryMain.
Import Py OS Logic Spec Retention Publish.
Local Open Scope run_scope.

Context (E : CPE.env) (O : oracle).

(** C4: on a machine without faults, when every attempt to fetch page [p]
    fails (the request raises, or the reply holds no usable products) and
    the pages before it were fetched, the CPE run requests page [p] five
    times and no more, waits 5, 10, 15 and 20 seconds between the attempts
    (five seconds times the number of the failed attempt), and exits with
    status 2. *)
Theorem cpe_retries_then_aborts (s : fs) (n p : Z) (t : string) :
  sound O →
  planned_pages E = Some n →
  0 ≤ p < n →
  first_free s (CPE.tmp_candidates E) = Some t →
  (∀ q, 0 ≤ q < p →
     ∃ b, 0 ≤ b < CPE.MAX_RETRIES ∧
          good_reply (CPE.page_response E q b) = true) →
  (∀ b, 0 ≤ b < CPE.MAX_RETRIES →
        good_reply (CPE.page_response E p b) = false) →
  let r := execute (CPE.main E) O s in
  end_of r = Exited 2 ∧
  exit_status (end_of r) ≠ 0 ∧
  ∃ before,
    Forall (λ e, e ≠ EvGet (CPE.page_url p)) before ∧
    filter is_traffic (trace r) =
      (before ++
       [EvGet (CPE.page_url p); EvSleep 5;
        EvGet (CPE.page_url p); EvSleep 10;
        EvGet (CPE.page_url p); EvSleep 15;
        EvGet (CPE.page_url p); EvSleep 20;
        EvGet (CPE.page_url p)])%list.
Proof.
  intros Hsound Hplan Hp Hfree Hgood Hbad. cbv zeta. apply execute_wp.
  change (wp O (CPE.main E)
            (λ r st,
               end_of (outcome_of r st) = Exited 2 ∧
               exit_status (end_of (outcome_of r st)) ≠ 0 ∧
               ∃ before,
                 Forall (λ e, e ≠ EvGet (CPE.page_url p)) before ∧
                 traffic st =
                   (before ++ schedule p (seqZ 0 CPE.MAX_RETRIES))%list)
            (initial s)).
  unfold planned_pages in Hplan.
  destruct (CPE.probe E) as [meta|] eqn:Hprobe; [|done].
  destruct (py_get meta "totalResults" (VInt 0)) as [total_results|]
    eqn:Hget; [|done].
  destruct (truthy total_results) eqn:Htruthy; [|done].
  destruct (CPE.total_pages_of E total_results) as [total_pages|]
    eqn:Htotal; [|done].
  destruct meta as [|b|z|q|s0|l|meta]; try done.
  unfold CPE.main, info, log. cbv zeta. rewrite Hprobe.
  do 4 (apply wp_bind, wp_emit; cbv beta iota).
  apply wp_bind, wp_emit; cbv beta iota.
  apply wp_bind, wp_ret; cbv beta iota.
  rewrite Hget. apply wp_bind, wp_ret; cbv beta iota.
  cbn [py_get lift].
  do 3 (apply wp_bind, wp_ret; cbv beta iota).
  rewrite Htruthy. apply wp_bind, wp_skip; cbv beta iota.
  apply wp_bind, wp_emit; cbv beta iota.
  rewrite Htotal. apply wp_bind, wp_ret; cbv beta iota.
  set (st0 := step _ _).
  assert (traffic st0 = [EvGet CPE.probe_url] ∧
          data_dir (now st0) = data_dir s ∧
          tmp_dirs (now st0) = tmp_dirs s) as (Htr0 & Hdata0 & Htmp0) by done.
  clearbody st0.
  apply wp_bind.
  apply (wp_mono O _ (λ r st', r = Val (VInt n) ∧ traffic st' = traffic st0 ∧
           data_dir (now st') = data_dir (now st0) ∧
           tmp_dirs (now st') = tmp_dirs (now st0))).
  2: { destruct (_ && _).
       - injection Hplan as <-. apply wp_bind, wp_emit; cbv beta iota.
         apply wp_ret. split; [done|]. rewrite traffic_step. simpl.
         by rewrite app_nil_r.
       - destruct total_pages; try done. injection Hplan as <-.
         by apply wp_ret. }
  intros r st1 (-> & Htr1 & Hdata1 & Htmp1).
  apply wp_bind, wp_emit; cbv beta iota.
  apply wp_bind. unfold mkdtemp. apply wp_bind, wp_get_fs; cbv beta iota.
  rewrite (first_free_ext s) by (simpl; congruence). rewrite Hfree.
  apply wp_bind, sys_sound; [done|]. cbv beta iota. apply wp_ret.
  cbv beta iota.
  set (st2 := step (step st1 _) _).
  assert (traffic st2 = [EvGet CPE.probe_url] ∧ dir_exists t st2 ∧
          ∀ f, lookup_file (now st2) (TmpDir t, f) = None)
    as (Htr2 & Hdir2 & Hempty2).
  { split; [|split].
    - unfold st2. rewrite !traffic_step. simpl. rewrite !app_nil_r. congruence.
    - unfold dir_exists, st2. simpl. rewrite lookup_insert_eq. by eexists.
    - intros f. unfold lookup_file, st2. simpl. by rewrite lookup_insert_eq. }
  clearbody st2.
  apply wp_bind. unfold CPE.load_checkpoint.
  apply wp_file_exists_false; [apply Hempty2|]. apply wp_ret. cbv beta iota.
  cbn [CPE.page_range lift]. apply wp_bind, wp_ret. cbv beta iota.
  rewrite (seqZ_to_nat 0), Z.sub_0_r. apply wp_bind.
  eapply wp_mono;
    [|apply (wp_download_pages_exhausted E O _ t Hsound _ p 0);
      [lia|done|done|done]].
  intros r st3 (-> & before & Hbefore & Htr3).
  split; [done|]. split; [done|].
  exists (EvGet CPE.probe_url :: before). split.
  - constructor; [|done]. unfold CPE.probe_url, CPE.page_url. intros [=].
  - by rewrite Htr3, Htr2.
Qed.
End CpeRetryMain.

Section CpeRetryWitness.
Import Py OS Logic Spec.

Lemma cpe_retries_then_aborts_witness :
  end_of (execute (CPE.main (sample_cpe "2024-05-03_010203" [1]))
            sound_machine empty_fs) = Exited 2.
Proof.
  destruct (cpe_retries_then_aborts (sample_cpe "2024-05-03_010203" [1])
              sound_machine empty_fs 2 1 "tmpa") as [H _].
  - intros e. reflexivity.
  - reflexivity.
  - lia.
  - reflexivity.
  - intros q Hq. exists 0. split; [vm_compute; done|].
    assert (q = 0) as -> by lia. reflexivity.
  - intros b Hb. reflexivity.
  - exact H.
Defined.

End CpeRetryWitness.

(** ** Retention of logs *)

Section PipelineSteps.
Import Py OS Logic Spec Retention Publish.
Local Open Scope run_scope.

Lemma emits_sync_or_clone_repo (φ : event → Prop) (E : Vuln.env)
    (log_file : string) :
  (∀ level msg, φ (EvLog log_file level msg)) →
  (∀ line, φ (EvPrint line)) →
  (∀ cmd, φ (EvRun cmd)) →
  emits φ (Vuln.sync_or_clone_repo E log_file).
Proof.
  intros H1 H2 H3. unfold Vuln.sync_or_clone_repo.
  destruct (Vuln.has_clone E); emits_with ltac:(done).
Qed.

Lemma emits_emit_record (φ : event → Prop) (R : Vuln.repo)
    (output_csv log_file : string) (f : list string) (counts : nat * nat) :
  (∀ c, φ (EvAppend (DataDir, output_csv) c)) →
  (∀ level msg, φ (EvLog log_file level msg)) →
  emits φ (Vuln.emit_record R output_csv log_file f counts).
Proof. intros H1 H2. unfold Vuln.emit_record. emits_with ltac:(done). Qed.

Lemma emits_csv_from_vulnrichment (φ : event → Prop) (R : Vuln.repo)
    (output_csv log_file : string) :
  φ (EvTruncate (DataDir, output_csv)) →
  (∀ c, φ (EvAppend (DataDir, output_csv) c)) →
  (∀ level msg, φ (EvLog log_file level msg)) →
  emits φ (Vuln.csv_from_vulnrichment R output_csv log_file).
Proof.
  intros H1 H2 H3. unfold Vuln.csv_from_vulnrichment.
  apply emits_bind; [by apply emits_open_w|intros _].
  apply emits_bind; [by apply emits_write|intros _].
  apply emits_bind; [|intros _; by apply emits_info].
  apply emits_fold_m. intros y counts.
  destruct (Vuln.is_dir R [y]); [|apply emits_ret].
  apply emits_fold_m. intros d counts'.
  destruct (Vuln.is_dir R [y; d]); [|apply emits_ret].
  apply emits_fold_m. intros f counts''. by apply emits_emit_record.
Qed.

Lemma emits_raise_for_status (φ : event → Prop) (r : EPSS.response) :
  emits φ (EPSS.raise_for_status r).
Proof.
  unfold EPSS.raise_for_status.
  destruct (_ && _); [apply emits_raise|apply emits_skip].
Qed.

End PipelineSteps.

Section Logs.
Import Py OS Logic Spec Retention Publish.
Local Open Scope run_scope.

Context (O : oracle).
Hypothesis Hremove : ∀ n, faulty O (EvRemove (LogDir, n)) = false.

Lemma log_dir_store_other (s : fs) (p : path) (c : string) :
  p.1 ≠ LogDir → log_dir (store_file s p c) = log_dir s.
Proof.
  destruct p as [[| |n] f]; unfold store_file; simpl; try done.
  intros _. by destruct (tmp_dirs s !! n).
Qed.

Lemma log_dir_delete_other (s : fs) (p : path) :
  p.1 ≠ LogDir → log_dir (delete_file s p) = log_dir s.
Proof.
  destruct p as [[| |n] f]; unfold delete_file; simpl; try done.
  intros _. by destruct (tmp_dirs s !! n).
Qed.

Lemma keeps_logs_apply (l : string) (s : fs) (e : event) :
  keeps_logs l e → l ∈ dom (log_dir s) →
  dom (log_dir (apply_event s e)) = dom (log_dir s).
Proof.
  intros He Hl.
  destruct e as [f level msg|line|u|u|n|cmd|n|q|q c|q|src dst|n];
    simpl in *; try done.
  - subst f. unfold store_file; simpl. rewrite dom_insert_L. set_solver.
  - by rewrite log_dir_store_other.
  - by rewrite log_dir_store_other.
  - by rewrite log_dir_delete_other.
  - destruct He as [Hsrc Hdst]. destruct (lookup_file s src); [|done].
    by rewrite log_dir_store_other, log_dir_delete_other.
Qed.

Lemma keeps_logs_reach (l : string) (st st' : state) :
  reach (keeps_logs l) st st' → l ∈ log_names st →
  log_names st' = log_names st.
Proof.
  unfold log_names. intros (evs & [_ ->] & Hall). generalize (now st) as s.
  induction Hall as [|e evs He _ IH]; intros s Hl; [done|].
  change (replay s (e :: evs)) with (replay (apply_event s e) evs).
  rewrite IH; rewrite (keeps_logs_apply l); done.
Qed.

Lemma log_names_remove (st : state) (n : string) :
  log_names (step st (EvRemove (LogDir, n))) = log_names st ∖ {[n]}.
Proof. unfold log_names; simpl. unfold delete_file; simpl. by rewrite dom_delete_L. Qed.

Lemma log_file_listed (s : fs) (n : string) :
  is_Some (lookup_file s (LogDir, n)) ↔ n ∈ dom (log_dir s).
Proof. unfold lookup_file; simpl. by rewrite elem_of_dom. Qed.

Lemma wp_os_remove_log (n : string) Q (st : state) :
  n ∈ log_names st →
  Q (Val tt) (step st (EvRemove (LogDir, n))) →
  wp O (os_remove (LogDir, n)) Q st.
Proof.
  intros Hn HQ. unfold os_remove. apply wp_bind, wp_get_fs. cbv beta iota.
  rewrite bool_decide_eq_true_2 by by apply log_file_listed.
  apply wp_sys; [by rewrite Hremove|done].
Qed.

Lemma wp_logs_only (l : string) (m : M unit) Q (st : state) :
  logs_only l m → l ∈ log_names st →
  (∀ st', log_names st' = log_names st → Q (Val tt) st') →
  wp O m Q st.
Proof.
  intros Hm Hl HQ. destruct (Hm O st) as [Hval Hreach].
  unfold wp. rewrite Hval. by apply HQ, (keeps_logs_reach l).
Qed.

(** The pruning loop removes exactly the names it is given. *)
Lemma wp_prune_loop (l : string) (removed failed : string → M unit)
    (olds : list string) (st : state) :
  (∀ old, logs_only l (removed old)) →
  NoDup olds → l ∉ olds → l ∈ log_names st →
  (∀ n, n ∈ olds → n ∈ log_names st) →
  wp O (for_each olds (λ old,
          r ← try_catch (os_remove (LogDir, old);; removed old);
          match r with
          | inl _ => failed old
          | inr _ => skip
          end))
    (λ r st', r = Val tt ∧ log_names st' = log_names st ∖ list_to_set olds) st.
Proof.
  intros Hcb. revert st.
  induction olds as [|old olds IH]; intros st Hnodup Hl Hin Hall.
  - apply wp_skip. split; [done|]. set_solver.
  - apply NoDup_cons in Hnodup as [Hold Hnodup].
    apply not_elem_of_cons in Hl as [Hne Hl].
    cbn [for_each]. apply wp_bind, wp_bind, wp_try_catch, wp_bind.
    apply wp_os_remove_log; [apply Hall; left|].
    apply (wp_logs_only l); [done|rewrite log_names_remove; set_solver|].
    intros st1 Hst1. rewrite log_names_remove in Hst1.
    apply wp_skip.
    eapply wp_mono; [|apply IH; try done].
    + intros r st' [-> ->]. split; [done|]. rewrite Hst1. set_solver.
    + rewrite Hst1. set_solver.
    + intros n Hn. rewrite Hst1.
      apply elem_of_difference. split; [apply Hall; by right|].
      set_solver.
Qed.

#[local] Instance falling_total : Total (flip String.le).
Proof. intros x y. destruct (total String.le x y); [by right|by left]. Qed.

#[local] Instance falling_trans : Transitive (flip String.le).
Proof. intros a b c Hab Hbc. exact (transitivity (R:=String.le) Hbc Hab). Qed.

#[local] Instance falling_antisymm : AntiSymm (=) (flip String.le).
Proof. intros a b Hab Hba. by apply (anti_symm String.le). Qed.

Lemma sorted_reverse_sorted (l : list string) :
  Sorted (flip String.le) (sorted_reverse l).
Proof. unfold sorted_reverse. apply (Sorted_merge_sort (flip String.le)). Qed.

Lemma sorted_reverse_permutation (l : list string) : sorted_reverse l ≡ₚ l.
Proof. apply merge_sort_Permutation. Qed.

(** In a list without repetition in falling order, a member above all the
    others stands first. *)
Lemma falling_head (L : list string) (l : string) :
  Sorted (flip String.le) L → NoDup L → l ∈ L →
  (∀ n, n ∈ L → String.le n l) →
  ∃ L', L = l :: L' ∧ l ∉ L'.
Proof.
  intros Hsorted Hnodup Hl Hmax. destruct L as [|x L']; [by inv Hl|].
  apply NoDup_cons in Hnodup as [Hx _].
  assert (x = l) as ->; [|by exists L'].
  apply elem_of_cons in Hl as [->|Hl]; [done|].
  apply (anti_symm String.le); [apply Hmax; left|].
  apply (Sorted_StronglySorted (flip String.le)) in Hsorted.
  inv Hsorted.
  match goal with H : Forall _ L' |- _ => rewrite Forall_forall in H; by apply H end.
Qed.

Lemma falling_unique (L1 L2 : list string) :
  Sorted (flip String.le) L1 → Sorted (flip String.le) L2 →
  NoDup L1 → NoDup L2 → (∀ n, n ∈ L1 ↔ n ∈ L2) → L1 = L2.
Proof.
  intros H1 H2 Hn1 Hn2 Hsame.
  apply (Sorted_unique (flip String.le)); try done.
  by apply NoDup_Permutation.
Qed.

Lemma take_drop_split (L : list string) (k : nat) (n : string) :
  NoDup L → n ∈ take k L ↔ n ∈ L ∧ n ∉ drop k L.
Proof.
  intros Hnodup. rewrite <- (take_drop k L) in Hnodup at 1.
  apply NoDup_app in Hnodup as (_ & Hdisj & _).
  rewrite <- (take_drop k L) at 2. rewrite elem_of_app. naive_solver.
Qed.

(** The pruning block keeps the [keep] greatest names among the log files
    of the pipeline, and every other file of the directory. *)
Lemma wp_prune_logs (l prefix : string) (keep : nat)
    (removed failed : string → M unit) (st : state) :
  (∀ old, logs_only l (removed old)) →
  (0 < keep)%nat → is_log prefix l = true → l ∈ log_names st →
  (∀ n, n ∈ log_names st → is_log prefix n = true → String.le n l) →
  wp O (prune_logs prefix keep removed failed)
    (λ r st', r = Val tt ∧ l ∈ log_names st' ∧
       ∃ L, Sorted (flip String.le) L ∧ NoDup L ∧
         (∀ n, n ∈ L ↔ n ∈ log_names st ∧ is_log prefix n = true) ∧
         log_names st' = log_names st ∖ list_to_set (drop keep L)) st.
Proof.
  intros Hcb Hkeep Hlog Hl Hmax. unfold prune_logs.
  apply wp_bind. unfold listdir. apply wp_bind, wp_get_fs. cbv beta iota.
  apply wp_ret. cbv beta iota.
  set (L := sorted_reverse (filter (λ f, is_log prefix f) (names (log_dir (now st))))).
  assert (∀ n, n ∈ L ↔ n ∈ log_names st ∧ is_log prefix n = true) as HL.
  { intros n. unfold L. rewrite sorted_reverse_permutation.
    rewrite list_elem_of_filter. unfold names, log_names.
    rewrite elem_of_dom, list_elem_of_fmap.
    split.
    - intros [Hn ([n' v] & -> & Hv)]. split; [|by apply Is_true_eq_true].
      exists v. by apply elem_of_map_to_list in Hv.
    - intros [[v Hv] Hn]. split; [by apply Is_true_eq_left|].
      exists (n, v). split; [done|]. by apply elem_of_map_to_list. }
  assert (NoDup L) as Hnodup.
  { unfold L. rewrite sorted_reverse_permutation. apply NoDup_filter.
    apply NoDup_fst_map_to_list. }
  pose proof (sorted_reverse_sorted
    (filter (λ f, is_log prefix f) (names (log_dir (now st))))) as Hsorted.
  fold L in Hsorted.
  destruct (falling_head L l) as (L' & HL' & HlL'); try done.
  { by apply HL. }
  { intros n Hn. apply HL in Hn as [Hn1 Hn2]. by apply Hmax. }
  assert (l ∉ drop keep L) as Hdrop.
  { rewrite HL'. destruct keep as [|k]; [lia|]. simpl.
    intros Hin. apply HlL'. by apply (subseteq_drop k L'). }
  eapply wp_mono; [|apply (wp_prune_loop l); try done].
  - intros r st' [-> Hst']. split; [done|]. split.
    + rewrite Hst'. set_solver.
    + by exists L.
  - apply (sublist_NoDup (drop keep L) L); [done|apply sublist_drop].
  - intros n Hn. apply (subseteq_drop keep L) in Hn.
    by apply HL in Hn as [? _].
Qed.

Lemma log_names_log (st : state) (l level msg : string) :
  log_names (step st (EvLog l level msg)) = log_names st ∪ {[l]}.
Proof.
  unfold log_names; simpl. unfold store_file; simpl.
  rewrite dom_insert_L. set_solver.
Qed.

(** The end of a run: the pruning block, then steps that leave the log
    directory alone. *)
Lemma wp_prune_then (l prefix : string) (keep : nat)
    (removed failed : string → M unit) (k : M unit) (st0 st : state) :
  (∀ old, logs_only l (removed old)) →
  (0 < keep)%nat → is_log prefix l = true → l ∈ log_names st0 →
  latest prefix l (log_names st0) →
  reach (keeps_logs l) st0 st →
  emits (keeps_logs l) k →
  wp O (prune_logs prefix keep removed failed;; k)
    (λ r st', r = Val tt →
       retained prefix keep (log_names st0) (log_names st')) st.
Proof.
  intros Hcb Hkeep Hlog Hl Hmax Hreach Hk.
  apply (keeps_logs_reach l) in Hreach; [|done].
  apply wp_bind. eapply wp_mono; [|apply (wp_prune_logs l); try done].
  - intros r st1 (-> & Hl1 & L & Hsorted & Hnodup & HL & Hst1).
    apply (wp_emits (keeps_logs l) O k _ st1 st1); [done|apply reach_refl|].
    intros r st2 Hst2 _. apply (keeps_logs_reach l) in Hst2; [|done].
    exists L. rewrite Hst2, Hst1, <- Hreach. split_and!; try done.
  - by rewrite Hreach.
  - by rewrite Hreach.
Qed.

Lemma logs_only_silent (l old : string) : logs_only l (silent old).
Proof. intros O' st. split; [done|apply reach_refl]. Qed.

Lemma logs_only_info (l msg : string) : logs_only l (info l msg).
Proof.
  intros O' st. split; [done|].
  exists [EvLog l "INFO" msg]. split; [apply extends_step|].
  by repeat constructor.
Qed.

Lemma cpe_loop_keeps_logs (l t : string) (P : Z → Prop) (e : event) :
  cpe_loop_event l t P e → keeps_logs l e.
Proof. destruct e; simpl; try done; by intros ->. Qed.

Lemma is_log_name (prefix ts : string) :
  is_log prefix (prefix +:+ ts +:+ ".log") = true.
Proof.
  unfold is_log. rewrite startswith_append. simpl.
  rewrite <- append_assoc. apply endswith_append.
Qed.

Lemma cpe_run_retains (E : CPE.env) (s : fs) :
  let l := CPE.log_name (CPE.timestamp E) in
  latest "cpes_download_" l (dom (log_dir s) ∪ {[l]}) →
  wp O (CPE.main E)
    (λ r st', r = Val tt →
       retained "cpes_download_" 3 (dom (log_dir s) ∪ {[l]}) (log_names st'))
    (initial s).
Proof.
  intros l Hmax. unfold CPE.main. cbv zeta. fold l.
  apply wp_bind, wp_emit.
  set (st0 := step (initial s) _).
  assert (log_names st0 = dom (log_dir s) ∪ {[l]}) as Hst0
    by apply log_names_log.
  rewrite <- Hst0 in *. clearbody st0.
  assert (∀ (r : result unit) st', aborted r → reach (keeps_logs l) st0 st' →
            r = Val tt → retained "cpes_download_" 3 (log_names st0) (log_names st'))
    as Habort by (by intros [] ? []).
  pose proof (reach_refl (keeps_logs l) st0) as Hreach.
  walk_with ltac:(first
    [ by simpl
    | apply emits_load_checkpoint
    | apply emits_clean_timestamped; by simpl
    | eapply emits_mono; [|apply emits_download_pages];
      apply cpe_loop_keeps_logs ]).
  apply (wp_prune_then l); try done.
  - apply logs_only_silent.
  - lia.
  - apply is_log_name.
  - rewrite Hst0. set_solver.
  - emits_with ltac:(by simpl).
Qed.

Lemma epss_run_retains (E : EPSS.env) (s : fs) :
  let l := EPSS.log_name (EPSS.timestamp E) in
  latest "epss_download_" l (dom (log_dir s) ∪ {[l]}) →
  wp O (EPSS.main E)
    (λ r st', r = Val tt →
       retained "epss_download_" 3 (dom (log_dir s) ∪ {[l]}) (log_names st'))
    (initial s).
Proof.
  intros l Hmax. unfold EPSS.main. cbv zeta. fold l.
  apply wp_bind, wp_emit.
  set (st0 := step (initial s) _).
  assert (log_names st0 = dom (log_dir s) ∪ {[l]}) as Hst0
    by apply log_names_log.
  rewrite <- Hst0 in *. clearbody st0.
  assert (∀ (r : result unit) st', aborted r → reach (keeps_logs l) st0 st' →
            r = Val tt → retained "epss_download_" 3 (log_names st0) (log_names st'))
    as Habort by (by intros [] ? []).
  pose proof (reach_refl (keeps_logs l) st0) as Hreach.
  walk_with ltac:(first [by simpl|apply emits_raise_for_status]).
  apply (wp_prune_then l); try done.
  - intros old. apply logs_only_info.
  - lia.
  - apply is_log_name.
  - rewrite Hst0. set_solver.
  - emits_with ltac:(by simpl).
Qed.

Lemma vuln_run_retains (E : Vuln.env) (s : fs) :
  let l := Vuln.log_name (Vuln.timestamp E) in
  latest "vulnrichment_git_download_" l (dom (log_dir s) ∪ {[l]}) →
  wp O (Vuln.main E)
    (λ r st', r = Val tt →
       retained "vulnrichment_git_download_" 5 (dom (log_dir s) ∪ {[l]})
         (log_names st'))
    (initial s).
Proof.
  intros l Hmax. unfold Vuln.main. cbv zeta. fold l.
  apply wp_bind. unfold Vuln.announce at 1. apply wp_bind, wp_emit.
  set (st0 := step (initial s) _).
  assert (log_names st0 = dom (log_dir s) ∪ {[l]}) as Hst0
    by apply log_names_log.
  rewrite <- Hst0 in *. clearbody st0.
  assert (∀ (r : result unit) st', aborted r → reach (keeps_logs l) st0 st' →
            r = Val tt →
            retained "vulnrichment_git_download_" 5 (log_names st0)
              (log_names st'))
    as Habort by (by intros [] ? []).
  pose proof (reach_refl (keeps_logs l) st0) as Hreach.
  apply wp_emit.
  assert (reach (keeps_logs l) st0 (step st0 (EvPrint ("INFO" +:+ " " +:+
            "=== CISA VULNRICHMENT GIT SYNC STARTED ===")))) as Hreach'.
  { eexists [_]. split; [apply extends_step|by repeat constructor]. }
  clear Hreach. revert Hreach'. generalize (step st0 (EvPrint ("INFO" +:+ " " +:+
            "=== CISA VULNRICHMENT GIT SYNC STARTED ==="))).
  intros st1 Hreach.
  walk_with ltac:(first
    [ by simpl
    | apply emits_sync_or_clone_repo; by simpl
    | apply emits_csv_from_vulnrichment; by simpl ]).
  apply (wp_prune_then l); try done.
  - apply logs_only_silent.
  - lia.
  - apply is_log_name.
  - rewrite Hst0. set_solver.
  - emits_with ltac:(by simpl).
Qed.

End Logs.

Section Retained.
Import Py OS Logic Spec Retention Publish.
Local Open Scope run_scope.

#[local] Instance earlier_trans : Transitive earlier.
Proof.
  intros a b c [Hab Hne] [Hbc Hne']. split; [by etrans|].
  intros ->. apply Hne. by apply (anti_symm String.le).
Qed.

#[local] Instance later_trans : Transitive (flip earlier).
Proof. intros a b c Hab Hbc. exact (transitivity (R:=earlier) Hbc Hab). Qed.

Lemma later_falling (F : list string) :
  StronglySorted (flip earlier) F →
  StronglySorted (flip String.le) F ∧ NoDup F.
Proof.
  induction 1 as [|x F _ [IH1 IH2] Hx]; [split; constructor|].
  rewrite Forall_forall in Hx. split.
  - constructor; [done|]. apply Forall_forall. intros n Hn. by apply Hx.
  - constructor; [|done]. intros Hin. by destruct (Hx x Hin).
Qed.

Lemma StronglySorted_take {A} (R : relation A) (k : nat) (l : list A) :
  StronglySorted R l → StronglySorted R (take k l).
Proof.
  intros H. rewrite <- (take_drop k l) in H.
  by apply StronglySorted_app_1_l in H.
Qed.

Lemma run_retains (p : pipeline) (j : job p) (s : fs) :
  removes_logs j.2 →
  end_of (run_job j s) = Completed →
  let l := log_name_of p j.1 in
  latest (log_prefix p) l (dom (log_dir s) ∪ {[l]}) →
  retained (log_prefix p) (keep p) (dom (log_dir s) ∪ {[l]})
    (dom (log_dir (final (run_job j s)))).
Proof.
  destruct j as [E O']. simpl. intros Hrm Hend Hmax.
  revert Hend. unfold run_job. simpl. apply execute_wp.
  destruct p; simpl in *.
  - eapply wp_mono; [|by apply cpe_run_retains].
    intros [[]|e|c] st H; simpl; try done. intros _. by apply H.
  - eapply wp_mono; [|by apply epss_run_retains].
    intros [[]|e|c] st H; simpl; try done. intros _. by apply H.
  - eapply wp_mono; [|by apply vuln_run_retains].
    intros [[]|e|c] st H; simpl; try done. intros _. by apply H.
Qed.

Lemma log_name_is_log (p : pipeline) (E : env_of p) :
  is_log (log_prefix p) (log_name_of p E) = true.
Proof. destruct p; apply is_log_name. Qed.

(** One completed run, on a directory that holds the latest [keep] of the
    earlier names [F] (latest first), leaves the latest [keep] of the names
    with its own added. *)
Lemma run_retains_latest (p : pipeline) (j : job p) (s : fs)
    (F : list string) :
  removes_logs j.2 →
  end_of (run_job j s) = Completed →
  StronglySorted (flip earlier) (log_name_of p j.1 :: F) →
  logs_of p s = list_to_set (take (keep p) F) →
  logs_of p (final (run_job j s)) =
    list_to_set (take (keep p) (log_name_of p j.1 :: F)).
Proof.
  intros Hrm Hend Hsorted Hlogs. set (l := log_name_of p j.1) in *.
  pose proof Hsorted as Hfall. apply StronglySorted_cons in Hfall as [Hl HF].
  rewrite Forall_forall in Hl.
  destruct (run_retains p j s Hrm Hend) as (L & HLs & HLn & HL & Hafter).
  { intros n Hn Hlog. apply elem_of_union in Hn as [Hn|Hn].
    - assert (n ∈ logs_of p s) as Hin by (by apply elem_of_filter).
      rewrite Hlogs, elem_of_list_to_set in Hin.
      apply (subseteq_take (keep p) F) in Hin. by destruct (Hl n Hin).
    - apply elem_of_singleton in Hn as ->. done. }
  fold l in HL, Hafter.
  assert (0 < keep p)%nat as Hkeep by (destruct p; simpl; lia).
  assert (take (keep p) (l :: F) = l :: take (keep p - 1) F) as Htake.
  { destruct (keep p); [lia|]. simpl. by rewrite Nat.sub_0_r. }
  assert (L = l :: take (keep p) F) as ->.
  { destruct (later_falling (l :: take (keep p) F)) as [Hs Hn].
    { apply StronglySorted_cons. split.
      - apply Forall_forall. intros n Hn. apply Hl.
        by apply (subseteq_take (keep p) F).
      - by apply StronglySorted_take. }
    apply falling_unique; try done.
    { by apply StronglySorted_Sorted. }
    intros n. rewrite HL, elem_of_cons, elem_of_union, elem_of_singleton.
    rewrite <- (elem_of_list_to_set (C:=gset string)), <- Hlogs.
    unfold logs_of. rewrite elem_of_filter.
    pose proof (log_name_is_log p j.1) as Hlog. fold l in Hlog.
    naive_solver. }
  apply set_eq. intros n. unfold logs_of at 1.
  rewrite elem_of_filter, Hafter, elem_of_difference, !elem_of_list_to_set.
  assert (take (keep p) (l :: F) = take (keep p) (l :: take (keep p) F))
    as ->.
  { rewrite Htake. destruct (keep p) as [|k]; [lia|]. simpl.
    rewrite Nat.sub_0_r. by rewrite take_take, Nat.min_l by lia. }
  rewrite (take_drop_split (l :: take (keep p) F) (keep p)) by done.
  rewrite HL. naive_solver.
Qed.

Lemma after_runs_retain (p : pipeline) (jobs : list (job p)) (s : fs)
    (done : list string) :
  Forall (λ j, removes_logs j.2) jobs →
  all_complete jobs s →
  increasing (done ++ log_names_of jobs)%list →
  logs_of p s = list_to_set (latest_of (keep p) done) →
  logs_of p (after_runs jobs s) =
    list_to_set (latest_of (keep p) (done ++ log_names_of jobs)%list).
Proof.
  revert s done. induction jobs as [|j jobs IH]; intros s done Hrm Hall Hinc Hs.
  { simpl. by rewrite app_nil_r. }
  destruct Hall as [Hend Hall]. apply Forall_cons in Hrm as [Hrm1 Hrm].
  simpl. replace (done ++ log_name_of p j.1 :: log_names_of jobs)%list
    with ((done ++ [log_name_of p j.1]) ++ log_names_of jobs)%list
    by (by rewrite <- app_assoc).
  apply IH; try done.
  { by rewrite <- app_assoc. }
  unfold latest_of. rewrite reverse_app. simpl.
  apply run_retains_latest; try done.
  change (log_name_of p j.1 :: reverse done)
    with (reverse [log_name_of p j.1] ++ reverse done)%list.
  rewrite <- reverse_app.
  apply (Sorted_StronglySorted (flip earlier)), Sorted_reverse.
  apply StronglySorted_Sorted.
  apply (Sorted_StronglySorted earlier) in Hinc.
  simpl in Hinc.
  replace (done ++ log_name_of p j.1 :: log_names_of jobs)%list
    with ((done ++ [log_name_of p j.1]) ++ log_names_of jobs)%list in Hinc
    by (by rewrite <- app_assoc).
  by apply StronglySorted_app_1_l in Hinc.
Qed.

(** C8 (amended): runs of a pipeline that follow one another, each of them
    completing, on machines that refuse no removal in the log directory,
    stamped with names in rising order and started on a directory with no
    log of the pipeline, leave exactly the latest [keep] of their logs:
    [min N keep] files, where [keep] is 3 for the CPE and EPSS scripts and 5
    for the vulnrichment script. *)
Theorem log_retention_after_completed_runs (p : pipeline)
    (jobs : list (job p)) (s : fs) :
  logs_of p s = ∅ →
  Forall (λ j, removes_logs j.2) jobs →
  all_complete jobs s →
  increasing (log_names_of jobs) →
  logs_of p (after_runs jobs s) =
    list_to_set (latest_of (keep p) (log_names_of jobs)) ∧
  size (logs_of p (after_runs jobs s)) = Nat.min (length jobs) (keep p).
Proof.
  intros Hs Hrm Hall Hinc.
  pose proof (after_runs_retain p jobs s [] Hrm Hall Hinc) as H.
  simpl in H. rewrite H.
  2: { rewrite Hs. unfold latest_of. by rewrite reverse_nil, take_nil. }
  split; [done|].
  assert (NoDup (latest_of (keep p) (log_names_of jobs))) as Hnodup.
  { apply Sorted_reverse, (Sorted_StronglySorted (flip earlier)) in Hinc.
    apply (StronglySorted_take _ (keep p)) in Hinc.
    by apply later_falling in Hinc as [_ ?]. }
  rewrite size_list_to_set by done.
  unfold latest_of, log_names_of.
  rewrite length_take, length_reverse, length_fmap. apply Nat.min_comm.
Qed.

End Retained.

Section RetainedInstances.
Import Py OS Logic Spec Retention Publish.

Lemma log_retention_after_completed_runs_witness :
  logs_of Epss (after_runs (sample_jobs 200) empty_fs) =
    list_to_set (latest_of 3 (log_names_of (sample_jobs 200))) ∧
  size (logs_of Epss (after_runs (sample_jobs 200) empty_fs)) = 3%nat.
Proof.
  apply (log_retention_after_completed_runs Epss (sample_jobs 200) empty_fs).
  - by vm_compute.
  - repeat constructor.
  - vm_compute. repeat split.
  - repeat constructor; by vm_compute.
Defined.

(** Three completed EPSS runs and a fourth that the service answers with
    404: the fourth writes its log and exits before the pruning block, so
    four logs remain where the retention setting is three. *)
Lemma log_retention_after_failed_run :
  let jobs := sample_jobs 404 in
  logs_of Epss empty_fs = ∅ ∧
  increasing (log_names_of jobs) ∧
  all_complete (take 3 jobs) empty_fs ∧
  end_of (@run_job Epss (sample_epss "2024-05-06_010203" 404, sound_machine)
            (after_runs (take 3 jobs) empty_fs)) = Exited 1 ∧
  size (logs_of Epss (after_runs jobs empty_fs)) = 4%nat ∧
  size (logs_of Epss (after_runs jobs empty_fs)) ≠
    Nat.min (length jobs) (keep Epss).
Proof.
  split_and!.
  - by vm_compute.
  - repeat constructor; by vm_compute.
  - vm_compute. repeat split.
  - by vm_compute.
  - by vm_compute.
  - by vm_compute.
Qed.

End RetainedInstances.

(** ** Failure of the compression *)

Section Compression.
Import Py OS Logic Spec Retention Publish.
Local Open Scope run_scope.

Context (O : oracle).

Lemma before_publish_frame (canon tar : string) (e : event) :
  before_publish canon tar e → ¬ touches e (DataDir, tar).
Proof.
  destruct e as [f level msg|line|u|u|n|cmd|n|q|q c|q|src dst|n]; simpl;
    try done; try tauto.
  intros (_ & H1 & H2) [H|H]; [by apply H1|by apply H2].
Qed.

Lemma not_published (canon tar fresh : string) (s : fs) (st : state) :
  reach (before_publish canon tar) (initial s) st →
  EvRename (DataDir, fresh) (DataDir, canon) ∉ (past st).*1.
Proof.
  intros (evs & [Hpast _] & Hall) Hin. simpl in Hpast.
  rewrite Hpast, snapshots_events in Hin.
  rewrite Forall_forall in Hall. by destruct (Hall _ Hin) as [H _].
Qed.

Lemma archive_before_publish (canon tar : string) (s : fs) (st : state) :
  reach (before_publish canon tar) (initial s) st →
  lookup_file (now st) (DataDir, tar) = lookup_file s (DataDir, tar).
Proof.
  intros H. apply (reach_frame (initial s) st).
  eapply reach_mono; [|exact H]. apply before_publish_frame.
Qed.

Lemma data_lookup_log (s : fs) (f level msg n : string) :
  lookup_file (apply_event s (EvLog f level msg)) (DataDir, n) =
  lookup_file s (DataDir, n).
Proof. done. Qed.

(** The compression block under a machine that refuses it. *)
Lemma wp_compress_refused (canon tar : string) (k : M unit) Q (st : state) :
  faulty O (EvTruncate (DataDir, tar)) = true ∨
    (∀ c, faulty O (EvAppend (DataDir, tar) c) = true) →
  canon ≠ tar →
  is_Some (lookup_file (now st) (DataDir, canon)) →
  (∀ st',
     is_Some (lookup_file (now st') (DataDir, canon)) →
     lookup_file (now st') (DataDir, tar) =
       (if faulty O (EvTruncate (DataDir, tar))
        then lookup_file (now st) (DataDir, tar) else Some "") →
     Q (Exc OSError) st') →
  wp O (compress canon tar;; k) Q st.
Proof.
  intros Hrefused Hne [c Hc] HQ. apply wp_bind. unfold compress.
  apply wp_bind. unfold open_w. apply wp_bind, wp_get_fs. cbv beta iota.
  simpl. apply wp_sys.
  { intros Hf. apply HQ; [by exists c|by rewrite Hf]. }
  intros Hf. destruct Hrefused as [Hr|Hr]; [congruence|].
  set (st1 := step st (EvTruncate (DataDir, tar))).
  assert (lookup_file (now st1) (DataDir, canon) = Some c) as Hc1.
  { unfold st1; simpl. rewrite lookup_store_other; [done|congruence]. }
  assert (lookup_file (now st1) (DataDir, tar) = Some "") as Ht1.
  { unfold st1; simpl. by rewrite lookup_store_same. }
  clearbody st1.
  apply wp_bind. unfold read_file. apply wp_bind, wp_get_fs. cbv beta iota.
  rewrite Hc1. apply wp_ret. cbv beta iota.
  apply wp_bind, wp_get_oracle. cbv beta iota.
  unfold write. apply wp_sys; [|by rewrite Hr].
  intros _. apply HQ; [by exists c|by rewrite Hf].
Qed.

(** The state in which the compression block starts: the new table has
    the canonical name and the archive is the one the run found. *)
Lemma published_state (canon tar fresh c : string) (s : fs) (st1 : state) :
  reach (before_publish canon tar) (initial s) st1 →
  lookup_file (now st1) (DataDir, fresh) = Some c →
  fresh ≠ tar → canon ≠ tar →
  let st2 := step st1 (EvRename (DataDir, fresh) (DataDir, canon)) in
  lookup_file (now st2) (DataDir, canon) = Some c ∧
  lookup_file (now st2) (DataDir, tar) = lookup_file s (DataDir, tar).
Proof.
  intros Hreach Hc Hft Hct st2. unfold st2; simpl. rewrite Hc. split.
  - by rewrite lookup_store_same.
  - rewrite lookup_store_other, lookup_delete_other by congruence.
    by apply (archive_before_publish canon).
Qed.

(** The canonical swap, then the rest of the run: the rest starts in the
    state the renaming step leaves. *)
Lemma wp_canonical_swap (canon tar fresh : string) (k : M unit) Q
    (st0 st : state) :
  canon ≠ tar →
  reach (before_publish canon tar) st0 st →
  (∀ (r : result unit) st',
     aborted r → reach (before_publish canon tar) st0 st' → Q r st') →
  (∀ st1 c,
     reach (before_publish canon tar) st0 st1 →
     lookup_file (now st1) (DataDir, fresh) = Some c →
     wp O k Q (step st1 (EvRename (DataDir, fresh) (DataDir, canon)))) →
  wp O (canonical_swap fresh canon;; k) Q st.
Proof.
  intros Hne Hreach Habort Hk. apply wp_bind. unfold canonical_swap.
  apply wp_bind, wp_file_exists.
  apply (wp_bind_emits (before_publish canon tar) O _ _ _ st0 st);
    [|done|by intros [] ?; [intros []|apply Habort..]|].
  { destruct (bool_decide _); [|apply emits_skip].
    apply emits_os_remove. simpl. congruence. }
  intros _ st1 Hst1. unfold shutil_move. apply wp_bind, wp_get_fs.
  cbv beta iota.
  destruct (lookup_file (now st1) (DataDir, fresh)) as [c|] eqn:Hc.
  - rewrite bool_decide_eq_true_2 by done.
    apply wp_sys; intros _; [by apply Habort|]. by apply (Hk st1 c).
  - rewrite bool_decide_eq_false_2 by (by intros [? ?]).
    apply wp_raise. by apply Habort.
Qed.

Lemma cpe_compression_refused (E : CPE.env) (s : fs) :
  compression_refused O Cpes →
  wp O (CPE.main E)
    (λ r st, published Cpes E ∈ (past st).*1 →
             crashed_in_compression O Cpes s r (now st))
    (initial s).
Proof.
  intros Hrefused. unfold CPE.main. cbv zeta.
  assert (∀ (r : result unit) st',
            aborted r →
            reach (before_publish "cpes.csv" "cpes.csv.tar.gz") (initial s) st' →
            published Cpes E ∈ (past st').*1 →
            crashed_in_compression O Cpes s r (now st'))
    as Habort.
  { intros r st' _ Hreach Hin.
    by apply (not_published _ _ (fresh_of Cpes E)) in Hreach. }
  pose proof (reach_refl (before_publish "cpes.csv" "cpes.csv.tar.gz")
                (initial s)) as Hreach.
  walk_with ltac:(first
    [ by simpl
    | by intros [=]
    | apply emits_load_checkpoint
    | eapply emits_mono; [|apply emits_download_pages];
      intros [] ?; simpl in *; try done; by destruct p as [[] ?] ]).
  apply (wp_canonical_swap _ "cpes.csv.tar.gz" _ _ _ (initial s)); try done.
  intros st1 c Hst1 Hc.
  destruct (published_state "cpes.csv" "cpes.csv.tar.gz" _ c s st1 Hst1 Hc)
    as [Hcanon Htar]; [by intros [=]|done|].
  apply wp_bind, wp_emit.
  apply wp_compress_refused; try done.
  intros final_st H1 H2 _. split; [done|]. split; [done|].
  etrans; [exact H2|]. simpl archive_of. destruct (faulty O _); [|done].
  rewrite <- Htar. apply data_lookup_log.
Qed.

Lemma vuln_compression_refused (E : Vuln.env) (s : fs) :
  compression_refused O Vulnrichment →
  wp O (Vuln.main E)
    (λ r st, published Vulnrichment E ∈ (past st).*1 →
             crashed_in_compression O Vulnrichment s r (now st))
    (initial s).
Proof.
  intros Hrefused. unfold Vuln.main. cbv zeta.
  assert (∀ (r : result unit) st',
            aborted r →
            reach (before_publish Vuln.canon_csv Vuln.canon_tar_gz)
              (initial s) st' →
            published Vulnrichment E ∈ (past st').*1 →
            crashed_in_compression O Vulnrichment s r (now st'))
    as Habort.
  { intros r st' _ Hreach Hin.
    by apply (not_published _ _ (fresh_of Vulnrichment E)) in Hreach. }
  pose proof (reach_refl (before_publish Vuln.canon_csv Vuln.canon_tar_gz)
                (initial s)) as Hreach.
  walk_with ltac:(first
    [ by simpl
    | by intros [=]
    | apply emits_sync_or_clone_repo; by simpl
    | apply emits_csv_from_vulnrichment; simpl;
      first [done|by intros [=]|by intros ? [=]] ]).
  apply (wp_canonical_swap _ Vuln.canon_tar_gz _ _ _ (initial s)); try done.
  intros st1 c Hst1 Hc.
  destruct (published_state Vuln.canon_csv Vuln.canon_tar_gz _ c s st1 Hst1 Hc)
    as [Hcanon Htar]; [by intros [=]|done|].
  apply wp_bind. unfold Vuln.announce. apply wp_bind, wp_emit, wp_emit.
  apply wp_compress_refused; try done.
  intros final_st H1 H2 _. split; [done|]. split; [done|].
  etrans; [exact H2|]. simpl archive_of. destruct (faulty O _); [|done].
  rewrite <- Htar. apply data_lookup_log.
Qed.

Lemma epss_compression_refused (E : EPSS.env) (s : fs) :
  compression_refused O Epss →
  wp O (EPSS.main E)
    (λ r st, published Epss E ∈ (past st).*1 →
             crashed_in_compression O Epss s r (now st))
    (initial s).
Proof.
  intros Hrefused. unfold EPSS.main. cbv zeta.
  assert (∀ (r : result unit) st',
            aborted r →
            reach (before_publish EPSS.canon EPSS.canon_tar_gz)
              (initial s) st' →
            published Epss E ∈ (past st').*1 →
            crashed_in_compression O Epss s r (now st'))
    as Habort.
  { intros r st' _ Hreach Hin.
    by apply (not_published _ _ (fresh_of Epss E)) in Hreach. }
  pose proof (reach_refl (before_publish EPSS.canon EPSS.canon_tar_gz)
                (initial s)) as Hreach.
  walk_with ltac:(first
    [ by simpl
    | by intros [=]
    | simpl; split_and!; by intros [=]
    | apply emits_raise_for_status ]).
  lazymatch type of Hreach with reach _ _ ?st => rename st into st1 end.
  assert (∀ level msg,
            reach (before_publish EPSS.canon EPSS.canon_tar_gz) (initial s)
              (step st1 (EvLog (EPSS.log_name (EPSS.timestamp E)) level msg)))
    as Hlogged.
  { intros level msg. eapply reach_trans; [exact Hreach|].
    eexists [_]. split; [apply extends_step|by repeat constructor]. }
  apply wp_bind, wp_try_catch, wp_bind.
  unfold shutil_move. apply wp_bind, wp_get_fs. cbv beta iota.
  destruct (lookup_file (now st1) (DataDir, fresh_of Epss E)) as [c|] eqn:Hc;
    simpl fresh_of in Hc; rewrite Hc.
  2: { rewrite bool_decide_eq_false_2 by (by intros [? ?]).
       apply wp_raise, wp_bind, wp_bind, wp_emit, wp_sys_exit.
       by apply Habort. }
  rewrite bool_decide_eq_true_2 by done.
  apply wp_sys; intros _.
  { apply wp_bind, wp_bind, wp_emit, wp_sys_exit. by apply Habort. }
  destruct (published_state EPSS.canon EPSS.canon_tar_gz _ c s st1 Hreach Hc)
    as [Hcanon Htar]; [by intros [=]|done|].
  apply wp_emit, wp_bind, wp_skip.
  apply wp_compress_refused; try done.
  intros final_st H1 H2 _. split; [done|]. split; [done|].
  etrans; [exact H2|]. simpl archive_of. destruct (faulty O _); [|done].
  rewrite <- Htar. apply data_lookup_log.
Qed.

(** C2 (amended): in each pipeline, a run that has given its new table the
    canonical name and whose compression the machine refuses ends with an
    uncaught [OSError], hence with exit status 1, and the uncompressed
    canonical table is still in place.  The archive is the one the run
    found only when the opening of the archive was refused; when a write to
    it was, the archive, opened for writing at its final path, is empty. *)
Theorem refused_compression_fails_run (p : pipeline) (E : env_of p)
    (s : fs) :
  let r := execute (main_of p E) O s in
  let tar := (DataDir, archive_of p) in
  published p E ∈ trace r →
  compression_refused O p →
  end_of r = Crashed OSError ∧
  exit_status (end_of r) = 1 ∧
  is_Some (lookup_file (final r) (DataDir, canon_of p)) ∧
  lookup_file (final r) tar =
    if faulty O (EvTruncate tar) then lookup_file s tar else Some "".
Proof.
  intros r tar Hin Hrefused. revert Hin. unfold r. apply execute_wp.
  assert (wp O (main_of p E)
            (λ r st, published p E ∈ (past st).*1 →
                     crashed_in_compression O p s r (now st))
            (initial s)) as H.
  { destruct p; [by apply cpe_compression_refused
                |by apply epss_compression_refused
                |by apply vuln_compression_refused]. }
  eapply wp_mono; [|exact H].
  intros r' st' Hcrash Hin. destruct (Hcrash Hin) as (-> & Hcanon & Htar).
  by simpl.
Qed.

End Compression.

Section CompressionInstances.
Import Py OS Logic Spec Retention Publish.

Lemma refused_compression_fails_run_witness :
  let r := execute (EPSS.main (sample_epss "2024-05-03_010203" 200))
             archive_open_refused published_fs in
  end_of r = Crashed OSError ∧
  exit_status (end_of r) = 1 ∧
  is_Some (lookup_file (final r) (DataDir, EPSS.canon)) ∧
  lookup_file (final r) (DataDir, EPSS.canon_tar_gz) = Some "OLD".
Proof.
  apply (refused_compression_fails_run archive_open_refused Epss
           (sample_epss "2024-05-03_010203" 200) published_fs).
  - apply (list_elem_of_lookup_2 _ 20). reflexivity.
  - left. reflexivity.
Defined.

(** An EPSS run on a directory that holds the archive of an earlier run,
    on a disk that takes no write to the archive: the run crashes in the
    compression block and the earlier archive is gone, an empty file in
    its place. *)
Lemma refused_write_loses_previous_archive :
  let E := sample_epss "2024-05-03_010203" 200 in
  let r := execute (EPSS.main E) archive_write_refused published_fs in
  let tar := (DataDir, EPSS.canon_tar_gz) in
  lookup_file published_fs tar = Some "OLD" ∧
  published Epss E ∈ trace r ∧
  compression_refused archive_write_refused Epss ∧
  end_of r = Crashed OSError ∧
  lookup_file (final r) tar = Some "" ∧
  lookup_file (final r) tar ≠ lookup_file published_fs tar.
Proof.
  split_and!.
  - reflexivity.
  - apply (list_elem_of_lookup_2 _ 20). reflexivity.
  - right. intros c. reflexivity.
  - reflexivity.
  - reflexivity.
  - by vm_compute.
Qed.

End CompressionInstances.

(** ** The record of one CVE file *)

Section CveRecordFacts.
Import Py SafeGet OS CveRecord.

Lemma assoc_set_same (d : dict) (k : string) (v : value) :
  assoc k (dict_set d k v) = Some v.
Proof.
  induction d as [|[k' w] d IH]; simpl.
  - by rewrite String.eqb_refl.
  - destruct (String.eqb k k') eqn:Hk; simpl; rewrite Hk; [done|apply IH].
Qed.

Lemma assoc_set_other (d : dict) (k k' : string) (v : value) :
  k ≠ k' → assoc k' (dict_set d k v) = assoc k' d.
Proof.
  intros Hne. induction d as [|[k0 w] d IH]; simpl.
  - by apply String.eqb_neq in Hne; rewrite String.eqb_sym, Hne.
  - destruct (String.eqb k k0) eqn:Hk; simpl; [|by rewrite IH].
    apply String.eqb_eq in Hk as <-.
    destruct (String.eqb k' k) eqn:Hk'; [|done].
    apply String.eqb_eq in Hk'. congruence.
Qed.

Lemma get_set_same (d : dict) (k : string) (v default : value) :
  get (dict_set d k v) k default = v.
Proof. unfold get; simpl. by rewrite assoc_set_same. Qed.

Lemma get_set_other (d : dict) (k k' : string) (v default : value) :
  k ≠ k' → get (dict_set d k v) k' default = get d k' default.
Proof. intros. unfold get; simpl. by rewrite assoc_set_other. Qed.








Lemma scan_descriptions_find (descriptions : list value) :
  scan_descriptions descriptions =
    match List.find names_cwe descriptions with
    | Some (VDict d) =>
        Some (get d "cweId" (VStr ""), get d "description" (VStr ""))
    | _ => None
    end.
Proof.
  induction descriptions as [|desc rest IH]; simpl; [done|].
  destruct desc as [|b|z|q|s|l|d]; simpl; try done.
  by destruct (truthy (get d "cweId" (VStr ""))).
Qed.

Lemma find_names_cwe (l : list value) (v : value) :
  List.find names_cwe l = Some v → ∃ d, v = VDict d.
Proof.
  intros H. apply List.find_some in H as [_ H].
  destruct v; try done. by eexists.
Qed.

Lemma find_app {A} (f : A → bool) (l1 l2 : list A) :
  List.find f (l1 ++ l2) =
    match List.find f l1 with
    | Some x => Some x
    | None => List.find f l2
    end.
Proof. induction l1 as [|x l1 IH]; simpl; [done|]. by destruct (f x). Qed.

Lemma scan_problem_types_find (problem_types : list value) :
  scan_problem_types problem_types =
    match List.find names_cwe (mjoin (descriptions_of <$> problem_types)) with
    | Some (VDict d) => (get d "cweId" (VStr ""), get d "description" (VStr ""))
    | _ => (VStr "", VStr "")
    end.
Proof.
  induction problem_types as [|pt rest IH]; [done|].
  rewrite fmap_cons. change (mjoin (descriptions_of pt :: (descriptions_of <$> rest))) with (descriptions_of pt ++ mjoin (descriptions_of <$> rest))%list. rewrite find_app.
  assert (scan_problem_types (pt :: rest) =
          match scan_descriptions (descriptions_of pt) with
          | Some found => found
          | None => scan_problem_types rest
          end) as ->.
  { destruct pt as [|b|z|q|s|l|p]; try done. simpl.
    by destruct (get p "descriptions" (VList [])). }
  rewrite scan_descriptions_find.
  destruct (List.find names_cwe (descriptions_of pt)) as [v|] eqn:Hfind;
    [|done].
  by destruct (find_names_cwe _ _ Hfind) as [d ->].
Qed.

(** X2: [find_cwe_data] gives the identifier and the description of the first
    description entry, over the problem types in their order, whose [cweId]
    is truthy, and two empty strings when there is none or the argument is
    no list. *)
Theorem find_cwe_data_first_id (problem_types : value) :
  find_cwe_data problem_types =
    match problem_types with
    | VList l =>
        match List.find names_cwe (mjoin (descriptions_of <$> l)) with
        | Some (VDict d) =>
            (get d "cweId" (VStr ""), get d "description" (VStr ""))
        | _ => (VStr "", VStr "")
        end
    | _ => (VStr "", VStr "")
    end.
Proof.
  unfold find_cwe_data.
  destruct problem_types as [|b|z|q|s|l|m]; simpl; rewrite ?orb_true_r;
    try done.
  destruct l as [|pt l]; [done|]. apply scan_problem_types_find.
Qed.

(** The identifier [find_cwe_data] gives is empty only with an empty
    description. *)
Lemma find_cwe_data_shape (problem_types : value) :
  find_cwe_data problem_types = (VStr "", VStr "") ∨
  truthy (find_cwe_data problem_types).1 = true.
Proof.
  rewrite find_cwe_data_first_id.
  destruct problem_types as [|b|z|q|s|l|m]; try (by left).
  destruct (List.find names_cwe (mjoin (descriptions_of <$> l))) as [v|] eqn:H;
    [|by left].
  apply List.find_some in H as [_ H].
  destruct v as [|b|z|q|s|l'|d]; try done. by right.
Qed.

Lemma assigned_refl (touched : list string) (d : dict) :
  assigned touched d d.
Proof. by split. Qed.

Lemma assigned_trans (touched : list string) (d1 d2 d3 : dict) :
  assigned touched d1 d2 → assigned touched d2 d3 → assigned touched d1 d3.
Proof.
  intros [H1 H2] [H3 H4]. split; [by auto|].
  intros k Hk. by rewrite H4, H2.
Qed.

Lemma assigned_set (touched : list string) (d : dict) (k : string)
    (v : value) :
  k ∈ touched → assigned touched d (dict_set d k v).
Proof.
  intros Hk. split.
  - intros k' Hk'. destruct (decide (k = k')) as [<-|Hne].
    + by rewrite assoc_set_same.
    + by rewrite assoc_set_other.
  - intros k' Hk'. apply assoc_set_other. by intros ->.
Qed.

Lemma assigned_weaken (t1 t2 : list string) (d d' : dict) :
  t1 ⊆ t2 → assigned t1 d d' → assigned t2 d d'.
Proof. intros Hsub [H1 H2]. split; [done|]. intros k Hk. apply H2. set_solver. Qed.

Lemma safe_get_name (data : value) (path : list string) (default : value) :
  ∃ v, safe_get data (KStr <$> path) default = Ret v.
Proof.
  apply safe_get_total_on_ok_keys. apply Forall_fmap, Forall_forall. done.
Qed.

Lemma set_cvss_sets (L : lib) (who : string) (result : dict)
    (cvss_data : value) :
  ∃ v1 v2 v3 v4,
    set_cvss L who result cvss_data =
      Ret (dict_set
            (dict_set
              (dict_set
                (dict_set result (who +:+ "_cvss_base_score") v1)
                (who +:+ "_cvss_base_severity") v2)
              (who +:+ "_cvss_vector_string") v3)
            (who +:+ "_cvss_version") v4).
Proof.
  unfold set_cvss.
  destruct (safe_get_name cvss_data ["baseScore"] (VStr "")) as [v1 H1].
  destruct (safe_get_name cvss_data ["baseSeverity"] (VStr "")) as [v2 H2].
  destruct (safe_get_name cvss_data ["vectorString"] (VStr "")) as [v3 H3].
  destruct (safe_get_name cvss_data ["version"] (VStr "")) as [v4 H4].
  cbn [fmap list_fmap] in H1, H2, H3, H4. rewrite H1, H2, H3, H4.
  simpl. by eexists _, _, _, _.
Qed.

End CveRecordFacts.

Ltac in_columns :=
  repeat first [apply list_elem_of_here | apply list_elem_of_further].

Ltac in_subset :=
  let k := fresh "k" in
  let Hk := fresh "Hk" in
  intros k Hk;
  repeat (apply elem_of_cons in Hk as [->|Hk]; [in_columns|]);
  by apply elem_of_nil in Hk.

Ltac not_in_columns :=
  let Hin := fresh "Hin" in
  intros Hin;
  repeat (apply elem_of_cons in Hin as [Hin|Hin]; [discriminate Hin|]);
  by apply elem_of_nil in Hin.

Section CveRecordRow.
Import Py SafeGet OS CveRecord.

Lemma set_cvss_cisa (L : lib) (result : dict) (cvss_data : value) :
  ∃ result', set_cvss L "cisa" result cvss_data = Ret result' ∧
             assigned adp_columns result result'.
Proof.
  destruct (set_cvss_sets L "cisa" result cvss_data)
    as (v1 & v2 & v3 & v4 & ->).
  eexists. split; [done|].
  repeat (eapply assigned_trans; [|apply assigned_set; in_columns]).
  apply assigned_refl.
Qed.

Lemma set_cvss_cna (L : lib) (result : dict) (cvss_data : value) :
  ∃ result', set_cvss L "cna" result cvss_data = Ret result' ∧
             assigned ["cna_cvss_base_score"; "cna_cvss_base_severity";
                       "cna_cvss_vector_string"; "cna_cvss_version"]
               result result'.
Proof.
  destruct (set_cvss_sets L "cna" result cvss_data)
    as (v1 & v2 & v3 & v4 & ->).
  eexists. split; [done|].
  repeat (eapply assigned_trans; [|apply assigned_set; in_columns]).
  apply assigned_refl.
Qed.

Lemma set_cvss_assigns (L : lib) (who : string) (result : dict)
    (cvss_data : value) :
  ∃ result', set_cvss L who result cvss_data = Ret result' ∧
             assigned (cvss_columns who) result result'.
Proof.
  destruct (set_cvss_sets L who result cvss_data)
    as (v1 & v2 & v3 & v4 & ->).
  eexists. split; [done|].
  repeat (eapply assigned_trans; [|apply assigned_set; in_columns]).
  apply assigned_refl.
Qed.

Lemma maybe_set_cvss (L : lib) (who : string) (result : dict)
    (cvss_data : value) :
  ∃ result',
    (if truthy cvss_data then set_cvss L who result cvss_data
     else Ret result) = Ret result' ∧
    assigned (cvss_columns who) result result'.
Proof.
  destruct (truthy cvss_data); [apply set_cvss_assigns|].
  exists result. split; [done|apply assigned_refl].
Qed.

(** One turn of the loop over [adp] on a dictionary entry. *)
Lemma adp_step_dict (L : lib) (result : dict) (a : dict) :
  ∃ result',
    adp_step L result (VDict a) = Ret result' ∧
    assigned adp_columns result result' ∧
    assoc "ssvc_exploitation" result' = Some (ssvc_of a "exploitation") ∧
    assoc "ssvc_automatable" result' = Some (ssvc_of a "automatable") ∧
    assoc "ssvc_impact" result' = Some (ssvc_of a "impact") ∧
    assoc "kev_entry" result' = Some (ssvc_of a "kev_entry") ∧
    assoc "kev_date" result' = Some (ssvc_of a "kev_date") ∧
    (if truthy (cwe_of (VDict a)).1
     then assoc "cwe_id" result' = Some (cwe_of (VDict a)).1 ∧
          assoc "cwe_description" result' = Some (cwe_of (VDict a)).2
     else assoc "cwe_id" result' = assoc "cwe_id" result ∧
          assoc "cwe_description" result' = assoc "cwe_description" result).
Proof.
  unfold adp_step, ssvc_of, cwe_of.
  destruct (find_cvss_data (get a "metrics" (VList []))) as [cvss_key cvss_data].
  destruct (maybe_set_cvss L "cisa" result cvss_data) as (r1 & -> & H1).
  cbn [and_then].
  destruct (find_cwe_data (get a "problemTypes" (VList [])))
    as [cwe_id cwe_desc].
  cbn [fst snd].
  eexists. split; [done|].
  assert (assoc "cwe_id" r1 = assoc "cwe_id" result) as Hid
    by (apply H1; not_in_columns).
  assert (assoc "cwe_description" r1 = assoc "cwe_description" result) as Hdesc
    by (apply H1; not_in_columns).
  apply (assigned_weaken _ adp_columns) in H1; [|in_subset].
  split.
  { destruct (truthy cwe_id);
      repeat (eapply assigned_trans; [|apply assigned_set; in_columns]);
      exact H1. }
  destruct (truthy cwe_id);
    repeat first
      [ rewrite assoc_set_same
      | rewrite assoc_set_other by discriminate ];
    by split_and!.
Qed.

Lemma adp_step_assigns (L : lib) (result : dict) (adp : value) :
  ∃ result', adp_step L result adp = Ret result' ∧
             assigned adp_columns result result'.
Proof.
  destruct adp as [|b|z|q|s|l|a];
    try (exists result; split; [done|apply assigned_refl]).
  destruct (adp_step_dict L result a) as (r' & H & Ha & _). by exists r'.
Qed.

Lemma adp_loop_assigns (L : lib) (adp_list : list value) (result : dict) :
  ∃ result', adp_loop L result adp_list = Ret result' ∧
             assigned adp_columns result result'.
Proof.
  revert result. induction adp_list as [|adp rest IH]; intros result; simpl.
  - exists result. split; [done|apply assigned_refl].
  - destruct (adp_step_assigns L result adp) as (r1 & -> & H1). simpl.
    destruct (IH r1) as (r2 & -> & H2). exists r2.
    split; [done|]. by eapply assigned_trans.
Qed.

Lemma adp_loop_app (L : lib) (l1 l2 : list value) (result : dict) :
  adp_loop L result (l1 ++ l2) =
    and_then (adp_loop L result l1) (λ result, adp_loop L result l2).
Proof.
  revert result. induction l1 as [|adp l1 IH]; intros result; simpl; [done|].
  destruct (adp_step L result adp) as [r1|e]; simpl; [apply IH|done].
Qed.

(** Entries of [adp] that name no CWE leave the CWE columns alone. *)
Lemma adp_loop_without_cwe (L : lib) (adp_list : list value)
    (result result' : dict) :
  Forall without_cwe adp_list →
  adp_loop L result adp_list = Ret result' →
  assoc "cwe_id" result' = assoc "cwe_id" result ∧
  assoc "cwe_description" result' = assoc "cwe_description" result.
Proof.
  intros Hall. revert result.
  induction Hall as [|adp rest Hadp _ IH]; intros result; cbn [adp_loop].
  { by intros [= ->]. }
  destruct adp as [|b|z|q|s|l|a]; [apply IH..|].
  destruct (adp_step_dict L result a) as (r1 & -> & _ & _ & _ & _ & _ & _ & H).
  unfold without_cwe in Hadp. rewrite Hadp in H. cbn [and_then].
  intros H2. apply IH in H2 as [-> ->]. done.
Qed.

Lemma cna_step_spec (L : lib) (result : dict) (cna : value) :
  ∃ result',
    cna_step L result cna = Ret result' ∧
    assigned cna_columns result result' ∧
    match cna with
    | VDict _ =>
        if truthy (default VNone (assoc "cwe_id" result))
        then assoc "cwe_id" result' = assoc "cwe_id" result ∧
             assoc "cwe_description" result' =
               assoc "cwe_description" result
        else assoc "cwe_id" result' = Some (cwe_of cna).1 ∧
             assoc "cwe_description" result' = Some (cwe_of cna).2
    | _ => result' = result
    end.
Proof.
  destruct cna as [|b|z|q|s|l|c];
    try (exists result; split; [done|]; split; [apply assigned_refl|done]).
  unfold cna_step, cwe_of.
  destruct (find_cvss_data (get c "metrics" (VList []))) as [cvss_key cvss_data].
  destruct (maybe_set_cvss L "cna" result cvss_data) as (r1 & -> & H1).
  cbn [and_then].
  destruct (find_cwe_data (get c "problemTypes" (VList [])))
    as [cwe_id cwe_desc].
  cbn [fst snd].
  eexists. split; [done|].
  assert (assoc "cwe_id" r1 = assoc "cwe_id" result) as Hid
    by (apply H1; not_in_columns).
  assert (assoc "cwe_description" r1 = assoc "cwe_description" result) as Hdesc
    by (apply H1; not_in_columns).
  apply (assigned_weaken _ cna_columns) in H1; [|in_subset].
  assert (get r1 "cwe_id" VNone = default VNone (assoc "cwe_id" result))
    as ->.
  { unfold get. cbn [dict_get]. rewrite Hid.
    by destruct (assoc "cwe_id" result). }
  destruct (truthy (default VNone (assoc "cwe_id" result))); cbn [negb].
  - by split.
  - split.
    + repeat (eapply assigned_trans; [|apply assigned_set; in_columns]).
      exact H1.
    + by rewrite assoc_set_other, !assoc_set_same by discriminate.
Qed.

(** The block of [parse_cve_json], in terms of its parts. *)
Lemma parse_document_parts (L : lib) (data : value) :
  ∃ cve_id containers adp_list cna r1 r2,
    safe_get data [KStr "cveMetadata"; KStr "cveId"] (VStr "") = Ret cve_id ∧
    containers_of data = Ret containers ∧
    adp_of data = Ret adp_list ∧
    cna_of data = Ret cna ∧
    match adp_list with
    | VList l => adp_loop L (blank cve_id) l
    | _ => Ret (blank cve_id)
    end = Ret r1 ∧
    assigned adp_columns (blank cve_id) r1 ∧
    cna_step L r1 cna = Ret r2 ∧
    parse_document L data = Ret r2.
Proof.
  unfold parse_document, adp_of, cna_of, containers_of.
  destruct (safe_get_name data ["cveMetadata"; "cveId"] (VStr ""))
    as [cve_id H1].
  destruct (safe_get_name data ["containers"] (VDict [])) as [containers H2].
  destruct (safe_get_name containers ["adp"] (VList [])) as [adp_list H3].
  destruct (safe_get_name containers ["cna"] (VDict [])) as [cna H4].
  cbn [fmap list_fmap] in H1, H2, H3, H4.
  assert (∃ r1, match adp_list with
                | VList l => adp_loop L (blank cve_id) l
                | _ => Ret (blank cve_id)
                end = Ret r1 ∧ assigned adp_columns (blank cve_id) r1)
    as (r1 & H5 & Ha).
  { destruct adp_list as [|b|z|q|s|l|m];
      try (eexists; split; [done|apply assigned_refl]).
    apply adp_loop_assigns. }
  destruct (cna_step_spec L r1 cna) as (r2 & H6 & _).
  exists cve_id, containers, adp_list, cna, r1, r2.
  rewrite H1, H2. cbn [and_then]. rewrite H3, H4. cbn [and_then].
  rewrite H5. cbn [and_then]. by rewrite H6.
Qed.

Lemma complete_blank (cve_id : value) : complete (blank cve_id).
Proof. split; [|done]. repeat constructor; by eexists. Qed.

Lemma complete_assigned (touched : list string) (d d' : dict) :
  "error" ∉ touched → assigned touched d d' → complete d → complete d'.
Proof.
  intros Herr [H1 H2] [Hc He]. split.
  - eapply Forall_impl; [exact Hc|]. intros c. apply H1.
  - by rewrite H2.
Qed.

Lemma row_of_complete (result : dict) :
  complete result →
  ∃ row, row_of result = Some row ∧ length row = 18%nat ∧
         is_error result = false.
Proof.
  intros [Hc He]. unfold is_error. rewrite He.
  assert (is_Some (row_of result)) as [row Hrow].
  { unfold row_of. apply mapM_is_Some. exact Hc. }
  exists row. split; [done|]. split; [|done].
  unfold row_of in Hrow. apply length_mapM in Hrow. by rewrite <- Hrow.
Qed.

(** X3: a document that [json.load] decoded always gives a row, whatever
    its shape: [parse_cve_json] gives the error dictionary exactly when
    opening or decoding the file raised.  The dictionary it gives otherwise
    has the eighteen columns, with the identifier read at
    [cveMetadata.cveId] and the two constant columns. *)
Theorem parse_cve_json_error_only_from_load (L : lib) (file_path : string)
    (loaded : outcome value) :
  (is_error (parse_cve_json L file_path loaded) = true ↔
   ∃ e, loaded = Raise e) ∧
  ∀ data, loaded = Ret data →
    let result := parse_cve_json L file_path loaded in
    (∃ row, row_of result = Some row ∧ length row = 18%nat) ∧
    (∃ cve_id,
       safe_get data [KStr "cveMetadata"; KStr "cveId"] (VStr "") =
         Ret cve_id ∧
       assoc "cve_id" result = Some cve_id) ∧
    assoc "cisa_adp" result = Some (VStr "CISA ADP") ∧
    assoc "vulnrichment" result = Some (VStr "Vulnrichment").
Proof.
  assert (∀ data,
            ∃ cve_id result,
              safe_get data [KStr "cveMetadata"; KStr "cveId"] (VStr "") =
                Ret cve_id ∧
              parse_document L data = Ret result ∧
              assigned (adp_columns ++ cna_columns) (blank cve_id) result)
    as Hparse.
  { intros data.
    destruct (parse_document_parts L data)
      as (cve_id & containers & adp_list & cna & r1 & r2 &
          H1 & _ & _ & _ & _ & Ha & Hc & Hp).
    exists cve_id, r2. split; [done|]. split; [done|].
    destruct (cna_step_spec L r1 cna) as (r2' & Hc' & Hcna & _).
    assert (r2' = r2) as -> by congruence.
    eapply assigned_trans; (eapply assigned_weaken; [|eassumption]);
      set_solver. }
  split.
  - destruct loaded as [data|e]; [|split; [by eexists|done]].
    destruct (Hparse data) as (cve_id & result & _ & Hp & Ha).
    unfold parse_cve_json. cbn [and_then]. rewrite Hp.
    destruct (row_of_complete result) as (_ & _ & _ & ->).
    { eapply complete_assigned; [|exact Ha|apply complete_blank].
      not_in_columns. }
    split; [done|]. by intros [e [=]].
  - intros data ->. cbv zeta.
    destruct (Hparse data) as (cve_id & result & Hid & Hp & Ha).
    unfold parse_cve_json. cbn [and_then]. rewrite Hp.
    destruct (row_of_complete result) as (row & Hrow & Hlen & _).
    { eapply complete_assigned; [|exact Ha|apply complete_blank].
      not_in_columns. }
    destruct Ha as [_ Ha].
    split; [by exists row|]. split; [exists cve_id; split; [done|]|split].
    all: rewrite Ha; [done|not_in_columns].
Qed.

(** On a decoded document [parse_cve_json] is its [try] block. *)
Lemma parse_cve_json_decoded (L : lib) (file_path : string) (data : value) :
  parse_document L data = Ret (parse_cve_json L file_path (Ret data)).
Proof.
  destruct (parse_document_parts L data)
    as (? & ? & ? & ? & ? & r2 & _ & _ & _ & _ & _ & _ & _ & Hp).
  unfold parse_cve_json. cbn [and_then]. by rewrite Hp.
Qed.

Lemma ssvc_columns_after_cna (L : lib) (r1 r2 : dict) (cna : value)
    (column : string) :
  column ∉ cna_columns →
  cna_step L r1 cna = Ret r2 → assoc column r2 = assoc column r1.
Proof.
  intros Hc H. destruct (cna_step_spec L r1 cna) as (r2' & H' & [_ Ha] & _).
  assert (r2' = r2) as -> by congruence. by apply Ha.
Qed.

(** X4: the SSVC and KEV columns of a row are those of the last entry of
    [adp] alone: the loop assigns the five columns at every entry, so an
    entry without such data after one that has them leaves the columns
    empty. *)
Theorem parse_ssvc_from_last_adp (L : lib) (file_path : string)
    (data : value) (earlier : list value) (last : dict) :
  adp_of data = Ret (VList (earlier ++ [VDict last])) →
  let result := parse_cve_json L file_path (Ret data) in
  assoc "ssvc_exploitation" result = Some (ssvc_of last "exploitation") ∧
  assoc "ssvc_automatable" result = Some (ssvc_of last "automatable") ∧
  assoc "ssvc_impact" result = Some (ssvc_of last "impact") ∧
  assoc "kev_entry" result = Some (ssvc_of last "kev_entry") ∧
  assoc "kev_date" result = Some (ssvc_of last "kev_date").
Proof.
  intros Hadp result.
  pose proof (parse_cve_json_decoded L file_path data) as Hparse.
  fold result in Hparse.
  destruct (parse_document_parts L data)
    as (cve_id & containers & adp_list & cna & r1 & r2 &
        _ & _ & Hadp' & _ & Hloop & _ & Hcna & Hp).
  assert (r2 = result) as -> by congruence.
  assert (adp_list = VList (earlier ++ [VDict last])) as -> by congruence.
  rewrite adp_loop_app in Hloop.
  destruct (adp_loop L (blank cve_id) earlier) as [r0|e]; [|done].
  cbn [and_then adp_loop] in Hloop.
  destruct (adp_step_dict L r0 last)
    as (r1' & Hstep & _ & H1 & H2 & H3 & H4 & H5 & _).
  rewrite Hstep in Hloop. cbn [and_then] in Hloop.
  assert (r1' = r1) as -> by congruence.
  rewrite !(ssvc_columns_after_cna L r1 result cna) by (done || not_in_columns).
  done.
Qed.

(** The entry of CISA followed by the container of the CVE programme: the
    row keeps nothing of the SSVC decision and of the KEV mark. *)
Lemma parse_ssvc_from_last_adp_witness :
  let data :=
    sample_document [VDict cisa_container; VDict program_container] in
  let result := parse_cve_json plain_lib "CVE-2024-0001.json" (Ret data) in
  ssvc_of cisa_container "exploitation" = VStr "active" ∧
  ssvc_of cisa_container "kev_entry" = VStr "kev" ∧
  assoc "ssvc_exploitation" result = Some (VStr "") ∧
  assoc "ssvc_automatable" result = Some (VStr "") ∧
  assoc "ssvc_impact" result = Some (VStr "") ∧
  assoc "kev_entry" result = Some (VStr "") ∧
  assoc "kev_date" result = Some (VStr "").
Proof.
  split; [reflexivity|]. split; [reflexivity|].
  apply (parse_ssvc_from_last_adp plain_lib "CVE-2024-0001.json"
           (sample_document [VDict cisa_container; VDict program_container])
           [VDict cisa_container] program_container).
  reflexivity.
Defined.

(** X5: the CWE of a row comes from the entries of [adp] before the [cna]
    container: it is the CWE of the last entry of [adp] that names one, and
    the CWE of [cna] only when no entry of [adp] names one. *)
Theorem parse_cwe_prefers_adp (L : lib) (file_path : string) (data : value) :
  let result := parse_cve_json L file_path (Ret data) in
  (∀ earlier a later,
     adp_of data = Ret (VList (earlier ++ VDict a :: later)) →
     truthy (cwe_of (VDict a)).1 = true →
     Forall without_cwe later →
     assoc "cwe_id" result = Some (cwe_of (VDict a)).1 ∧
     assoc "cwe_description" result = Some (cwe_of (VDict a)).2) ∧
  (∀ l cna,
     adp_of data = Ret (VList l) →
     Forall without_cwe l →
     cna_of data = Ret (VDict cna) →
     assoc "cwe_id" result = Some (cwe_of (VDict cna)).1 ∧
     assoc "cwe_description" result = Some (cwe_of (VDict cna)).2).
Proof.
  intros result.
  pose proof (parse_cve_json_decoded L file_path data) as Hparse.
  fold result in Hparse.
  destruct (parse_document_parts L data)
    as (cve_id & containers & adp_list & cna & r1 & r2 &
        _ & _ & Hadp' & Hcna' & Hloop & _ & Hcna & Hp).
  assert (r2 = result) as -> by congruence.
  destruct (cna_step_spec L r1 cna) as (r2' & Hc' & _ & Hspec).
  assert (r2' = result) as -> by congruence.
  split.
  - intros earlier a later Hadp Hcwe Hlater.
    assert (adp_list = VList (earlier ++ VDict a :: later)) as ->
      by congruence.
    rewrite adp_loop_app in Hloop.
    destruct (adp_loop L (blank cve_id) earlier) as [r0|e]; [|done].
    cbn [and_then adp_loop] in Hloop.
    destruct (adp_step_dict L r0 a)
      as (ra & Hstep & _ & _ & _ & _ & _ & _ & Ha).
    rewrite Hstep, Hcwe in *. cbn [and_then] in Hloop.
    apply (adp_loop_without_cwe L later ra r1 Hlater) in Hloop as [H1 H2].
    destruct Ha as [Ha1 Ha2]. rewrite Ha1 in H1. rewrite Ha2 in H2.
    destruct cna as [|b|z|q|s|l|c]; try (by subst).
    rewrite H1 in Hspec. cbn [default from_option id] in Hspec.
    rewrite Hcwe in Hspec.
    destruct Hspec as [-> ->]. done.
  - intros l c Hadp Hl Hcna2.
    assert (adp_list = VList l) as -> by congruence.
    assert (cna = VDict c) as -> by congruence.
    apply (adp_loop_without_cwe L l _ r1 Hl) in Hloop as [H1 H2].
    rewrite H1 in Hspec. exact Hspec.
Qed.

(** With the entry of CISA the row has its CWE, not the one of [cna]; with
    the container of the CVE programme alone it has the one of [cna]. *)
Lemma parse_cwe_prefers_adp_witness :
  let with_cisa :=
    parse_cve_json plain_lib "CVE-2024-0001.json"
      (Ret (sample_document
              [VDict cisa_container; VDict program_container])) in
  let without :=
    parse_cve_json plain_lib "CVE-2024-0001.json"
      (Ret (sample_document [VDict program_container])) in
  (assoc "cwe_id" with_cisa = Some (VStr "CWE-89") ∧
   assoc "cwe_description" with_cisa = Some (VStr "SQL Injection")) ∧
  (assoc "cwe_id" without = Some (VStr "CWE-79") ∧
   assoc "cwe_description" without = Some (VStr "Cross-site Scripting")).
Proof.
  split.
  - apply (proj1 (parse_cwe_prefers_adp plain_lib "CVE-2024-0001.json"
                    (sample_document
                       [VDict cisa_container; VDict program_container]))
             [] cisa_container [VDict program_container]).
    + reflexivity.
    + reflexivity.
    + repeat constructor.
  - apply (proj2 (parse_cwe_prefers_adp plain_lib "CVE-2024-0001.json"
                    (sample_document [VDict program_container]))
             [VDict program_container] sample_cna).
    + reflexivity.
    + repeat constructor.
    + reflexivity.
Defined.

Lemma kev_marked_set (ssvc_data : dict) (k : string) (v : value) :
  k ≠ "kev_entry" → k ≠ "kev_date" →
  kev_marked ssvc_data → kev_marked (dict_set ssvc_data k v).
Proof. intros H1 H2. unfold kev_marked. by rewrite !assoc_set_other. Qed.

Lemma kev_marked_item (ssvc_data : dict) (item : string * value) :
  kev_marked ssvc_data → kev_marked (ssvc_item ssvc_data item).
Proof.
  destruct item as [key v]. unfold ssvc_item.
  repeat (destruct (String.eqb key _); [by apply kev_marked_set|]). done.
Qed.

Lemma kev_marked_foldl {A} (f : dict → A → dict) (l : list A)
    (ssvc_data : dict) :
  (∀ d x, kev_marked d → kev_marked (f d x)) →
  kev_marked ssvc_data → kev_marked (foldl f ssvc_data l).
Proof.
  intros Hf. revert ssvc_data.
  induction l as [|x l IH]; intros d Hd; simpl; [done|]. by apply IH, Hf.
Qed.

Lemma kev_marked_option (ssvc_data : dict) (option : value) :
  kev_marked ssvc_data → kev_marked (ssvc_option ssvc_data option).
Proof.
  destruct option as [|b|z|q|s|l|items]; try done.
  apply kev_marked_foldl, kev_marked_item.
Qed.

Lemma kev_marked_metric (ssvc_data : dict) (metric : value) :
  kev_marked ssvc_data → kev_marked (ssvc_metric ssvc_data metric).
Proof.
  intros Hd. unfold ssvc_metric.
  destruct metric as [|b|z|q|s|l|m]; try done.
  destruct (get m "other" (VDict [])) as [|b|z|q|s|l|other]; try done.
  destruct (get other "content" (VDict [])) as [|b|z|q|s|l|content];
    try done.
  cbv zeta.
  set (ssvc1 := match get content "options" (VList []) with
                | VList options => foldl ssvc_option ssvc_data options
                | _ => ssvc_data
                end).
  assert (kev_marked ssvc1) as H1.
  { unfold ssvc1. destruct (get content "options" (VList [])); try done.
    by apply kev_marked_foldl; [apply kev_marked_option|]. }
  set (ssvc2 := match assoc "id" content with
                | Some id => dict_set ssvc1 "cve_id" id
                | None => ssvc1
                end).
  assert (kev_marked ssvc2) as H2.
  { unfold ssvc2. destruct (assoc "id" content); [|done].
    by apply kev_marked_set. }
  destruct (py_eq _ _); [|done].
  left. by rewrite assoc_set_other, assoc_set_same.
Qed.

Lemma find_ssvc_data_kev (metrics_list : value) :
  kev_marked (find_ssvc_data metrics_list).
Proof.
  unfold find_ssvc_data. destruct (_ || _); [by right|].
  destruct metrics_list; try (by right).
  apply kev_marked_foldl; [apply kev_marked_metric|by right].
Qed.

Lemma ssvc_of_kev (a : dict) :
  ssvc_of a "kev_entry" = VStr "kev" ∨
  (ssvc_of a "kev_entry" = VStr "" ∧ ssvc_of a "kev_date" = VStr "").
Proof.
  unfold ssvc_of.
  generalize (find_ssvc_data_kev (get a "metrics" (VList []))).
  generalize (find_ssvc_data (get a "metrics" (VList []))).
  intros d [H|[H1 H2]]; unfold get; cbn [dict_get].
  - left. by rewrite H.
  - right. by rewrite H1, H2.
Qed.

Lemma adp_loop_kev (L : lib) (adp_list : list value) (result result' : dict) :
  kev_consistent result →
  adp_loop L result adp_list = Ret result' → kev_consistent result'.
Proof.
  revert result. induction adp_list as [|adp rest IH]; intros result Hk;
    cbn [adp_loop].
  { by intros [= <-]. }
  destruct adp as [|b|z|q|s|l|a]; [by apply IH..|].
  destruct (adp_step_dict L result a)
    as (r1 & -> & _ & _ & _ & _ & H4 & H5 & _).
  cbn [and_then]. apply IH. unfold kev_consistent. rewrite H4, H5.
  destruct (ssvc_of_kev a) as [->|[-> ->]]; [by left|by right].
Qed.

(** X6: in every row the KEV mark is ['kev'] or empty, and there is no KEV
    date without the mark. *)
Theorem parse_kev_columns_agree (L : lib) (file_path : string)
    (data : value) :
  kev_consistent (parse_cve_json L file_path (Ret data)).
Proof.
  pose proof (parse_cve_json_decoded L file_path data) as Hparse.
  set (result := parse_cve_json L file_path (Ret data)) in *.
  destruct (parse_document_parts L data)
    as (cve_id & containers & adp_list & cna & r1 & r2 &
        _ & _ & _ & _ & Hloop & _ & Hcna & Hp).
  assert (r2 = result) as -> by congruence.
  unfold kev_consistent.
  rewrite !(ssvc_columns_after_cna L r1 result cna) by (done || not_in_columns).
  assert (kev_consistent (blank cve_id)) as H0 by (by right).
  destruct adp_list as [|b|z|q|s|l|m]; try (by injection Hloop as <-).
  by apply (adp_loop_kev L l (blank cve_id)).
Qed.

End CveRecordRow.

(** ** The row of one product and the pages of the catalogue *)

Section CpeRowFacts.
Import Py OS CveRecord CpeRow.

Lemma first_title_skips (before rest : list value) :
  Forall (titled false) before →
  first_title (before ++ rest) = first_title rest.
Proof.
  induction 1 as [|t before Ht _ IH]; [done|].
  destruct t as [|b|z|q|s|l|d]; try done. simpl in *.
  unfold get in Ht. simpl in Ht. by rewrite Ht.
Qed.

(** X7: the title column is the [title] of the first entry of [titles] whose
    language is ['en'], the entries before it being dictionaries of another
    language; it is empty when no entry is English. *)
Theorem first_title_is_first_english (before after : list value) (t : value) :
  Forall (titled false) before →
  (titled true t → first_title (before ++ t :: after) = Ret (title_of t)) ∧
  first_title before = Ret (VStr "").
Proof.
  intros Hbefore. split.
  - intros Ht. rewrite first_title_skips by done.
    destruct t as [|b|z|q|s|l|d]; try done. simpl in *.
    unfold get in Ht. simpl in Ht. by rewrite Ht.
  - transitivity (first_title (before ++ [])); [by rewrite app_nil_r|].
    by rewrite first_title_skips.
Qed.

(** The French title is passed over, the first of the two English ones is
    taken. *)
Lemma first_title_is_first_english_witness :
  first_title sample_titles = Ret (VStr "Acme Tool") ∧
  first_title (take 1 sample_titles) = Ret (VStr "").
Proof.
  destruct (first_title_is_first_english (take 1 sample_titles)
              (drop 2 sample_titles)
              (VDict [("title", VStr "Acme Tool"); ("lang", VStr "en")]))
    as [H1 H2].
  - repeat constructor.
  - split; [exact (H1 eq_refl)|exact H2].
Defined.

Lemma collect_refs_ok (refs : list value) :
  Forall is_ref refs →
  ∃ l, collect_refs refs = Ret l ∧ strings_of l = Some (ref_of <$> refs).
Proof.
  induction 1 as [|r refs Hr _ (l & IH1 & IH2)].
  { exists (@nil value). by split. }
  destruct r as [|b|z|q|s|l0|d]; try done. destruct Hr as [s Hs].
  cbn [collect_refs py_get and_then]. rewrite IH1. cbn [and_then].
  eexists. split; [done|].
  change (match assoc "ref" d with Some w => w | None => VStr "" end)
    with (get d "ref" (VStr "")).
  cbn [fmap list_fmap ref_of]. rewrite Hs. cbn [strings_of]. by rewrite IH2.
Qed.

Lemma first_title_total (titles : list value) :
  Forall (λ t, isinstance_dict t = true) titles →
  ∃ title, first_title titles = Ret title.
Proof.
  induction 1 as [|t titles Ht _ [title IH]]; [by eexists|].
  destruct t as [|b|z|q|s|l|d]; try done. simpl.
  destruct (py_eq _ _); [by eexists|by exists title].
Qed.

(** X8: the row of a product.  A product that is no object makes the CSV
    step raise [AttributeError].  For an object whose [cpe] (an empty object
    when absent) is an object with a list of objects for [titles] and a list
    of objects with string [ref] for [refs], the seven fields are: the word
    [true] or [false] by the truth value of [deprecated], the four names
    with the empty string for an absent one, the first English title, and
    the references joined by single spaces. *)
Theorem fields_of_product (prod : value) :
  (isinstance_dict prod = false → fields prod = Raise AttributeError) ∧
  ∀ m cpe titles refs,
    prod = VDict m →
    get m "cpe" (VDict []) = VDict cpe →
    get cpe "titles" (VList []) = VList titles →
    Forall (λ t, isinstance_dict t = true) titles →
    get cpe "refs" (VList []) = VList refs →
    Forall is_ref refs →
    ∃ title,
      first_title titles = Ret title ∧
      fields prod =
        Ret [ VStr (if truthy (get cpe "deprecated" (VBool false))
                    then "true" else "false");
              get cpe "cpeName" (VStr "");
              get cpe "cpeNameId" (VStr "");
              get cpe "lastModified" (VStr "");
              get cpe "created" (VStr "");
              title;
              VStr (String.concat " " (ref_of <$> refs)) ].
Proof.
  split.
  - by destruct prod.
  - intros m cpe titles refs -> Hcpe Htitles Hdicts Hrefs Href.
    destruct (first_title_total titles Hdicts) as [title Htitle].
    destruct (collect_refs_ok refs Href) as (l & Hl1 & Hl2).
    exists title. split; [done|].
    unfold fields. cbn [py_get and_then].
    change (match assoc "cpe" m with Some w => w | None => VDict [] end)
      with (get m "cpe" (VDict [])).
    rewrite Hcpe. cbn [py_get and_then].
    change (match assoc "titles" cpe with Some w => w | None => VList [] end)
      with (get cpe "titles" (VList [])).
    change (match assoc "refs" cpe with Some w => w | None => VList [] end)
      with (get cpe "refs" (VList [])).
    rewrite Htitles, Hrefs. cbn [py_iter and_then].
    rewrite Htitle, Hl1. cbn [and_then]. unfold join. rewrite Hl2.
    done.
Qed.

(** A product that is a string, and the sample product: an absent
    [created] gives an empty field, an absent [ref] an empty word. *)
Lemma fields_of_product_witness :
  fields (VStr "cpe:2.3:a:acme:tool") = Raise AttributeError ∧
  fields (VDict sample_product) =
    Ret [ VStr "false"; VStr "cpe:2.3:a:acme:tool:1.0:*:*:*:*:*:*:*";
          VStr "0A1B"; VStr "2024-05-01T00:00:00.000"; VStr "";
          VStr "Acme Tool";
          VStr "https://acme.example/tool  https://acme.example/news" ].
Proof.
  split.
  - exact (proj1 (fields_of_product (VStr "cpe:2.3:a:acme:tool")) eq_refl).
  - destruct (proj2 (fields_of_product (VDict sample_product))
                sample_product sample_entry sample_titles sample_refs)
      as (title & Htitle & Hfields).
    + reflexivity.
    + reflexivity.
    + reflexivity.
    + repeat constructor.
    + reflexivity.
    + repeat constructor; by eexists.
    + injection Htitle as <-. exact Hfields.
Defined.

(** The number of pages for [n] entries, and the pages the run asks for. *)
Lemma total_pages_ceiling (n : Z) :
  0 < n →
  let k := (n + CPE.RESULTS_PER_PAGE - 1) / CPE.RESULTS_PER_PAGE in
  CPE.RESULTS_PER_PAGE * (k - 1) < n ≤ CPE.RESULTS_PER_PAGE * k.
Proof.
  intros Hn. cbv zeta. unfold CPE.RESULTS_PER_PAGE.
  pose proof (Z.div_mod (n + 10000 - 1) 10000 ltac:(lia)) as Hdiv.
  pose proof (Z.mod_pos_bound (n + 10000 - 1) 10000 ltac:(lia)) as Hmod.
  lia.
Qed.

(** X9: outside the test mode, from a count of [n > 0] entries the run
    plans the pages
    [0 .. k-1], where [k] is the least number of pages of ten thousand
    entries that hold them all: a page is asked for exactly when the index
    of some entry falls on it. *)
Theorem pages_cover_the_entries (E : CPE.env) (n : Z) :
  0 < n →
  ∃ k pages,
    CPE.total_pages_of E (VInt n) = Ret (VInt k) ∧
    CPE.page_range 0 (VInt k) = Ret pages ∧
    ∀ p, p ∈ pages ↔ ∃ i, 0 ≤ i < n ∧ p = i / CPE.RESULTS_PER_PAGE.
Proof.
  intros Hn. pose proof (total_pages_ceiling n Hn) as Hk. cbv zeta in Hk.
  eexists _, _. split; [done|]. split; [done|].
  intros p. rewrite elem_of_seqZ.
  set (k := (n + CPE.RESULTS_PER_PAGE - 1) / CPE.RESULTS_PER_PAGE) in *.
  unfold CPE.RESULTS_PER_PAGE in *. split.
  - intros Hp. exists (10000 * p). split; [lia|].
    by rewrite Z.mul_comm, Z.div_mul.
  - intros (i & Hi & ->).
    pose proof (Z.div_mod i 10000 ltac:(lia)) as Hdiv.
    pose proof (Z.mod_pos_bound i 10000 ltac:(lia)) as Hmod.
    split; [apply Z.div_pos; lia|]. lia.
Qed.

(** A catalogue of 25000 entries: three pages. *)
Lemma pages_cover_the_entries_witness :
  ∃ k pages,
    CPE.total_pages_of (Spec.sample_cpe "2024-05-03_010203" []) (VInt 25000) =
      Ret (VInt k) ∧
    CPE.page_range 0 (VInt k) = Ret pages ∧
    ∀ p, p ∈ pages ↔ ∃ i, 0 ≤ i < 25000 ∧ p = i / CPE.RESULTS_PER_PAGE.
Proof.
  apply (pages_cover_the_entries (Spec.sample_cpe "2024-05-03_010203" [])
           25000).
  lia.
Defined.

End CpeRowFacts.

(** ** The checks and the sync of the mirrored pipeline *)

Ltac step_logs :=
  repeat lazymatch goal with
  | |- Logic.wp _ (OS.bind (OS.emit _) _) _ _ =>
      apply wp_bind, wp_emit; cbv beta iota
  | |- Logic.wp _ (OS.bind (OS.bind (OS.emit _) (λ _, OS.emit _)) _) _ _ =>
      apply wp_bind, wp_bind, wp_emit; cbv beta iota; apply wp_emit;
      cbv beta iota
  | |- Logic.wp _ (OS.bind (OS.emit _) (λ _, OS.emit _)) _ _ =>
      apply wp_bind, wp_emit; cbv beta iota; apply wp_emit; cbv beta iota
  end.

Section Observed.
Import Py OS Logic Spec.

(** What a step adds to the trace, and what it leaves of the data. *)
Lemma events_step (st : state) (e : event) :
  (past (step st e)).*1 = ((past st).*1 ++ [e])%list.
Proof. simpl. by rewrite fmap_app. Qed.

Lemma data_dir_step_quiet (st : state) (e : event) :
  quiet e → data_dir (now (step st e)) = data_dir (now st).
Proof. intros He. by destruct e. Qed.

End Observed.

Ltac run_ends :=
  unfold Spec.outcome_of, OS.trace;
  cbn [OS.end_of OS.final OS.history];
  rewrite ?events_step, ?data_dir_step_quiet by exact I;
  repeat split.

Ltac git_fails H :=
  lazymatch goal with
  | |- Logic.wp _ (OS.bind (OS.bind (OS.emit _) _) _) _ _ =>
      apply wp_bind, wp_bind, wp_emit; cbv beta iota; rewrite H;
      apply wp_raise
  | |- Logic.wp _ (OS.bind (OS.emit _) _) _ _ =>
      apply wp_bind, wp_emit; cbv beta iota; rewrite H; apply wp_raise
  end.

Ltac git_succeeds H :=
  lazymatch goal with
  | |- Logic.wp _ (OS.bind (OS.bind (OS.emit _) _) _) _ _ =>
      apply wp_bind, wp_bind, wp_emit; cbv beta iota; rewrite H;
      apply wp_skip
  end.

Section Splits.
Context {A : Type}.

Lemma split_one (a : A) (before : list A) (x : A) (after : list A) :
  [a] = (before ++ x :: after)%list → before = [] ∧ x = a.
Proof.
  destruct before as [|b before]; simpl.
  - by intros [= -> _].
  - intros [= _ H]. by destruct before.
Qed.

Lemma split_three (a b c : A) (before : list A) (x : A) (after : list A) :
  [a; b; c] = (before ++ x :: after)%list →
  (before = [] ∧ x = a) ∨ (before = [a] ∧ x = b) ∨
  (before = [a; b] ∧ x = c).
Proof.
  destruct before as [|b1 [|b2 [|b3 before]]]; simpl.
  - intros [= -> _]. by left.
  - intros [= -> -> _]. right. by left.
  - intros [= -> -> -> _]. right. by right.
  - intros [= _ _ _ H]. by destruct before.
Qed.

End Splits.

Section VulnPreflight.
Import Py OS Logic Spec Retention Publish Behaviour.
Local Open Scope run_scope.

Context (E : Vuln.env) (O : oracle) (s : fs).

(** X10: the checks before the sync.  Without git the run ends with
    [RuntimeError] before any request; with git, when github.com does not
    answer the one [HEAD] request with status 200, it exits with status 1.
    In both cases no git command is run and the files of the data directory
    are as they were. *)
Theorem vuln_preflight_stops_the_run :
  let r := execute (Vuln.main E) O s in
  (Vuln.git_installed E = false →
   end_of r = Crashed RuntimeError ∧
   filter is_request (trace r) = [] ∧
   filter is_run (trace r) = [] ∧
   data_dir (final r) = data_dir s) ∧
  (Vuln.git_installed E = true → github_up E = false →
   end_of r = Exited 1 ∧
   filter is_request (trace r) = [EvHead GitHub] ∧
   filter is_run (trace r) = [] ∧
   data_dir (final r) = data_dir s).
Proof.
  cbv zeta. split.
  - intros Hgit. apply execute_wp.
    unfold Vuln.main, Vuln.announce, info, log. cbv zeta. rewrite Hgit.
    step_logs. apply wp_bind, wp_raise. run_ends.
  - intros Hgit Hup. apply execute_wp.
    unfold Vuln.main, Vuln.announce, info, log. cbv zeta. rewrite Hgit.
    unfold github_up in Hup. rewrite Hup.
    step_logs. apply wp_bind, wp_skip. step_logs. cbv iota.
    apply wp_bind. step_logs. apply wp_sys_exit. run_ends.
Qed.

(** X11: the sync stops at the first git command that fails: the commands
    before it and the failing one are all that is run, the run exits with
    status 1, and the files of the data directory beside the clone, the
    canonical table and its archive among them, are as they were. *)
Theorem vuln_sync_stops_at_first_failure (ran rest : list (list string))
    (failing : list string) :
  Vuln.git_installed E = true →
  github_up E = true →
  sync_commands E = (ran ++ failing :: rest)%list →
  Forall (λ cmd, Vuln.git_ok E cmd = true) ran →
  Vuln.git_ok E failing = false →
  let r := execute (Vuln.main E) O s in
  end_of r = Exited 1 ∧
  filter is_run (trace r) = EvRun <$> (ran ++ [failing])%list ∧
  data_dir (final r) = data_dir s.
Proof.
  intros Hgit Hup Hcmds Hran Hfail. cbv zeta. apply execute_wp.
  unfold Vuln.main, Vuln.announce, info, log. cbv zeta. rewrite Hgit.
  unfold github_up in Hup. rewrite Hup.
  step_logs. apply wp_bind, wp_skip. step_logs. cbv iota.
  apply wp_bind, wp_skip.
  apply wp_bind, wp_try_catch.
  unfold Vuln.sync_or_clone_repo, Vuln.announce, Vuln.run_git, log.
  unfold sync_commands in Hcmds.
  destruct (Vuln.has_clone E).
  - step_logs. apply wp_bind, wp_try_catch.
    destruct (split_three _ _ _ _ _ _ Hcmds)
      as [[-> ->]|[[-> ->]|[-> ->]]]; clear Hcmds.
    + git_fails Hfail. step_logs. apply wp_raise, wp_bind, wp_sys_exit.
      run_ends.
    + apply Forall_cons in Hran as [Hc1 _].
      git_succeeds Hc1. git_fails Hfail. step_logs.
      apply wp_raise, wp_bind, wp_sys_exit. run_ends.
    + apply Forall_cons in Hran as [Hc1 Hran].
      apply Forall_cons in Hran as [Hc2 _].
      git_succeeds Hc1. git_succeeds Hc2. git_fails Hfail.
      step_logs. apply wp_raise, wp_bind, wp_sys_exit. run_ends.
  - step_logs. apply wp_bind, wp_try_catch.
    destruct (split_one _ _ _ _ Hcmds) as [-> ->]; clear Hcmds.
    git_fails Hfail. step_logs. apply wp_raise, wp_bind, wp_sys_exit.
    run_ends.
Qed.

End VulnPreflight.

Section VulnPreflightInstances.
Import Py OS Logic Spec Retention Publish Behaviour.

(** The fetch succeeds and the reset fails: two commands are run, and the
    archive an earlier run published is still there. *)
Lemma vuln_sync_stops_at_first_failure_witness :
  let r := execute (Vuln.main (sample_vuln git_reset)) sound_machine
             published_fs in
  end_of r = Exited 1 ∧
  filter is_run (trace r) =
    [ EvRun ["git"; "-C"; Vuln.repo_dir; "fetch"; "origin"; "develop"];
      EvRun git_reset ] ∧
  data_dir (final r) = data_dir published_fs.
Proof.
  apply (vuln_sync_stops_at_first_failure (sample_vuln git_reset)
           sound_machine published_fs
           [["git"; "-C"; Vuln.repo_dir; "fetch"; "origin"; "develop"]]
           [["git"; "-C"; Vuln.repo_dir; "clean"; "-fd"]] git_reset).
  - reflexivity.
  - reflexivity.
  - reflexivity.
  - repeat constructor.
  - reflexivity.
Defined.

End VulnPreflightInstances.

(** ** Failed downloads and extractions of the dated-file pipeline *)

Section EpssErrors.
Import Py OS Logic Spec Retention Publish Behaviour.
Local Open Scope run_scope.

Context (O : oracle).
Hypothesis Hsound : sound O.

Lemma concat_cons (x : string) (xs : list string) :
  String.concat "" (x :: xs) = x +:+ String.concat "" xs.
Proof. destruct xs; simpl; [by rewrite append_nil_r|done]. Qed.

Lemma requests_step (st : state) (e : event) :
  requests (step st e) =
    (requests st ++ if is_request e then [e] else [])%list.
Proof.
  unfold requests. simpl. rewrite fmap_app, filter_app. simpl.
  rewrite filter_cons. by destruct (is_request e).
Qed.

(** Writing chunks to a data file that is open appends them all. *)
Lemma wp_write_chunks (f c0 : string) (chunks : list string) Q (st : state) :
  data_dir (now st) !! f = Some c0 →
  (∀ st',
     data_dir (now st') =
       <[f := c0 +:+ String.concat "" chunks]> (data_dir (now st)) →
     log_dir (now st') = log_dir (now st) →
     tmp_dirs (now st') = tmp_dirs (now st) →
     requests st' = requests st →
     Q (Val tt) st') →
  wp O (for_each chunks (λ chunk, write (DataDir, f) chunk)) Q st.
Proof.
  revert c0 st Q. induction chunks as [|c chunks IH]; intros c0 st Q Hc0 HQ.
  - apply wp_skip, HQ; try done. simpl.
    by rewrite append_nil_r, insert_id.
  - cbn [for_each]. apply wp_bind. unfold write.
    apply wp_sys; [by rewrite Hsound|intros _].
    apply (IH (c0 +:+ c)).
    + simpl. unfold store_file, contents, lookup_file; simpl.
      by rewrite Hc0, lookup_insert_eq.
    + intros st' H1 H2 H3 H4. apply HQ.
      * rewrite H1, concat_cons, <- append_assoc.
        cbn [now step apply_event]. unfold store_file. cbn [fst snd data_dir].
        by rewrite insert_insert_eq.
      * by rewrite H2.
      * by rewrite H3.
      * rewrite H4, requests_step. simpl. by rewrite app_nil_r.
Qed.

Lemma seen_initial (s : fs) : seen (initial s) (data_dir s) [].
Proof. done. Qed.

Lemma seen_quiet (st : state) (e : event) d reqs :
  quiet e → seen st d reqs →
  seen (step st e) d (reqs ++ if is_request e then [e] else [])%list.
Proof.
  intros He [<- <-]. split; [by destruct e|apply requests_step].
Qed.

Lemma seen_file_step (st : state) (e : event) d d' reqs :
  is_request e = false →
  data_dir (apply_event (now st) e) = d' →
  seen st d reqs → seen (step st e) d' reqs.
Proof.
  intros He Hd [_ <-]. split; [done|].
  rewrite requests_step, He. apply app_nil_r.
Qed.

(** Past a line of the log, a wait, a request. *)
Lemma wp_quiet_seen {B} (e : event) (k : unit → M B) Q (st : state) d reqs :
  quiet e → seen st d reqs →
  (∀ st', seen st' d (reqs ++ if is_request e then [e] else [])%list →
          wp O (k tt) Q st') →
  wp O (bind (emit e) k) Q st.
Proof. intros He Hs Hk. apply wp_bind, wp_emit, Hk. by apply seen_quiet. Qed.

Lemma wp_exists_seen {B} (f : string) (k : bool → M B) Q (st : state) d reqs :
  seen st d reqs →
  wp O (k (bool_decide (is_Some (d !! f)))) Q st →
  wp O (bind (file_exists (DataDir, f)) k) Q st.
Proof. intros [<- _] Hk. by apply wp_bind, wp_file_exists. Qed.

Lemma wp_truncate_seen {B} (f : string) (k : unit → M B) Q (st : state)
    d reqs :
  seen st d reqs →
  (∀ st', seen st' (<[f := ""]> d) reqs → wp O (k tt) Q st') →
  wp O (bind (open_w (DataDir, f)) k) Q st.
Proof.
  intros Hs Hk. apply wp_bind. unfold open_w. apply wp_bind, wp_get_fs.
  cbn [fst]. cbv beta iota. apply wp_sys; [by rewrite Hsound|intros _].
  apply Hk. eapply seen_file_step; [done| |exact Hs].
  destruct Hs as [<- _]. done.
Qed.

Lemma wp_remove_seen {B} (f : string) (k : unit → M B) Q (st : state)
    d reqs :
  seen st d reqs → is_Some (d !! f) →
  (∀ st', seen st' (delete f d) reqs → wp O (k tt) Q st') →
  wp O (bind (os_remove (DataDir, f)) k) Q st.
Proof.
  intros Hs Hf Hk. apply wp_bind. unfold os_remove.
  apply wp_bind, wp_get_fs. cbv beta iota.
  pose proof Hs as [Hd _]. unfold lookup_file. cbn [fst snd]. rewrite Hd.
  rewrite bool_decide_eq_true_2 by done.
  apply wp_sys; [by rewrite Hsound|intros _].
  apply Hk. eapply seen_file_step; [done| |exact Hs]. by rewrite <- Hd.
Qed.

Lemma wp_move_seen {B} (src dst c : string) (k : unit → M B) Q
    (st : state) d reqs :
  seen st d reqs → d !! src = Some c →
  (∀ st', seen st' (<[dst := c]> (delete src d)) reqs → wp O (k tt) Q st') →
  wp O (bind (shutil_move (DataDir, src) (DataDir, dst)) k) Q st.
Proof.
  intros Hs Hf Hk. apply wp_bind. unfold shutil_move.
  apply wp_bind, wp_get_fs. cbv beta iota.
  pose proof Hs as [Hd _]. unfold lookup_file. cbn [fst snd]. rewrite Hd, Hf.
  rewrite bool_decide_eq_true_2 by done.
  apply wp_sys; [by rewrite Hsound|intros _].
  apply Hk. eapply seen_file_step; [done| |exact Hs].
  subst d. cbn [apply_event]. unfold lookup_file. cbn [fst snd].
  by rewrite Hf.
Qed.

Lemma wp_chunks_seen {B} (f c0 : string) (chunks : list string)
    (k : unit → M B) Q (st : state) d reqs :
  seen st d reqs → d !! f = Some c0 →
  (∀ st', seen st' (<[f := c0 +:+ String.concat "" chunks]> d) reqs →
          wp O (k tt) Q st') →
  wp O (bind (for_each chunks (λ chunk, write (DataDir, f) chunk)) k) Q st.
Proof.
  intros [Hd Hr] Hf Hk. apply wp_bind.
  apply (wp_write_chunks f c0); [by rewrite Hd|].
  intros st' H1 _ _ H4. apply Hk. split; [by rewrite H1, Hd|by rewrite H4].
Qed.

Lemma wp_read_seen {B} (f c : string) (k : string → M B) Q (st : state)
    d reqs :
  seen st d reqs → d !! f = Some c →
  wp O (k c) Q st →
  wp O (bind (read_file (DataDir, f)) k) Q st.
Proof.
  intros [Hd _] Hf Hk. apply wp_bind. unfold read_file.
  apply wp_bind, wp_get_fs. cbv beta iota.
  unfold lookup_file. cbn [fst snd]. rewrite Hd, Hf. by apply wp_ret.
Qed.

Lemma seen_requests (st : state) d reqs :
  seen st d reqs → filter is_request (past st).*1 = reqs.
Proof. by intros [_ H]. Qed.

(** The [except] clause of the download, lines 70-74: the partial file
    goes, whether this attempt or an earlier one left it. *)
Lemma wp_download_failed (E : EPSS.env) (log_file : string) Q (st : state)
    d reqs :
  seen st d reqs →
  (∀ st', seen st' (delete (EPSS.out_gz E +:+ ".part") d) reqs →
          Q (SysExit 2) st') →
  wp O (e ← file_exists (DataDir, EPSS.out_gz E +:+ ".part");
        (if e then os_remove (DataDir, EPSS.out_gz E +:+ ".part")
         else skip);;
        log log_file "ERROR" "ERROR: Download failed";;
        @sys_exit unit 2)%run Q st.
Proof.
  intros Hs HQ. eapply wp_exists_seen; [exact Hs|].
  destruct (d !! (EPSS.out_gz E +:+ ".part")) as [c|] eqn:Hpart.
  - rewrite bool_decide_eq_true_2 by done.
    eapply wp_remove_seen; [exact Hs|by rewrite Hpart|]. intros st1 H1.
    unfold log. eapply wp_quiet_seen; [done|exact H1|]. intros st2 H2.
    apply wp_sys_exit, HQ. by rewrite app_nil_r in H2.
  - rewrite bool_decide_eq_false_2 by (by intros [? ?]).
    apply wp_bind, wp_skip.
    unfold log. eapply wp_quiet_seen; [done|exact Hs|]. intros st2 H2.
    apply wp_sys_exit, HQ. rewrite app_nil_r in H2. by rewrite delete_id.
Qed.

(** X12: when the download fails otherwise than by a 404 (the request raises,
    the server answers with another error status, or the stream breaks off
    after some chunks), the run exits with status 2 after the one request,
    and leaves no partial file: the data directory is the one it found,
    less the [.part] file of that date. *)
Theorem epss_failed_download_leaves_no_partial_file (E : EPSS.env)
    (s : fs) :
  data_dir s !! EPSS.out_gz E = None →
  download_fails E →
  let r := execute (EPSS.main E) O s in
  end_of r = Exited 2 ∧
  data_dir (final r) = delete (EPSS.out_gz E +:+ ".part") (data_dir s) ∧
  filter is_request (trace r) = [EvGet (EpssScores (EPSS.date_str E))].
Proof.
  intros Habsent Hfails. cbv zeta. apply execute_wp.
  assert (∀ st',
            seen st' (delete (EPSS.out_gz E +:+ ".part") (data_dir s))
              [EvGet (EpssScores (EPSS.date_str E))] →
            let r := outcome_of (SysExit 2) st' in
            end_of r = Exited 2 ∧
            data_dir (final r) =
              delete (EPSS.out_gz E +:+ ".part") (data_dir s) ∧
            filter is_request (trace r) =
              [EvGet (EpssScores (EPSS.date_str E))]) as Hend.
  { intros st' [H1 H2]. by split_and!. }
  unfold EPSS.main, info, log. cbv zeta.
  pose proof (seen_initial s) as Hs.
  do 4 (eapply wp_quiet_seen; [done|exact Hs|];
        clear Hs; intros ? Hs; rewrite app_nil_r in Hs).
  eapply wp_exists_seen; [exact Hs|].
  rewrite bool_decide_eq_false_2 by (rewrite Habsent; by intros [? ?]).
  apply wp_bind, wp_skip. apply wp_bind, wp_try_catch.
  unfold EPSS.download, log. cbv zeta.
  eapply wp_quiet_seen; [done|exact Hs|]. clear Hs. intros st1 Hs.
  simpl in Hs. unfold download_fails in Hfails.
  destruct (EPSS.reply E) as [r0|e].
  2: { apply wp_bind, wp_raise, wp_bind.
       eapply wp_download_failed; [exact Hs|exact Hend]. }
  destruct Hfails as [H404 Hwhy].
  apply wp_bind, wp_ret. cbv beta iota.
  rewrite (proj2 (Z.eqb_neq _ _) H404). apply wp_bind, wp_skip.
  unfold EPSS.raise_for_status.
  fold (is_error_status r0). destruct (is_error_status r0).
  { apply wp_bind, wp_raise, wp_bind.
    eapply wp_download_failed; [exact Hs|exact Hend]. }
  destruct Hwhy as [?|Hbroken]; [done|].
  apply wp_bind, wp_skip.
  eapply wp_truncate_seen; [exact Hs|]. clear Hs. intros st2 Hs.
  eapply wp_chunks_seen; [exact Hs|apply lookup_insert_eq|].
  clear Hs. intros st3 Hs.
  rewrite Hbroken. apply wp_bind, wp_raise, wp_bind.
  eapply wp_download_failed; [exact Hs|]. intros st4 H4. apply Hend.
  by rewrite insert_insert_eq, delete_insert_eq in H4.
Qed.

Lemma append_nil_l (a : string) : "" +:+ a = a.
Proof. done. Qed.

(** The download block when the server delivers the file. *)
Lemma wp_download_delivered (E : EPSS.env) (log_file payload : string)
    Q (st : state) d :
  delivered E payload →
  seen st d [] →
  (∀ st', seen st'
            (<[EPSS.out_gz E := payload]>
               (delete (EPSS.out_gz E +:+ ".part") d))
            [EvGet (EpssScores (EPSS.date_str E))] →
          Q (Val (inr tt)) st') →
  wp O (try_catch (EPSS.download E log_file)) Q st.
Proof.
  intros (r0 & Hreply & H404 & Hstatus & Hbroken & ->) Hs HQ.
  apply wp_try_catch. unfold EPSS.download, info, log. cbv zeta.
  eapply wp_quiet_seen; [done|exact Hs|]. clear Hs. intros st1 Hs.
  simpl in Hs. rewrite Hreply. apply wp_bind, wp_ret. cbv beta iota.
  rewrite (proj2 (Z.eqb_neq _ _) H404). apply wp_bind, wp_skip.
  unfold EPSS.raise_for_status. fold (is_error_status r0). rewrite Hstatus.
  apply wp_bind, wp_skip.
  eapply wp_truncate_seen; [exact Hs|]. clear Hs. intros st2 Hs.
  eapply wp_chunks_seen; [exact Hs|apply lookup_insert_eq|].
  clear Hs. intros st3 Hs.
  rewrite Hbroken. apply wp_bind, wp_skip.
  rewrite insert_insert_eq, append_nil_l in Hs.
  eapply wp_move_seen; [exact Hs|apply lookup_insert_eq|].
  clear Hs. intros st4 Hs. rewrite delete_insert_eq in Hs.
  apply wp_emit, HQ.
  match goal with
  | |- seen (step ?st ?e) _ _ => pose proof (seen_quiet st e _ _ I Hs) as Hs'
  end.
  by rewrite app_nil_r in Hs'.
Qed.

(** With the dated file in the data directory a run stops at once. *)
Lemma epss_exits_when_downloaded (E : EPSS.env) (O' : oracle) (s : fs) :
  is_Some (data_dir s !! EPSS.out_gz E) →
  end_of (execute (EPSS.main E) O' s) = Exited 0.
Proof.
  intros Hthere. apply execute_wp.
  unfold EPSS.main, info, log. cbv zeta.
  do 4 (apply wp_bind, wp_emit; cbv beta iota).
  apply wp_file_exists_true; [exact Hthere|].
  by apply wp_bind, wp_bind, wp_emit, wp_sys_exit.
Qed.

Lemma out_gz_not_csv (date : string) :
  "epss_scores-" +:+ date +:+ ".csv.gz" ≠ "epss_scores-" +:+ date +:+ ".csv".
Proof.
  intros H. apply (f_equal String.length) in H.
  rewrite !length_append in H. simpl in H. lia.
Qed.

(** X13: a download that cannot be unpacked stays where it is.  When the
    server delivers the file and [gzip] fails on it, the run exits with
    status 4 and the dated [.csv.gz] file is still in the data directory;
    every later run for the same date then finds it, reports it as already
    downloaded and exits with status 0, without a request. *)
Theorem epss_failed_extraction_blocks_later_runs (E : EPSS.env) (s : fs)
    (payload : string) :
  data_dir s !! EPSS.out_gz E = None →
  delivered E payload →
  (EPSS.gunzip E payload).2 = false →
  let r := execute (EPSS.main E) O s in
  end_of r = Exited 4 ∧
  data_dir (final r) !! EPSS.out_gz E = Some payload ∧
  ∀ E' O', EPSS.date_str E' = EPSS.date_str E →
           end_of (execute (EPSS.main E') O' (final r)) = Exited 0.
Proof.
  intros Habsent Hdelivered Hgunzip. cbv zeta. apply execute_wp.
  assert (∀ st' d,
            seen st' d [EvGet (EpssScores (EPSS.date_str E))] →
            d !! EPSS.out_gz E = Some payload →
            let r := outcome_of (SysExit 4) st' in
            end_of r = Exited 4 ∧
            data_dir (final r) !! EPSS.out_gz E = Some payload ∧
            ∀ E' O', EPSS.date_str E' = EPSS.date_str E →
                     end_of (execute (EPSS.main E') O' (final r)) = Exited 0)
    as Hend.
  { intros st' d [H1 H2] Hd. cbv zeta. cbn [outcome_of end_of final].
    rewrite H1. split_and!; try done.
    intros E' O' Hdate. apply epss_exits_when_downloaded.
    unfold EPSS.out_gz. rewrite Hdate, H1.
    unfold EPSS.out_gz in Hd. by rewrite Hd. }
  unfold EPSS.main, info, log. cbv zeta.
  pose proof (seen_initial s) as Hs.
  do 4 (eapply wp_quiet_seen; [done|exact Hs|];
        clear Hs; intros ? Hs; rewrite app_nil_r in Hs).
  eapply wp_exists_seen; [exact Hs|].
  rewrite bool_decide_eq_false_2 by (rewrite Habsent; by intros [? ?]).
  apply wp_bind, wp_skip. apply wp_bind.
  eapply wp_download_delivered; [exact Hdelivered|exact Hs|].
  clear Hs. intros st1 Hs. apply wp_bind, wp_skip.
  do 2 (eapply wp_quiet_seen; [done|exact Hs|];
        clear Hs; intros ? Hs; rewrite app_nil_r in Hs).
  apply wp_bind, wp_try_catch. unfold EPSS.extract, info, log.
  eapply wp_read_seen; [exact Hs|apply lookup_insert_eq|].
  eapply wp_truncate_seen; [exact Hs|]. clear Hs. intros st2 Hs.
  eapply wp_chunks_seen; [exact Hs|apply lookup_insert_eq|].
  clear Hs. intros st3 Hs.
  rewrite Hgunzip. apply wp_bind, wp_raise.
  apply wp_bind.
  eapply wp_quiet_seen; [done|exact Hs|]. clear Hs. intros st4 Hs.
  rewrite app_nil_r in Hs.
  apply wp_sys_exit. eapply Hend; [exact Hs|].
  rewrite !lookup_insert_ne
    by (intros H; symmetry in H; by apply out_gz_not_csv in H).
  apply lookup_insert_eq.
Qed.

End EpssErrors.

Section EpssErrorsInstances.
Import Py OS Logic Spec Retention Publish Behaviour.

Lemma sound_machine_sound : sound sound_machine.
Proof. by intros e. Qed.

(** A stream that breaks off after two chunks: the partial file of the
    earlier attempt goes with the new one, the other file stays. *)
Lemma epss_failed_download_leaves_no_partial_file_witness :
  let r := execute (EPSS.main broken_epss) sound_machine stale_part_fs in
  end_of r = Exited 2 ∧
  data_dir (final r) = {[ "notes.txt" := "keep" ]} ∧
  filter is_request (trace r) = [EvGet (EpssScores "2024-05-01")].
Proof.
  cbv zeta.
  replace ({[ "notes.txt" := "keep" ]} : gmap string string)
    with (delete (EPSS.out_gz broken_epss +:+ ".part")
            (data_dir stale_part_fs)) by (by vm_compute).
  apply (epss_failed_download_leaves_no_partial_file sound_machine
           sound_machine_sound broken_epss stale_part_fs).
  - reflexivity.
  - split; [by vm_compute|by right].
Defined.

(** The file that cannot be unpacked stays, and the run of the next day
    for the same date does nothing. *)
Lemma epss_failed_extraction_blocks_later_runs_witness :
  let r := execute (EPSS.main (corrupt_epss "2024-05-03_010203"))
             sound_machine empty_fs in
  end_of r = Exited 4 ∧
  data_dir (final r) !! "epss_scores-2024-05-01.csv.gz" = Some "not gzip" ∧
  end_of (execute (EPSS.main (sample_epss "2024-05-04_010203" 200))
            sound_machine (final r)) = Exited 0.
Proof.
  destruct (epss_failed_extraction_blocks_later_runs sound_machine
              sound_machine_sound (corrupt_epss "2024-05-03_010203")
              empty_fs "not gzip") as (H1 & H2 & H3).
  - reflexivity.
  - eexists. split; [reflexivity|]. split; [by vm_compute|]. by split.
  - reflexivity.
  - split; [exact H1|]. split; [exact H2|]. by apply H3.
Defined.

End EpssErrorsInstances.

